(** * VandenStock_DBpedia: a shallow embedding of the book lookup script

    The script asks the DBpedia lookup service for a book title, filters
    the XML answer down to entities typed as Book, lets the user pick
    one, downloads the JSON description of that entity and prints six
    pieces of metadata.

    Python strings are sequences of Unicode code points, so [str] is a
    list of code points.  The interpreter's Unicode tables (case folding,
    decimal digits) and the two parsers of library code (lxml, json) are
    parameters of the sections that use them; everything the script
    itself does is written out. *)

From Stdlib Require Import List NArith ZArith Bool Lia String Ascii.
Import ListNotations.

Set Implicit Arguments.

(** ** Strings *)

Definition codepoint := N.
Definition str := list codepoint.

(** A source literal: the code points of an ASCII string constant. *)
Definition lit (s : string) : str :=
  List.map N_of_ascii (list_ascii_of_string s).

Definition str_eqb (a b : str) : bool :=
  if list_eq_dec N.eq_dec a b then true else false.

(** [Py_UNICODE_ISSPACE]: the code points for which [str.isspace] holds
    and which [str.strip] removes. *)
Definition is_space (c : codepoint) : bool :=
  ((9 <=? c) && (c <=? 13) || (28 <=? c) && (c <=? 32)
   || (c =? 133) || (c =? 160) || (c =? 5760)
   || (8192 <=? c) && (c <=? 8202)
   || (c =? 8232) || (c =? 8233) || (c =? 8239) || (c =? 8287)
   || (c =? 12288))%N.

(** [str.isspace()]: at least one character, and all of them white. *)
Definition isspace (s : str) : bool :=
  match s with
  | [] => false
  | _ => forallb is_space s
  end.

Fixpoint lstrip (s : str) : str :=
  match s with
  | [] => []
  | c :: r => if is_space c then lstrip r else s
  end.

Definition rstrip (s : str) : str := rev (lstrip (rev s)).

(** [str.strip()] *)
Definition strip (s : str) : str := rstrip (lstrip s).

(** [a.startswith(b)] read the other way round: [b] is a prefix of [a]. *)
Fixpoint is_prefix (p s : str) : bool :=
  match p, s with
  | [], _ => true
  | _ :: _, [] => false
  | a :: p', b :: s' => (a =? b)%N && is_prefix p' s'
  end.

(** [str.endswith] *)
Definition endswith (s suffix : str) : bool :=
  is_prefix (rev suffix) (rev s).

(** [str.replace(old, new)] for a non-empty [old]: occurrences are found
    from the left and do not overlap.  [skip] counts the characters of a
    match that are still to be dropped. *)
Fixpoint replace_from (old new : str) (skip : nat) (s : str) : str :=
  match s with
  | [] => []
  | c :: r =>
      match skip with
      | S k => replace_from old new k r
      | O =>
          if is_prefix old s
          then new ++ replace_from old new (List.length old - 1) r
          else c :: replace_from old new 0 r
      end
  end.

(** With an empty [old] Python puts [new] before every character and at
    the end. *)
Definition replace (old new s : str) : str :=
  match old with
  | [] => flat_map (fun c => new ++ [c]) s ++ new
  | _ => replace_from old new 0 s
  end.

(** [s.split(sep)[-1]] for a one-character separator: what follows the
    last separator, the whole string when there is none. *)
Fixpoint last_segment_from (sep : codepoint) (acc : str) (s : str) : str :=
  match s with
  | [] => rev acc
  | c :: r =>
      if (c =? sep)%N then last_segment_from sep [] r
      else last_segment_from sep (c :: acc) r
  end.

Definition last_segment (sep : codepoint) (s : str) : str :=
  last_segment_from sep [] s.

(** Decimal text of a number, as [str()] and [format] give it. *)
Fixpoint digits_from (fuel : nat) (n : N) (acc : str) : str :=
  match fuel with
  | O => acc
  | S f =>
      let acc' := (48 + n mod 10)%N :: acc in
      if (n <? 10)%N then acc' else digits_from f (n / 10)%N acc'
  end.

Definition str_of_N (n : N) : str := digits_from (S (N.to_nat n)) n [].

Definition str_of_Z (z : Z) : str :=
  match z with
  | Zneg p => 45%N :: str_of_N (Npos p)
  | _ => str_of_N (Z.to_N z)
  end.

(** ** UTF-8 and percent-encoding (urllib.parse) *)

Definition is_surrogate (c : codepoint) : bool :=
  ((55296 <=? c) && (c <=? 57343))%N.

(** What [str.encode('utf-8', 'strict')] can encode. *)
Definition is_scalar (c : codepoint) : bool :=
  ((c <? 1114112) && negb (is_surrogate c))%N.

Definition utf8_encode_char (c : codepoint) : option (list N) :=
  (if negb (is_scalar c) then None
   else if c <? 128 then Some [c]
   else if c <? 2048 then Some [192 + c / 64; 128 + c mod 64]
   else if c <? 65536 then
     Some [224 + c / 4096; 128 + (c / 64) mod 64; 128 + c mod 64]
   else
     Some [240 + c / 262144; 128 + (c / 4096) mod 64;
           128 + (c / 64) mod 64; 128 + c mod 64])%N.

(** [None] stands for [UnicodeEncodeError]. *)
Fixpoint utf8_encode (s : str) : option (list N) :=
  match s with
  | [] => Some []
  | c :: r =>
      match utf8_encode_char c, utf8_encode r with
      | Some bs, Some rest => Some (bs ++ rest)
      | _, _ => None
      end
  end.

(** The bytes [quote] leaves alone: letters, digits, [_.-~] and the
    default [safe='/']. *)
Definition is_safe_byte (b : N) : bool :=
  ((65 <=? b) && (b <=? 90) || (97 <=? b) && (b <=? 122)
   || (48 <=? b) && (b <=? 57)
   || (b =? 95) || (b =? 46) || (b =? 45) || (b =? 126) || (b =? 47))%N.

(** Upper-case hexadecimal digit, as ['%{:02X}'] prints it. *)
Definition hex_digit (n : N) : codepoint :=
  (if n <? 10 then 48 + n else 55 + n)%N.

Definition quote_byte (b : N) : str :=
  if is_safe_byte b then [b]
  else [37%N; hex_digit (b / 16); hex_digit (b mod 16)].

(** [urllib.parse.quote(string)] with its defaults. *)
Definition quote (s : str) : option str :=
  match utf8_encode s with
  | Some bs => Some (flat_map quote_byte bs)
  | None => None
  end.

(** Value of a hexadecimal digit of either case. *)
Definition hex_value (c : codepoint) : option N :=
  (if (48 <=? c) && (c <=? 57) then Some (c - 48)
   else if (65 <=? c) && (c <=? 70) then Some (c - 55)
   else if (97 <=? c) && (c <=? 102) then Some (c - 87)
   else None)%N.

(** [unquote] decodes the ASCII stretches of its argument and keeps the
    other characters: an item is a byte to decode or a kept character. *)
Inductive item : Type :=
| Byte (b : N)
| Keep (c : codepoint).

(** [unquote_to_bytes] on the ASCII stretches: [%XX] becomes a byte, a
    [%] that is not followed by two hexadecimal digits stays. *)
Fixpoint percent_decode (s : str) : list item :=
  match s with
  | [] => []
  | c :: r =>
      if (c =? 37)%N then
        match r with
        | h1 :: h2 :: r2 =>
            match hex_value h1, hex_value h2 with
            | Some a, Some b => Byte (16 * a + b) :: percent_decode r2
            | _, _ => Byte c :: percent_decode r
            end
        | _ => Byte c :: percent_decode r
        end
      else if (c <? 128)%N then Byte c :: percent_decode r
      else Keep c :: percent_decode r
  end.

Definition byte_in (lo hi : N) (x : item) : option N :=
  match x with
  | Byte b => if ((lo <=? b) && (b <=? hi))%N then Some b else None
  | Keep _ => None
  end.

(** For a lead byte: how many bytes follow, the range allowed for the
    first of them, and the bits the lead byte contributes. *)
Definition utf8_lead (b : N) : option (nat * N * N * N) :=
  (if (194 <=? b) && (b <=? 223) then Some (1%nat, 128, 191, b - 192)
   else if b =? 224 then Some (2%nat, 160, 191, 0)
   else if b =? 237 then Some (2%nat, 128, 159, 13)
   else if (225 <=? b) && (b <=? 239) then Some (2%nat, 128, 191, b - 224)
   else if b =? 240 then Some (3%nat, 144, 191, 0)
   else if b =? 244 then Some (3%nat, 128, 143, 4)
   else if (241 <=? b) && (b <=? 243) then Some (3%nat, 128, 191, b - 240)
   else None)%N.

Definition replacement_char : codepoint := 65533%N.

(** [bytes.decode('utf-8', 'replace')] over the items: every ill-formed
    stretch (a byte that cannot start a character, or a character cut
    short) becomes U+FFFD and decoding resumes at the byte that broke
    it. *)
Fixpoint utf8_decode (l : list item) : str :=
  match l with
  | [] => []
  | Keep c :: r => c :: utf8_decode r
  | Byte b0 :: r =>
      if (b0 <? 128)%N then b0 :: utf8_decode r
      else
        match utf8_lead b0 with
        | None => replacement_char :: utf8_decode r
        | Some (n, lo, hi, bits0) =>
            match r with
            | x1 :: r1 =>
                match byte_in lo hi x1 with
                | None => replacement_char :: utf8_decode r
                | Some b1 =>
                    let acc1 := (bits0 * 64 + (b1 - 128))%N in
                    match n with
                    | 1%nat => acc1 :: utf8_decode r1
                    | _ =>
                        match r1 with
                        | x2 :: r2 =>
                            match byte_in 128 191 x2 with
                            | None => replacement_char :: utf8_decode r1
                            | Some b2 =>
                                let acc2 := (acc1 * 64 + (b2 - 128))%N in
                                match n with
                                | 2%nat => acc2 :: utf8_decode r2
                                | _ =>
                                    match r2 with
                                    | x3 :: r3 =>
                                        match byte_in 128 191 x3 with
                                        | None =>
                                            replacement_char :: utf8_decode r2
                                        | Some b3 =>
                                            (acc2 * 64 + (b3 - 128))%N
                                              :: utf8_decode r3
                                        end
                                    | [] => [replacement_char]
                                    end
                                end
                            end
                        | [] => [replacement_char]
                        end
                    end
                end
            | [] => [replacement_char]
            end
        end
  end.

(** [urllib.parse.unquote(string)] with its defaults. *)
Definition unquote (s : str) : str := utf8_decode (percent_decode s).

(** ** Exceptions, exits and the outside world *)

(** The exceptions that can leave a function of the script. *)
Inductive exn : Type :=
| HTTPError (code : Z)
| URLError
| ValueError
| IndexError
| KeyError
| AttributeError
| TypeError
| UnicodeEncodeError
| UnicodeDecodeError
| RecursionError
| XMLSyntaxError
| JSONDecodeError
| EOFError.

(** [sys.exit(message)] and [exit(error)]. *)
Inductive exit_status : Type :=
| ExitMessage (message : str)
| ExitError (e : exn).

(** How a call ends: it returns, the process exits, or an exception
    nobody has caught yet travels up. *)
Inductive result (A : Type) : Type :=
| Ret (a : A)
| Exit (status : exit_status)
| Raise (e : exn).

Arguments Ret {A} a.
Arguments Exit {A} status.
Arguments Raise {A} e.

Definition bytes := list N.

(** The three places of the script that call [urllib.request.urlopen]. *)
Inductive call_site : Type :=
| Probe
| Search
| Metadata.

(** What the outside can observe of a run, in order. *)
Inductive event : Type :=
| Urlopen (site : call_site) (url : str)
| Print (text : str)
| PrintError (e : exn)
| Prompt (text : str).

(** What [urlopen] meets: a response with its status and body, or an
    exception of the transport (HTTPError for an error status, URLError
    for an unreachable host, ...). *)
Inductive reply : Type :=
| Response (status : Z) (body : bytes)
| Failure (e : exn).

(** The lines still waiting on standard input, the number of requests
    sent so far and the events so far. *)
Record world : Type := World {
  stdin : list str;
  sent : nat;
  trace : list event
}.

Definition M (A : Type) : Type := world -> result A * world.

Definition ret {A : Type} (a : A) : M A := fun w => (Ret a, w).

Definition bind {A B : Type} (m : M A) (k : A -> M B) : M B :=
  fun w =>
    match m w with
    | (Ret a, w') => k a w'
    | (Exit st, w') => (Exit st, w')
    | (Raise e, w') => (Raise e, w')
    end.

Notation "x <- m ;; k" := (bind m (fun x => k))
  (at level 61, m at next level, right associativity).
Notation "m ;;; k" := (bind m (fun _ => k))
  (at level 61, right associativity).

Definition raise {A : Type} (e : exn) : M A := fun w => (Raise e, w).

Definition sys_exit {A : Type} (st : exit_status) : M A :=
  fun w => (Exit st, w).

Definition lift {A : Type} (r : result A) : M A := fun w => (r, w).

Definition emit (e : event) : M unit :=
  fun w => (Ret tt, World (stdin w) (sent w) (trace w ++ [e])).

(** What standard output can write: it encodes the text as UTF-8, the
    default of the interpreter, and a lone surrogate has no encoding. *)
Definition encodable (text : str) : bool :=
  match utf8_encode text with
  | Some _ => true
  | None => false
  end.

(** [print(text)]: when the text cannot be encoded, UnicodeEncodeError
    is raised and nothing of it is written. *)
Definition print (text : str) : M unit :=
  if encodable text then emit (Print text) else raise UnicodeEncodeError.

(** [print(text)] for a text made of literals of the script and of text
    that lxml returned: an XML document holds no surrogate characters, so
    standard output can always encode it. *)
Definition print_xml (text : str) : M unit := emit (Print text).

(** [input(prompt)]: the prompt is written, one line is read. *)
Definition input (prompt : str) : M str :=
  fun w =>
    let tr := trace w ++ [Prompt prompt] in
    match stdin w with
    | line :: rest => (Ret line, World rest (sent w) tr)
    | [] => (Raise EOFError, World [] (sent w) tr)
    end.

(** [except urllib.error.HTTPError ... except urllib.error.URLError ...]:
    both handlers of the script print the error and exit with it. *)
Definition is_url_error (e : exn) : bool :=
  match e with
  | HTTPError _ | URLError => true
  | _ => false
  end.

Definition except_url_errors {A : Type} (m : M A) : M A :=
  fun w =>
    match m w with
    | (Raise e, w') =>
        if is_url_error e
        then (emit (PrintError e) ;;; sys_exit (ExitError e)) w'
        else (Raise e, w')
    | other => other
    end.

(** The requests a trace contains. *)
Definition requests (tr : list event) : list (call_site * str) :=
  flat_map (fun e => match e with
                     | Urlopen site url => [(site, url)]
                     | _ => []
                     end) tr.

(** ** The sanitizer: [clean] *)

Section Clean.

(** [_PyUnicode_ToFoldedFull] outside ASCII: the full case folding of
    the Unicode character database. *)
Variable fold_table : codepoint -> str.

Definition casefold_char (c : codepoint) : str :=
  (if (65 <=? c) && (c <=? 90) then [c + 32]
   else if c <? 128 then [c]
   else fold_table c)%N.

(** [str.casefold()] folds character by character. *)
Definition casefold (s : str) : str := flat_map casefold_char s.

Definition empty_message : str :=
  lit "That is an empty string... Try again.".

Definition clean (string : str) : result str :=
  if (0 <? List.length string)%nat && negb (isspace string) then
    let string := casefold (strip string) in
    match quote string with
    | Some string => Ret string
    | None => Raise UnicodeEncodeError
    end
  else Exit (ExitMessage empty_message).

End Clean.

(** ** The endpoint prober: [getAPIprefix] *)

Section Network.

(** The network: what the [n]-th request of the run meets at a URL. *)
Variable net : nat -> str -> reply.

(** [with urllib.request.urlopen(url) as r]: the status and the body. *)
Definition urlopen (site : call_site) (url : str) : M (Z * bytes) :=
  fun w =>
    let w' := World (stdin w) (S (sent w)) (trace w ++ [Urlopen site url]) in
    match net (sent w) url with
    | Response status body => (Ret (status, body), w')
    | Failure e => (Raise e, w')
    end.

Definition prefixes : list str :=
  [lit "https://lookup.dbpedia.org/api/search/PrefixSearch?QueryString=";
   lit "http://lookup.dbpedia.org/api/search/PrefixSearch?QueryString=";
   lit "https://lookup.dbpedia.org/api/prefix?query=";
   lit "http://lookup.dbpedia.org/api/prefix?query=";
   lit "http://akswnc7.informatik.uni-leipzig.de/lookup/api/search?query="].

Definition no_api_message : str :=
  lit "No functioning DBpedia lookup API found!".

(** The loop of [getAPIprefix] over the prefixes still to try. *)
Fixpoint probe_all (candidates : list str) : M str :=
  match candidates with
  | [] => sys_exit (ExitMessage no_api_message)
  | prefix :: rest =>
      test <- urlopen Probe (prefix ++ lit "Antwerp") ;;
      if (fst test =? 200)%Z then ret prefix else probe_all rest
  end.

Definition getAPIprefix : M str := probe_all prefixes.

End Network.

(** ** Python values used by the script *)

(** [None] or a string, as [element.text] gives it. *)
Definition text := option str.

Definition text_eqb (a b : text) : bool :=
  match a, b with
  | Some x, Some y => str_eqb x y
  | None, None => true
  | _, _ => false
  end.

(** What [format] and [print] show for it. *)
Definition show_text (t : text) : str :=
  match t with
  | Some s => s
  | None => lit "None"
  end.

(** A [dict] keeps its keys in insertion order; assigning to a key that
    is present replaces the value where the key already stands. *)
Section Dict.

Variables (K V : Type) (eqb : K -> K -> bool).

Definition dict := list (K * V).

Fixpoint dict_set (d : dict) (k : K) (v : V) : dict :=
  match d with
  | [] => [(k, v)]
  | (k', v') :: r =>
      if eqb k k' then (k', v) :: r else (k', v') :: dict_set r k v
  end.

Fixpoint dict_get (d : dict) (k : K) : option V :=
  match d with
  | [] => None
  | (k', v') :: r => if eqb k k' then Some v' else dict_get r k
  end.

(** [list(d)] *)
Definition dict_keys (d : dict) : list K := List.map fst d.

End Dict.

(** [int(s)] for a string, base 10.  Characters outside ASCII are first
    turned into ASCII: white space into a blank, a decimal digit of any
    script into its ASCII digit; anything else ends the string with a
    question mark.  [to_decimal] is [Py_UNICODE_TODECIMAL] of the Unicode
    character database. *)
Section Int.

Variable to_decimal : codepoint -> option N.

Fixpoint to_ascii (s : str) : str :=
  match s with
  | [] => []
  | c :: r =>
      if (c <? 128)%N then c :: to_ascii r
      else if is_space c then 32%N :: to_ascii r
      else
        match to_decimal c with
        | Some d => (48 + d)%N :: to_ascii r
        | None => [63%N]
        end
  end.

(** [Py_ISSPACE] *)
Definition is_ascii_space (c : codepoint) : bool :=
  ((9 <=? c) && (c <=? 13) || (c =? 32))%N.

Fixpoint skip_spaces (s : str) : str :=
  match s with
  | [] => []
  | c :: r => if is_ascii_space c then skip_spaces r else s
  end.

Definition is_digit (c : codepoint) : bool := ((48 <=? c) && (c <=? 57))%N.

(** Digits with single underscores between them.  [prev] tells whether
    the character before was a digit; the result is the value, the
    number of digits and what follows them. *)
Fixpoint scan_digits (s : str) (prev : bool) (acc count : N)
  : option (N * N * str) :=
  match s with
  | [] => if prev then Some (acc, count, []) else None
  | c :: r =>
      if is_digit c then scan_digits r true (10 * acc + (c - 48))%N (count + 1)%N
      else if (c =? 95)%N then
        if prev then scan_digits r false acc count else None
      else if prev then Some (acc, count, s) else None
  end.

(** [sys.get_int_max_str_digits()] as the interpreter starts. *)
Definition max_str_digits : N := 4300.

(** [None] stands for [ValueError]. *)
Definition py_int (s : str) : option Z :=
  let s := skip_spaces (to_ascii s) in
  let (negative, s) :=
    match s with
    | c :: r =>
        if (c =? 45)%N then (true, r)
        else if (c =? 43)%N then (false, r)
        else (false, s)
    | [] => (false, s)
    end in
  match scan_digits s false 0 0 with
  | Some (n, count, rest) =>
      match skip_spaces rest with
      | [] =>
          if (max_str_digits <? count)%N then None
          else Some (if negative then (- Z.of_N n)%Z else Z.of_N n)
      | _ => None
      end
  | None => None
  end.

End Int.

(** [l[k]] for a list: a negative index counts from the end. *)
Definition list_index {A : Type} (l : list A) (k : Z) : option A :=
  let n := Z.of_nat (List.length l) in
  if ((0 <=? k) && (k <? n))%Z then nth_error l (Z.to_nat k)
  else if ((- n <=? k) && (k <? 0))%Z then nth_error l (Z.to_nat (n + k))
  else None.

(** ** The search answer: an XML tree as lxml presents it *)

Inductive kind : Type :=
| Element (tag : str)
| Comment
| Instruction.

#[local] Set Warnings "-register-all".

(** A node with its [.text] and its children.  Comments and processing
    instructions are siblings like any other node. *)
Inductive node : Type :=
| Node (k : kind) (txt : text) (children : list node).

Definition node_kind (n : node) : kind :=
  match n with Node k _ _ => k end.

Definition node_text (n : node) : text :=
  match n with Node _ t _ => t end.

Definition node_children (n : node) : list node :=
  match n with Node _ _ cs => cs end.

(** The root element with the comments and processing instructions that
    stand before and after it. *)
Record document : Type := Document {
  before : list node;
  root : node;
  after : list node
}.

Definition top_level (doc : document) : list node :=
  before doc ++ root doc :: after doc.

(** An element object is a position: the index among its siblings, then
    the parent's, and so on up to the top level. *)
Definition position := list nat.

Fixpoint node_from (forest : list node) (down : list nat) : option node :=
  match down with
  | [] => None
  | i :: rest =>
      match nth_error forest i with
      | None => None
      | Some n =>
          match rest with
          | [] => Some n
          | _ => node_from (node_children n) rest
          end
      end
  end.

Definition node_at (doc : document) (p : position) : option node :=
  node_from (top_level doc) (rev p).

(** [element.getparent()] *)
Definition getparent (p : position) : option position :=
  match p with
  | _ :: (_ :: _) as up => Some up
  | _ => None
  end.

(** [element.getprevious()] *)
Definition getprevious (p : position) : option position :=
  match p with
  | S i :: up => Some (i :: up)
  | _ => None
  end.

Definition has_tag (tag : str) (k : kind) : bool :=
  match k with
  | Element t => str_eqb t tag
  | _ => false
  end.

(** [element.iter(tag)]: the element and its descendants with that tag,
    in document order. *)
Fixpoint iter_from (tag : str) (here : position) (n : node) : list position :=
  match n with
  | Node k _ cs =>
      (if has_tag tag k then [here] else [])
      ++ (fix over (i : nat) (l : list node) : list position :=
            match l with
            | [] => []
            | c :: l' => iter_from tag (i :: here) c ++ over (S i) l'
            end) 0%nat cs
  end.

Definition iter (doc : document) (tag : str) : list position :=
  iter_from tag [List.length (before doc)] (root doc).

(** [element.text] *)
Definition text_at (doc : document) (p : position) : text :=
  match node_at doc p with
  | Some n => node_text n
  | None => None
  end.

(** Calling a method on what may be [None]. *)
Definition call {A B : Type} (obj : option A) (method : A -> B) : result B :=
  match obj with
  | Some o => Ret (method o)
  | None => Raise AttributeError
  end.

Definition rbind {A B : Type} (r : result A) (k : A -> result B) : result B :=
  match r with
  | Ret a => k a
  | Exit st => Exit st
  | Raise e => Raise e
  end.

Notation "x <~ r ;; k" := (rbind r (fun x => k))
  (at level 61, r at next level, right associativity).

(** ** The search result filter: [extract_books] *)

Definition BOOK_IDENTIFIER : str := lit "http://dbpedia.org/ontology/Book".

Definition no_books_message : str :=
  lit "There are no books found for your search query... Try again.".

Definition books := dict text text.

(** The body of the loop for one matching element: from the type URI up
    to its class, up to the classes, then three siblings back. *)
Definition label_and_resource (doc : document) (element : position)
  : result (text * text) :=
  let Class := getparent element in
  Classes <~ call Class getparent ;;
  Description <~ call Classes getprevious ;;
  URI <~ call Description getprevious ;;
  Label <~ call URI getprevious ;;
  Label_text <~ call Label (text_at doc) ;;
  URI_text <~ call URI (text_at doc) ;;
  Ret (Label_text, URI_text).

(** The elements of [tree.iter("URI")] whose text is the Book class. *)
Definition book_elements (doc : document) : list position :=
  filter (fun element => text_eqb (text_at doc element) (Some BOOK_IDENTIFIER))
         (iter doc (lit "URI")).

(** The loop that fills [dict_of_books]. *)
Fixpoint collect (doc : document) (elements : list position) (d : books)
  : result books :=
  match elements with
  | [] => Ret d
  | element :: rest =>
      hit <~ label_and_resource doc element ;;
      collect doc rest (dict_set text_eqb d (fst hit) (snd hit))
  end.

Definition dict_of_books (doc : document) : result books :=
  collect doc (book_elements doc) [].

(** [resource.replace("resource", "data") + '.json'] *)
Definition json_address (resource : text) : result str :=
  uri <~ call resource (replace (lit "resource") (lit "data")) ;;
  Ret (uri ++ lit ".json").

Definition results_line (title : text) : str :=
  lit "Results for '" ++ show_text title ++ lit "':".

(** [print('-', idx, ':', bookname)] *)
Definition candidate_line (idx : nat) (bookname : text) : str :=
  lit "- " ++ str_of_N (N.of_nat idx) ++ lit " : " ++ show_text bookname.

Fixpoint print_candidates (idx : nat) (names : list text) : M unit :=
  match names with
  | [] => ret tt
  | bookname :: rest =>
      print_xml (candidate_line idx bookname) ;;;
      print_candidates (S idx) rest
  end.

Definition multiple_titles_line : str :=
  lit "There are multiple titles available. Please select 1 by entering their index".

Definition choice_prompt : str := lit "Which book do you choose? ".

Section Filter.

Variable to_decimal : codepoint -> option N.

(** [lxml.etree.fromstring]; [None] stands for [XMLSyntaxError]. *)
Variable fromstring : bytes -> option document.

(** The branch taken once [dict_of_books] is filled. *)
Definition select_book (d : books) : M str :=
  match d with
  | [] => sys_exit (ExitMessage no_books_message)
  | [(title, resource)] =>
      URI_json <- lift (json_address resource) ;;
      print_xml (results_line title) ;;;
      ret URI_json
  | _ =>
      let list_of_books := dict_keys d in
      print_xml multiple_titles_line ;;;
      print_candidates 0 list_of_books ;;;
      choice <- input choice_prompt ;;
      match py_int to_decimal choice with
      | None => raise ValueError
      | Some k =>
          match list_index list_of_books k with
          | None => raise IndexError
          | Some title =>
              match dict_get text_eqb d title with
              | None => raise KeyError
              | Some resource =>
                  URI_json <- lift (json_address resource) ;;
                  print_xml (results_line title) ;;;
                  ret URI_json
              end
          end
      end
  end.

Definition extract_books (query_results : bytes) : M str :=
  match fromstring query_results with
  | None => raise XMLSyntaxError
  | Some tree =>
      d <- lift (dict_of_books tree) ;;
      select_book d
  end.

End Filter.

(** ** The metadata document: JSON as [json.loads] presents it *)

(** A float is kept as the text Python shows for it. *)
Inductive json : Type :=
| JNull
| JBool (b : bool)
| JInt (z : Z)
| JFloat (shown : str)
| JStr (s : str)
| JList (elements : list json)
| JDict (members : list (str * json)).

(** [value.items()] *)
Definition items (v : json) : result (list (str * json)) :=
  match v with
  | JDict members => Ret members
  | _ => Raise AttributeError
  end.

(** [for x in value]: a list gives its elements, a dict its keys, a
    string its characters; nothing else can be looped over. *)
Definition elements_of (v : json) : result (list json) :=
  match v with
  | JList elements => Ret elements
  | JDict members => Ret (List.map (fun kv => JStr (fst kv)) members)
  | JStr s => Ret (List.map (fun c => JStr [c]) s)
  | _ => Raise TypeError
  end.

(** [value[key]] for a string key. *)
Definition getitem (v : json) (key : str) : result json :=
  match v with
  | JDict members =>
      match dict_get str_eqb members key with
      | Some x => Ret x
      | None => Raise KeyError
      end
  | _ => Raise TypeError
  end.

(** [value == string] *)
Definition equals_str (v : json) (s : str) : bool :=
  match v with
  | JStr x => str_eqb x s
  | _ => false
  end.

(** [uri.split('/')[-1].replace('_', ' ')] *)
Definition short_label (uri : json) : result json :=
  match uri with
  | JStr s => Ret (JStr (replace [95%N] [32%N] (last_segment 47%N s)))
  | _ => Raise AttributeError
  end.

(** A [for] loop whose body may raise. *)
Fixpoint for_each {A S : Type} (l : list A) (body : A -> S -> result S) (s : S)
  : result S :=
  match l with
  | [] => Ret s
  | x :: rest => s' <~ body x s ;; for_each rest body s'
  end.

(** ** The metadata fetcher: [extract_metadata] *)

Definition AUTHOR_ID : str := lit "http://dbpedia.org/ontology/author".
Definition PUBLISHER_ID : str := lit "http://dbpedia.org/ontology/publisher".
Definition PUBLICATIONDATE_ID : str := lit "http://dbpedia.org/property/published".
Definition PAGES_ID : str := lit "http://dbpedia.org/ontology/numberOfPages".
Definition GENRE_ID : str := lit "http://dbpedia.org/property/genre".
Definition ABSTRACT_ID : str := lit "http://dbpedia.org/ontology/abstract".

Definition not_found : json := JStr (lit "not found").

(** The eight local variables the loops assign to. *)
Record answers : Type := Answers {
  AUTHOR_ANSWER : json;
  AUTHOR_URI : json;
  PUBLISHER_ANSWER : json;
  PUBLISHER_URI : json;
  PUBLICATIONDATE_ANSWER : json;
  PAGES_ANSWER : json;
  GENRE_ANSWER : json;
  ABSTRACT_ANSWER : json
}.

Definition initial_answers : answers :=
  Answers not_found not_found not_found not_found
          not_found not_found not_found not_found.

Definition set_author (label uri : json) (a : answers) : answers :=
  Answers label uri (PUBLISHER_ANSWER a) (PUBLISHER_URI a)
          (PUBLICATIONDATE_ANSWER a) (PAGES_ANSWER a) (GENRE_ANSWER a)
          (ABSTRACT_ANSWER a).

Definition set_publisher (label uri : json) (a : answers) : answers :=
  Answers (AUTHOR_ANSWER a) (AUTHOR_URI a) label uri
          (PUBLICATIONDATE_ANSWER a) (PAGES_ANSWER a) (GENRE_ANSWER a)
          (ABSTRACT_ANSWER a).

Definition set_date (v : json) (a : answers) : answers :=
  Answers (AUTHOR_ANSWER a) (AUTHOR_URI a) (PUBLISHER_ANSWER a)
          (PUBLISHER_URI a) v (PAGES_ANSWER a) (GENRE_ANSWER a)
          (ABSTRACT_ANSWER a).

Definition set_pages (v : json) (a : answers) : answers :=
  Answers (AUTHOR_ANSWER a) (AUTHOR_URI a) (PUBLISHER_ANSWER a)
          (PUBLISHER_URI a) (PUBLICATIONDATE_ANSWER a) v (GENRE_ANSWER a)
          (ABSTRACT_ANSWER a).

Definition set_genre (v : json) (a : answers) : answers :=
  Answers (AUTHOR_ANSWER a) (AUTHOR_URI a) (PUBLISHER_ANSWER a)
          (PUBLISHER_URI a) (PUBLICATIONDATE_ANSWER a) (PAGES_ANSWER a) v
          (ABSTRACT_ANSWER a).

Definition set_abstract (v : json) (a : answers) : answers :=
  Answers (AUTHOR_ANSWER a) (AUTHOR_URI a) (PUBLISHER_ANSWER a)
          (PUBLISHER_URI a) (PUBLICATIONDATE_ANSWER a) (PAGES_ANSWER a)
          (GENRE_ANSWER a) v.

(** [for lst in value[resource]: body] *)
Definition for_values (value : json) (resource : str)
    (body : json -> answers -> result answers) (a : answers) : result answers :=
  listed <~ getitem value resource ;;
  objects <~ elements_of listed ;;
  for_each objects body a.

(** A value that gives a label and keeps the raw identifier. *)
Definition labelled (set : json -> json -> answers -> answers)
    (lst : json) (a : answers) : result answers :=
  uri <~ getitem lst (lit "value") ;;
  label <~ short_label uri ;;
  Ret (set label uri a).

(** A value taken as it is. *)
Definition raw (set : json -> answers -> answers)
    (lst : json) (a : answers) : result answers :=
  v <~ getitem lst (lit "value") ;;
  Ret (set v a).

(** [for k, v in dic.items(): if dic[k] == 'en': ABSTRACT_ANSWER = dic['value']] *)
Definition english (dic : json) (a : answers) : result answers :=
  members <~ items dic ;;
  for_each members
    (fun kv a =>
       x <~ getitem dic (fst kv) ;;
       if equals_str x (lit "en")
       then v <~ getitem dic (lit "value") ;; Ret (set_abstract v a)
       else Ret a)
    a.

(** The [if]/[elif] chain on one predicate of one subject. *)
Definition on_resource (value : json) (resource : str) (a : answers)
  : result answers :=
  if str_eqb resource AUTHOR_ID then
    for_values value resource (labelled set_author) a
  else if str_eqb resource PUBLISHER_ID then
    for_values value resource (labelled set_publisher) a
  else if str_eqb resource PUBLICATIONDATE_ID then
    for_values value resource (raw set_date) a
  else if str_eqb resource PAGES_ID then
    for_values value resource (raw set_pages) a
  else if str_eqb resource GENRE_ID then
    for_values value resource (labelled (fun label _ => set_genre label)) a
  else if str_eqb resource ABSTRACT_ID then
    for_values value resource english a
  else Ret a.

(** [for resource, aspects in value.items(): ...] *)
Definition on_subject (value : json) (a : answers) : result answers :=
  members <~ items value ;;
  for_each members (fun kv => on_resource value (fst kv)) a.

(** [for key, value in json_dict.items(): ...] *)
Definition scan_document (json_dict : json) : result answers :=
  members <~ items json_dict ;;
  for_each members (fun kv => on_subject (snd kv)) initial_answers.

Definition metadata := dict str json.

(** The dict of the [return] statement. *)
Definition answers_dict (a : answers) : metadata :=
  [(lit "AUTHOR", AUTHOR_ANSWER a);
   (lit "AUTHOR_RESOURCE", AUTHOR_URI a);
   (lit "PUBLISHER", PUBLISHER_ANSWER a);
   (lit "PUBLISHER_RESOURCE", PUBLISHER_URI a);
   (lit "PUBLICATION DATE", PUBLICATIONDATE_ANSWER a);
   (lit "NUMBER OF PAGES", PAGES_ANSWER a);
   (lit "GENRE", GENRE_ANSWER a);
   (lit "ABSTRACT", ABSTRACT_ANSWER a)].

(** What the script extracts from a parsed document. *)
Definition extract_fields (json_dict : json) : result metadata :=
  a <~ scan_document json_dict ;;
  Ret (answers_dict a).

Section Fetch.

Variable net : nat -> str -> reply.

(** [json.loads] on the bytes of the answer: the document, or the
    exception it raises (JSONDecodeError for text that is not JSON,
    UnicodeDecodeError for bytes that are no text, ValueError for a
    number beyond the digit limit, RecursionError for nesting too
    deep). *)
Variable loads : bytes -> exn + json.

Definition extract_metadata (URI : str) : M metadata :=
  except_url_errors
    (page <- urlopen net Metadata URI ;;
     match loads (snd page) with
     | inl e => raise e
     | inr json_dict => lift (extract_fields json_dict)
     end).

End Fetch.

(** ** The formatter: [display_results] *)

Section Display.

(** [str(value)] for a list or a dict. *)
Variable show_container : json -> str.

(** What [format] puts in place of [{}]. *)
Definition show (v : json) : str :=
  match v with
  | JStr s => s
  | JInt z => str_of_Z z
  | JFloat shown => shown
  | JBool true => lit "True"
  | JBool false => lit "False"
  | JNull => lit "None"
  | _ => show_container v
  end.

Definition newline : str := [10%N].

(** The line printed for one entry of the metadata. *)
Definition display_line (key : str) (value : json) : str :=
  if endswith key (lit "RESOURCE") && negb (equals_str value (lit "not found"))
  then lit "-> for more info see " ++ show value
  else if str_eqb key (lit "ABSTRACT")
  then lit "- " ++ key ++ lit ": " ++ newline ++ show value
  else lit "- " ++ key ++ lit ": " ++ show value.

Fixpoint display_results (md : metadata) : M unit :=
  match md with
  | [] => ret tt
  | (key, value) :: rest =>
      print (display_line key value) ;;;
      display_results rest
  end.

End Display.

(** ** The whole run: [query_DBpedia] *)

Section Run.

Variable fold_table : codepoint -> str.
Variable to_decimal : codepoint -> option N.
Variable fromstring : bytes -> option document.
Variable loads : bytes -> exn + json.
Variable show_container : json -> str.
Variable net : nat -> str -> reply.

Definition query_DBpedia (search : str) : M unit :=
  bookname <- lift (clean fold_table search) ;;
  DBPEDIA_PREFIX <- getAPIprefix net ;;
  let url := DBPEDIA_PREFIX ++ bookname in
  except_url_errors
    (query <- urlopen net Search url ;;
     let result := snd query in
     book_results <- extract_books to_decimal fromstring result ;;
     md <- extract_metadata net loads book_results ;;
     display_results show_container md).

(** A run from a fresh start: what it ends with and what it did. *)
Definition run (keyboard : list str) (search : str) : result unit * list event :=
  let (r, w) := query_DBpedia search (World keyboard 0 []) in
  (r, trace w).

End Run.

(** ** Sample data *)

Module Sample.

(** Tables of an interpreter that meets ASCII text only: nothing is
    folded and nothing is a digit outside ASCII. *)
Definition fold_nothing : codepoint -> str := fun c => [c].
Definition no_digits : codepoint -> option N := fun _ => None.
Definition show_nothing : json -> str := fun _ => [].

Definition elem (tag : string) (txt : text) (children : list node) : node :=
  Node (Element (lit tag)) txt children.

Definition leaf (tag : string) (txt : string) : node :=
  elem tag (Some (lit txt)) [].

Definition class_of (label uri : string) : node :=
  elem "Class" None [leaf "Label" label; leaf "URI" uri].

(** One [Result] of the lookup service. *)
Definition result_of (label uri : string) (classes : list node) : node :=
  elem "Result" None
       [leaf "Label" label; leaf "URI" uri; leaf "Description" "...";
        elem "Classes" None classes].

Definition book_class : node := class_of "book" "http://dbpedia.org/ontology/Book".
Definition work_class : node := class_of "work" "http://dbpedia.org/ontology/Work".
Definition film_class : node := class_of "film" "http://dbpedia.org/ontology/Film".

Definition answer (results : list node) : document :=
  Document [] (elem "ArrayOfResult" None results) [].

Definition dune : node :=
  result_of "Dune (novel)" "http://dbpedia.org/resource/Dune_(novel)"
            [work_class; book_class].

Definition dune_film : node :=
  result_of "Dune (film)" "http://dbpedia.org/resource/Dune_(film)"
            [work_class; film_class].

Definition dune_messiah : node :=
  result_of "Dune Messiah" "http://dbpedia.org/resource/Dune_Messiah"
            [book_class].

Definition human_resources : node :=
  result_of "Human resources" "http://dbpedia.org/resource/Human_resources"
            [book_class].

(** Two editions the service lists under one label. *)
Definition emma_1 : node :=
  result_of "Emma" "http://dbpedia.org/resource/Emma_(novel)" [book_class].
Definition emma_2 : node :=
  result_of "Emma" "http://dbpedia.org/resource/Emma_(1815_novel)" [book_class].

Definition one_book : document := answer [dune_film; dune].
Definition two_books : document := answer [dune; dune_film; dune_messiah].
Definition no_book : document := answer [dune_film].
Definition same_label : document := answer [emma_1; dune; emma_2].

(** The titles the filter keeps of [two_books]. *)
Definition two_titles : books :=
  [(Some (lit "Dune (novel)"),
    Some (lit "http://dbpedia.org/resource/Dune_(novel)"));
   (Some (lit "Dune Messiah"),
    Some (lit "http://dbpedia.org/resource/Dune_Messiah"))].

(** A value object of the metadata document. *)
Definition uri_object (v : string) : json :=
  JDict [(lit "type", JStr (lit "uri")); (lit "value", JStr (lit v))].

Definition literal_object (v lang : string) : json :=
  JDict [(lit "type", JStr (lit "literal")); (lit "value", JStr (lit v));
         (lit "lang", JStr (lit lang))].

Definition subject_of (members : list (str * json)) : json :=
  JDict [(lit "http://dbpedia.org/resource/Dune_(novel)", JDict members)].

Definition two_authors : json :=
  subject_of
    [(AUTHOR_ID, JList [uri_object "http://dbpedia.org/resource/Frank_Herbert";
                        uri_object "http://dbpedia.org/resource/Brian_Herbert"]);
     (PAGES_ID, JList [JDict [(lit "value", JInt 412)];
                       JDict [(lit "value", JInt 896)]])].

Definition english_and_french : json :=
  subject_of
    [(ABSTRACT_ID, JList [literal_object "Dune is a novel." "en";
                          literal_object "Dune est un roman." "fr"])].

(** A French abstract whose whole text is the two letters [en]. *)
Definition french_en : json :=
  subject_of
    [(ABSTRACT_ID, JList [literal_object "Dune is a novel." "en";
                          literal_object "en" "fr"])].

Definition only_french_en : json :=
  subject_of [(ABSTRACT_ID, JList [literal_object "en" "fr"])].


(** A network where everything answers 200 with the same two bodies:
    probes and the search get [search_body], the rest [metadata_body]. *)
Definition search_body : bytes := [1%N].
Definition metadata_body : bytes := [2%N].

Definition is_lookup (url : str) : bool :=
  existsb (fun p => is_prefix p url) prefixes.

Definition healthy : nat -> str -> reply :=
  fun _ url =>
    if is_lookup url then Response 200 search_body
    else Response 200 metadata_body.

(** The first mirror cannot be reached, the others are healthy. *)
Definition first_down : nat -> str -> reply :=
  fun n url =>
    if is_prefix (hd [] prefixes) url then Failure URLError else healthy n url.

(** Every mirror answers, none of them with status 200. *)
Definition all_moved : nat -> str -> reply :=
  fun _ _ => Response 204 [].

Definition parse_as (doc : document) : bytes -> option document :=
  fun _ => Some doc.

Definition load_as (j : json) : bytes -> exn + json :=
  fun _ => inr j.

(** The Book class itself as an entity of the answer: its identifier is
    the class, its only type is that of a class. *)
Definition book_as_entity : document :=
  answer [result_of "Book" "http://dbpedia.org/ontology/Book"
                    [class_of "class" "http://www.w3.org/2002/07/owl#Class"]].

(** Two book entities under one label and nothing else. *)
Definition emma_twice : document := answer [emma_1; emma_2].

(** A subject with two predicates the script does not look at. *)
Definition untracked : json :=
  subject_of
    [(lit "http://www.w3.org/2000/01/rdf-schema#label",
      JList [literal_object "Dune" "de"]);
     (lit "http://dbpedia.org/ontology/isbn",
      JList [JDict [(lit "type", JStr (lit "literal"))]])].

(** An author whose identifier holds a lone surrogate, as the escape
    [\ud800] of a JSON string gives it. *)
Definition surrogate_author : json :=
  subject_of
    [(AUTHOR_ID,
      JList [JDict [(lit "value",
                     JStr (lit "http://dbpedia.org/resource/" ++ [55296%N]))]])].

(** A body that is no text at all. *)
Definition not_text : bytes -> exn + json :=
  fun _ => inl UnicodeDecodeError.

End Sample.

(** ** Vocabulary of the properties *)

(** The six pieces of metadata. *)
Inductive field : Type :=
| Author
| Publisher
| PublicationDate
| Pages
| Genre
| Abstract.

(** The predicate of a field in the metadata document. *)
Definition field_id (f : field) : str :=
  match f with
  | Author => AUTHOR_ID
  | Publisher => PUBLISHER_ID
  | PublicationDate => PUBLICATIONDATE_ID
  | Pages => PAGES_ID
  | Genre => GENRE_ID
  | Abstract => ABSTRACT_ID
  end.

(** The key of a field in the extracted metadata. *)
Definition field_key (f : field) : str :=
  match f with
  | Author => lit "AUTHOR"
  | Publisher => lit "PUBLISHER"
  | PublicationDate => lit "PUBLICATION DATE"
  | Pages => lit "NUMBER OF PAGES"
  | Genre => lit "GENRE"
  | Abstract => lit "ABSTRACT"
  end.

(** The key under which the raw identifier of a field is kept. *)
Definition resource_key (f : field) : option str :=
  match f with
  | Author => Some (lit "AUTHOR_RESOURCE")
  | Publisher => Some (lit "PUBLISHER_RESOURCE")
  | _ => None
  end.

(** The variable of a field, and the variable of its raw identifier. *)
Definition field_answer (f : field) (a : answers) : json :=
  match f with
  | Author => AUTHOR_ANSWER a
  | Publisher => PUBLISHER_ANSWER a
  | PublicationDate => PUBLICATIONDATE_ANSWER a
  | Pages => PAGES_ANSWER a
  | Genre => GENRE_ANSWER a
  | Abstract => ABSTRACT_ANSWER a
  end.

Definition field_uri (f : field) (a : answers) : json :=
  match f with
  | Author => AUTHOR_URI a
  | Publisher => PUBLISHER_URI a
  | _ => field_answer f a
  end.

(** The label and the identifier of every element the filter keeps, in
    the order of the scan. *)
Fixpoint hits_of (doc : document) (elements : list position)
  : result (list (text * text)) :=
  match elements with
  | [] => Ret []
  | element :: rest =>
      hit <~ label_and_resource doc element ;;
      hits <~ hits_of doc rest ;;
      Ret (hit :: hits)
  end.

Definition book_hits (doc : document) : result (list (text * text)) :=
  hits_of doc (book_elements doc).

Definition text_eq_dec (a b : text) : {a = b} + {a <> b}.
Proof. decide equality. apply list_eq_dec, N.eq_dec. Defined.

(** The labels of the hits, each one once. *)
Definition distinct_labels (hits : list (text * text)) : list text :=
  nodup text_eq_dec (List.map fst hits).

(** The identifier of the hit scanned last under a label. *)
Definition last_scanned (hits : list (text * text)) (label : text) : option text :=
  dict_get text_eqb (rev hits) label.

(** The value objects a subject lists under a predicate. *)
Definition subject_objects (value : json) (pid : str) : list json :=
  match getitem value pid with
  | Ret listed =>
      match elements_of listed with
      | Ret objects => objects
      | _ => []
      end
  | _ => []
  end.

(** The value objects of a predicate over the whole document, in the
    order of the document. *)
Definition objects_for (json_dict : json) (pid : str) : list json :=
  match json_dict with
  | JDict subjects =>
      flat_map (fun kv => subject_objects (snd kv) pid) subjects
  | _ => []
  end.

(** The final path segment of an identifier, underscores as spaces. *)
Definition segment_with_spaces (s : str) : str :=
  replace [95%N] [32%N] (last_segment 47%N s).

(** What a field and its raw identifier hold. *)
Definition view (f : field) (a : answers) : json * json :=
  (field_answer f a, field_uri f a).

(** The variables of a field hold what the value [v] of a value object
    gives them. *)
Definition assigned (f : field) (v : json) (a : answers) : Prop :=
  match f with
  | Author | Publisher =>
      field_uri f a = v
      /\ exists s, v = JStr s /\ field_answer f a = JStr (segment_with_spaces s)
  | Genre => exists s, v = JStr s /\ field_answer f a = JStr (segment_with_spaces s)
  | PublicationDate | Pages => field_answer f a = v
  | Abstract => True
  end.

(** The state of a field once the objects [seen] have been gone through,
    starting from [a0]: untouched when there was none, else assigned
    from the last of them. *)
Definition after_objects (f : field) (seen : list json) (a0 a : answers) : Prop :=
  match rev seen with
  | [] => view f a = view f a0
  | lst :: _ => exists v, getitem lst (lit "value") = Ret v /\ assigned f v a
  end.

(** The body of the loop over the value objects of a field. *)
Definition field_body (f : field) : json -> answers -> result answers :=
  match f with
  | Author => labelled set_author
  | Publisher => labelled set_publisher
  | PublicationDate => raw set_date
  | Pages => raw set_pages
  | Genre => labelled (fun label _ => set_genre label)
  | Abstract => english
  end.

(** The document is a dict whose values are dicts. *)
Definition subjects_are_dicts (json_dict : json) : bool :=
  match json_dict with
  | JDict subjects =>
      forallb (fun kv => match snd kv with JDict _ => true | _ => false end)
              subjects
  | _ => false
  end.

(** What a field holds: its variable and its raw identifier. *)
Definition holds (f : field) (x y : json) (a : answers) : Prop :=
  field_answer f a = x /\ field_uri f a = y.

(** The dict after the assignments of the loop, one per hit. *)
Definition fill (hits : list (text * text)) (d : books) : books :=
  fold_left (fun d hit => dict_set text_eqb d (fst hit) (snd hit)) hits d.

(** A subject of the document carries the predicate. *)
Definition subject_mentions (value : json) (pid : str) : bool :=
  match value with
  | JDict members => existsb (fun kv => str_eqb (fst kv) pid) members
  | _ => false
  end.

(** Some subject of the document carries the predicate. *)
Definition mentions (json_dict : json) (pid : str) : bool :=
  match json_dict with
  | JDict subjects => existsb (fun kv => subject_mentions (snd kv) pid) subjects
  | _ => false
  end.

(** The lines [display_results] prints for a metadata dict. *)
Definition printed (show_container : json -> str) (md : metadata) : list str :=
  List.map (fun kv => display_line show_container (fst kv) (snd kv)) md.


(** A character [quote] can put out: one it leaves alone, or the
    percent sign. *)
Definition url_safe (c : codepoint) : bool :=
  is_safe_byte c || (c =? 37)%N.

Definition is_ascii (c : codepoint) : bool := (c <? 128)%N.

(** The URL a candidate is probed at. *)
Definition probe_url (prefix : str) : str := prefix ++ lit "Antwerp".

(** The lines that list the titles, numbered from [idx]. *)
Fixpoint candidate_lines (idx : nat) (names : list text) : list str :=
  match names with
  | [] => []
  | bookname :: rest =>
      candidate_line idx bookname :: candidate_lines (S idx) rest
  end.

(** A string that does not start with white space. *)
Definition starts_black (s : str) : Prop :=
  match s with
  | [] => True
  | c :: _ => is_space c = false
  end.

(** The event of probing a candidate. *)
Definition probe_event (prefix : str) : event := Urlopen Probe (probe_url prefix).

(** Each of the candidates, probed in turn from request number [start]
    on, answers with a status other than 200. *)
Definition answered_other (net : nat -> str -> reply) (start : nat)
    (candidates : list str) : Prop :=
  forall i prefix,
    nth_error candidates i = Some prefix ->
    exists status body,
      net (start + i)%nat (probe_url prefix) = Response status body
      /\ status <> 200%Z.

(** What a step of the script that stays off the network leaves of the
    world: the request counter as it was, new events that are no
    requests, and at most one line taken from standard input. *)
Definition offline (w w' : world) : Prop :=
  sent w' = sent w
  /\ (exists events, trace w' = trace w ++ events /\ requests events = [])
  /\ (stdin w' = stdin w \/ exists line, stdin w = line :: stdin w').

(** The request of probing a candidate. *)
Definition probe_request (prefix : str) : call_site * str :=
  (Probe, probe_url prefix).

(** Some member of the value object equals the string. *)
Definition has_member (dic : json) (s : str) : bool :=
  match dic with
  | JDict members =>
      existsb (fun kv =>
                 match dict_get str_eqb members (fst kv) with
                 | Some x => equals_str x s
                 | None => false
                 end) members
  | _ => false
  end.

(** The abstract once the objects [seen] have been gone through: that of
    the last object with a member equal to "en", untouched when there
    is none. *)
Definition after_abstracts (seen : list json) (a0 a : answers) : Prop :=
  match rev (filter (fun dic => has_member dic (lit "en")) seen) with
  | [] => ABSTRACT_ANSWER a = ABSTRACT_ANSWER a0
  | dic :: _ =>
      exists v, getitem dic (lit "value") = Ret v /\ ABSTRACT_ANSWER a = v
  end.

(** A value object the loop of a field can take its value from: it has
    a [value], a string where a label is derived from it. *)
Definition usable (f : field) (lst : json) : Prop :=
  exists v,
    getitem lst (lit "value") = Ret v
    /\ match f with
       | Author | Publisher | Genre => exists s, v = JStr s
       | _ => True
       end.



(** The exceptions a metadata document of an unexpected shape causes. *)
Definition is_lookup_error (e : exn) : bool :=
  match e with
  | KeyError | TypeError | AttributeError => true
  | _ => false
  end.

(** A computation that never exits and raises nothing but these. *)
Definition fails_by_lookup {A : Type} (r : result A) : Prop :=
  match r with
  | Ret _ => True
  | Exit _ => False
  | Raise e => is_lookup_error e = true
  end.

(** The lines standard output has taken when lines are printed one after
    the other: those before the first it cannot encode. *)
Fixpoint written (lines : list str) : list str :=
  match lines with
  | [] => []
  | line :: rest => if encodable line then line :: written rest else []
  end.

(** How printing the lines one after the other ends. *)
Definition printing_ends (lines : list str) : result unit :=
  if forallb encodable lines then Ret tt else Raise UnicodeEncodeError.







(** The element at a position has the tag. *)
Definition tagged (doc : document) (tag : string) (p : position) : bool :=
  match node_at doc p with
  | Some n => has_tag (lit tag) (node_kind n)
  | None => false
  end.

(** An element at [Classes/Class/URI], where the docstring of the filter
    puts its condition. *)
Definition is_type_uri (doc : document) (p : position) : bool :=
  tagged doc "URI" p
  && match getparent p with
     | Some class =>
         tagged doc "Class" class
         && match getparent class with
            | Some classes => tagged doc "Classes" classes
            | None => false
            end
     | None => false
     end.

(** The type URIs of the answer that are the Book class: one for every
    entity typed as a book. *)
Definition book_types (doc : document) : list position :=
  filter (is_type_uri doc) (book_elements doc).

Import Sample.

(** * Properties *)

(** ** Equality tests *)

Lemma str_eqb_eq (a b : str) : str_eqb a b = true <-> a = b.
Proof.
  unfold str_eqb. destruct (list_eq_dec N.eq_dec a b); split; congruence.
Qed.

Lemma str_eqb_refl (a : str) : str_eqb a a = true.
Proof. now apply str_eqb_eq. Qed.

Lemma str_eqb_neq (a b : str) : str_eqb a b = false <-> a <> b.
Proof.
  unfold str_eqb. destruct (list_eq_dec N.eq_dec a b); split; congruence.
Qed.

Lemma text_eqb_eq (a b : text) : text_eqb a b = true <-> a = b.
Proof.
  destruct a, b; simpl; try rewrite str_eqb_eq; split; congruence.
Qed.

(** ** Sanitizer and prober *)

Lemma isspace_blank (s : str) :
  s <> [] -> forallb is_space s = true -> isspace s = true.
Proof.
  destruct s as [|c r]; [congruence|]. intros _ H. exact H.
Qed.

Lemma clean_blank (fold_table : codepoint -> str) (s : str) :
  s = [] \/ forallb is_space s = true ->
  clean fold_table s = Exit (ExitMessage empty_message).
Proof.
  intros [->|H]; [reflexivity|].
  destruct s as [|c r]; [reflexivity|].
  unfold clean. rewrite isspace_blank by (assumption || discriminate).
  now rewrite andb_false_r.
Qed.

(** C8: an empty or all-white search string ends the run in the
    sanitizer, with its message, before any request is sent: the trace
    of the run is empty. *)
Theorem blank_search_stops_before_network
    (fold_table : codepoint -> str) (to_decimal : codepoint -> option N)
    (fromstring : bytes -> option document) (loads : bytes -> exn + json)
    (show_container : json -> str) (net : nat -> str -> reply)
    (keyboard : list str) (search : str) :
  search = [] \/ forallb is_space search = true ->
  run fold_table to_decimal fromstring loads show_container net keyboard search
  = (Exit (ExitMessage empty_message), []).
Proof.
  intro H. unfold run, query_DBpedia, bind, lift.
  now rewrite (@clean_blank fold_table search H).
Qed.

Lemma blank_search_stops_before_network_witness :
  ([32; 9; 12288]%N = [] \/ forallb is_space [32; 9; 12288]%N = true)
  /\ run fold_nothing no_digits (parse_as one_book) (load_as two_authors)
         show_nothing healthy [] [32; 9; 12288]%N
     = (Exit (ExitMessage empty_message), []).
Proof.
  split.
  - right. reflexivity.
  - apply blank_search_stops_before_network. right. reflexivity.
Defined.

(** When every candidate answers, the prober behaves as described: the
    first candidate answering 200 is returned, and the run exits with
    the message when none does. *)
Lemma probe_all_answering (net : nat -> str -> reply) (candidates : list str) :
  forall w,
    (forall n p, In p candidates ->
                 exists status body,
                   net n (p ++ lit "Antwerp") = Response status body) ->
    (exists before_ p after_ w',
        candidates = before_ ++ p :: after_
        /\ probe_all net candidates w = (Ret p, w')
        /\ sent w' = (sent w + S (List.length before_))%nat)
    \/ (exists w', probe_all net candidates w
                   = (Exit (ExitMessage no_api_message), w')
                   /\ sent w' = (sent w + List.length candidates)%nat).
Proof.
  induction candidates as [|p rest IH]; intros w Hall.
  - right. exists w. split; [reflexivity|]. simpl. lia.
  - destruct (Hall (sent w) p (or_introl eq_refl)) as (status & body & Hp).
    simpl. unfold bind, urlopen. rewrite Hp. simpl.
    destruct (status =? 200)%Z eqn:Hs.
    + left. exists [], p, rest. eexists. split; [reflexivity|].
      split; [reflexivity|]. simpl. lia.
    + set (w1 := World (stdin w) (S (sent w))
                       (trace w ++ [Urlopen Probe (p ++ lit "Antwerp")])).
      destruct (IH w1) as [(b & q & a & w' & Hc & Hr & Hn)|(w' & Hr & Hn)].
      * intros n q Hq. apply Hall. now right.
      * left. exists (p :: b), q, a, w'. subst rest.
        repeat split; [exact Hr|]. rewrite Hn. simpl. lia.
      * right. exists w'. split; [exact Hr|]. rewrite Hn. simpl. lia.
Qed.

(** An exception met by a probe leaves the prober at once, whatever the
    candidates after it would answer; nothing around the prober catches
    it, so it ends the run. *)
Lemma probe_failure_escapes (net : nat -> str -> reply) (prefix : str)
    (rest : list str) (e : exn) (w : world) :
  net (sent w) (prefix ++ lit "Antwerp") = Failure e ->
  probe_all net (prefix :: rest) w
  = (Raise e, World (stdin w) (S (sent w))
                    (trace w ++ [Urlopen Probe (prefix ++ lit "Antwerp")])).
Proof.
  intro H. simpl. unfold bind, urlopen. now rewrite H.
Qed.

Lemma prober_exception_ends_run
    (fold_table : codepoint -> str) (to_decimal : codepoint -> option N)
    (fromstring : bytes -> option document) (loads : bytes -> exn + json)
    (show_container : json -> str) (net : nat -> str -> reply)
    (search bookname : str) (e : exn) (w w' : world) :
  clean fold_table search = Ret bookname ->
  getAPIprefix net w = (Raise e, w') ->
  query_DBpedia fold_table to_decimal fromstring loads show_container net
                search w
  = (Raise e, w').
Proof.
  intros Hclean Hprobe. unfold query_DBpedia, bind at 1, lift.
  rewrite Hclean. unfold bind at 1. now rewrite Hprobe.
Qed.

(** C2: with the first mirror unreachable and all others healthy, the
    prober sends one request and lets the URLError escape: the run ends
    with the uncaught exception, neither with the second mirror nor with
    the exit message. *)
Theorem unreachable_mirror_escapes_prober :
  getAPIprefix first_down (World [] 0 [])
  = (Raise URLError,
     World [] 1 [Urlopen Probe (hd [] prefixes ++ lit "Antwerp")])
  /\ run fold_nothing no_digits (parse_as one_book) (load_as two_authors)
         show_nothing first_down [] (lit "Dune")
     = (Raise URLError, [Urlopen Probe (hd [] prefixes ++ lit "Antwerp")]).
Proof. split; vm_compute; reflexivity. Qed.

(** ** Address of the metadata document *)

Example dune_address :
  json_address (Some (lit "http://dbpedia.org/resource/Dune_(novel)"))
  = Ret (lit "http://dbpedia.org/data/Dune_(novel).json").
Proof. vm_compute. reflexivity. Qed.

(** C1: every occurrence of [resource] is replaced, also inside the name
    of the entity: for the single hit "Human resources" the address
    fetched is that of "Human_datas". *)
Theorem address_rewrites_entity_name :
  json_address (Some (lit "http://dbpedia.org/resource/Human_resources"))
  = Ret (lit "http://dbpedia.org/data/Human_datas.json")
  /\ fst (extract_books no_digits (parse_as (answer [human_resources]))
                        search_body (World [] 0 []))
     = Ret (lit "http://dbpedia.org/data/Human_datas.json").
Proof. split; vm_compute; reflexivity. Qed.

(** ** The abstract *)

Example english_abstract_chosen :
  exists md, extract_fields english_and_french = Ret md
             /\ dict_get str_eqb md (lit "ABSTRACT")
                = Some (JStr (lit "Dune is a novel.")).
Proof. eexists. split; vm_compute; reflexivity. Qed.

(** C6: the test looks at every member of a value object, not at its
    language tag alone.  A French object whose text is "en" is taken,
    after the English one and also when no object is tagged "en". *)
Theorem french_object_taken_for_english :
  (exists md, extract_fields french_en = Ret md
              /\ dict_get str_eqb md (lit "ABSTRACT") = Some (JStr (lit "en")))
  /\ (exists md, extract_fields only_french_en = Ret md
                 /\ dict_get str_eqb md (lit "ABSTRACT")
                    = Some (JStr (lit "en"))).
Proof. split; eexists; split; vm_compute; reflexivity. Qed.

(** ** Disambiguation *)

Lemma print_candidates_run (names : list text) :
  forall idx w,
    exists tr,
      print_candidates idx names w
      = (Ret tt, World (stdin w) (sent w) (trace w ++ tr))
      /\ List.length tr = List.length names.
Proof.
  induction names as [|b rest IH]; intros idx w.
  - exists []. simpl. rewrite app_nil_r. destruct w; split; reflexivity.
  - simpl. unfold bind, print_xml, emit.
    destruct (IH (S idx) (World (stdin w) (sent w)
                                (trace w ++ [Print (candidate_line idx b)])))
      as (tr & Hrun & Hlen).
    exists (Print (candidate_line idx b) :: tr). simpl in *.
    rewrite Hrun, <- app_assoc. split; [reflexivity|]. now rewrite Hlen.
Qed.

Lemma dict_get_key (d : books) (title : text) :
  In title (dict_keys d) -> exists resource, dict_get text_eqb d title = Some resource.
Proof.
  induction d as [|[k v] r IH]; simpl; [tauto|].
  intros [<-|H].
  - exists v. replace (text_eqb k k) with true; [reflexivity|].
    symmetry. now apply text_eqb_eq.
  - destruct (text_eqb title k); [now exists v|]. now apply IH.
Qed.

Lemma list_index_outside {A : Type} (l : list A) (k : Z) :
  (k < - Z.of_nat (List.length l) \/ Z.of_nat (List.length l) <= k)%Z ->
  list_index l k = None.
Proof.
  intro H. unfold list_index.
  destruct ((0 <=? k) && (k <? Z.of_nat (List.length l)))%Z eqn:E1;
    [apply andb_true_iff in E1; lia|].
  destruct ((- Z.of_nat (List.length l) <=? k) && (k <? 0))%Z eqn:E2;
    [apply andb_true_iff in E2; lia|reflexivity].
Qed.

Lemma list_index_from_start {A : Type} (l : list A) (k : Z) :
  (0 <= k < Z.of_nat (List.length l))%Z ->
  list_index l k = nth_error l (Z.to_nat k)
  /\ exists x, nth_error l (Z.to_nat k) = Some x.
Proof.
  intro H. unfold list_index.
  replace ((0 <=? k) && (k <? Z.of_nat (List.length l)))%Z with true
    by (symmetry; apply andb_true_iff; lia).
  split; [reflexivity|].
  destruct (nth_error l (Z.to_nat k)) eqn:E; [now eexists|].
  apply nth_error_None in E. lia.
Qed.

Lemma list_index_from_end {A : Type} (l : list A) (k : Z) :
  (- Z.of_nat (List.length l) <= k < 0)%Z ->
  list_index l k = nth_error l (Z.to_nat (Z.of_nat (List.length l) + k))
  /\ exists x, nth_error l (Z.to_nat (Z.of_nat (List.length l) + k)) = Some x.
Proof.
  intro H. unfold list_index.
  replace ((0 <=? k) && (k <? Z.of_nat (List.length l)))%Z with false
    by (symmetry; apply andb_false_iff; lia).
  replace ((- Z.of_nat (List.length l) <=? k) && (k <? 0))%Z with true
    by (symmetry; apply andb_true_iff; lia).
  split; [reflexivity|].
  destruct (nth_error l (Z.to_nat (Z.of_nat (List.length l) + k))) eqn:E;
    [now eexists|].
  apply nth_error_None in E. lia.
Qed.

(** What the branch for several books comes down to once the titles are
    listed and the choice is read. *)
Lemma select_book_many (to_decimal : codepoint -> option N) (d : books)
    (choice : str) (rest : list str) (n : nat) (tr : list event) :
  (2 <= List.length d)%nat ->
  fst (select_book to_decimal d (World (choice :: rest) n tr))
  = match py_int to_decimal choice with
    | None => Raise ValueError
    | Some k =>
        match list_index (dict_keys d) k with
        | None => Raise IndexError
        | Some title =>
            match dict_get text_eqb d title with
            | None => Raise KeyError
            | Some resource => json_address resource
            end
        end
    end.
Proof.
  intro Hlen.
  destruct d as [|[t1 r1] [|[t2 r2] d']]; simpl in Hlen; try lia.
  unfold select_book.
  set (d := (t1, r1) :: (t2, r2) :: d').
  unfold bind at 1. unfold print_xml at 1, emit. cbv beta iota.
  unfold bind at 1.
  destruct (print_candidates_run (dict_keys d) 0
              (World (stdin (World (choice :: rest) n tr))
                     (sent (World (choice :: rest) n tr))
                     (trace (World (choice :: rest) n tr)
                      ++ [Print multiple_titles_line])))
    as (tr' & -> & _).
  cbv beta iota. unfold bind at 1, input. simpl stdin. cbv beta iota.
  destruct (py_int to_decimal choice) as [k|]; [|reflexivity].
  destruct (list_index (dict_keys d) k) as [title|]; [|reflexivity].
  destruct (dict_get text_eqb d title) as [resource|]; [|reflexivity].
  unfold bind, lift.
  destruct (json_address resource); reflexivity.
Qed.

(** C3, as the code has it: with N >= 2 titles listed, a choice that
    [int] rejects ends in ValueError and an index k with k >= N or
    k < -N ends in IndexError, so no book is selected; an index
    -N <= k < 0 is not an error: it counts from the end of the list and
    selects the title at N + k, as 0 <= k < N selects the title at k. *)
Theorem choice_outside_list_is_fatal
    (to_decimal : codepoint -> option N) (d : books)
    (choice : str) (rest : list str) (n : nat) (tr : list event) :
  (2 <= List.length d)%nat ->
  forall outcome,
    outcome = fst (select_book to_decimal d (World (choice :: rest) n tr)) ->
    (py_int to_decimal choice = None -> outcome = Raise ValueError)
    /\ (forall k, py_int to_decimal choice = Some k ->
          (k < - Z.of_nat (List.length d) \/ Z.of_nat (List.length d) <= k)%Z ->
          outcome = Raise IndexError)
    /\ (forall k, py_int to_decimal choice = Some k ->
          (- Z.of_nat (List.length d) <= k < 0)%Z ->
          exists title resource,
            nth_error (dict_keys d) (Z.to_nat (Z.of_nat (List.length d) + k))
            = Some title
            /\ dict_get text_eqb d title = Some resource
            /\ outcome = json_address resource)
    /\ (forall k, py_int to_decimal choice = Some k ->
          (0 <= k < Z.of_nat (List.length d))%Z ->
          exists title resource,
            nth_error (dict_keys d) (Z.to_nat k) = Some title
            /\ dict_get text_eqb d title = Some resource
            /\ outcome = json_address resource).
Proof.
  intros Hlen outcome ->. rewrite (@select_book_many to_decimal d choice rest n tr Hlen).
  assert (Hkeys : List.length (dict_keys d) = List.length d)
    by apply length_map.
  repeat split.
  - now intros ->.
  - intros k -> Hk. rewrite list_index_outside; [reflexivity|].
    rewrite Hkeys. exact Hk.
  - intros k -> Hk. rewrite <- Hkeys in Hk.
    destruct (@list_index_from_end _ (dict_keys d) k Hk) as (-> & title & Hnth).
    rewrite <- Hkeys. rewrite Hnth.
    destruct (@dict_get_key d title (nth_error_In _ _ Hnth)) as (resource & Hget).
    exists title, resource. rewrite Hget. auto.
  - intros k -> Hk. rewrite <- Hkeys in Hk.
    destruct (@list_index_from_start _ (dict_keys d) k Hk) as (-> & title & Hnth).
    rewrite Hnth.
    destruct (@dict_get_key d title (nth_error_In _ _ Hnth)) as (resource & Hget).
    exists title, resource. rewrite Hget. auto.
Qed.

Example two_books_filtered : dict_of_books two_books = Ret two_titles.
Proof. vm_compute. reflexivity. Qed.

Lemma choice_outside_list_is_fatal_witness :
  (2 <= List.length two_titles)%nat
  /\ fst (select_book no_digits two_titles (World [lit "2"] 0 []))
     = Raise IndexError
  /\ fst (select_book no_digits two_titles (World [lit "two"] 0 []))
     = Raise ValueError.
Proof.
  assert (Hlen : (2 <= List.length two_titles)%nat) by (simpl; lia).
  split; [exact Hlen|]. split.
  - destruct (@choice_outside_list_is_fatal no_digits two_titles (lit "2")
                [] 0%nat [] Hlen _ eq_refl) as (_ & H & _).
    apply (H 2%Z); [reflexivity|]. simpl. lia.
  - destruct (@choice_outside_list_is_fatal no_digits two_titles (lit "two")
                [] 0%nat [] Hlen _ eq_refl) as (H & _).
    apply H. reflexivity.
Defined.

(** C3 as stated fails: with two titles listed, the choice "-1" is a
    negative index and yet selects a book, the last one of the list. *)
Lemma negative_choice_selects_last_title :
  py_int no_digits (lit "-1") = Some (-1)%Z
  /\ List.length two_titles = 2%nat
  /\ fst (select_book no_digits two_titles (World [lit "-1"] 0 []))
     = Ret (lit "http://dbpedia.org/data/Dune_Messiah.json").
Proof. repeat split; vm_compute; reflexivity. Qed.

(** ** No book among the results *)

Lemma probe_all_trace (net : nat -> str -> reply) (candidates : list str) :
  forall w r w',
    probe_all net candidates w = (r, w') ->
    exists urls, trace w' = trace w ++ List.map (Urlopen Probe) urls.
Proof.
  induction candidates as [|p rest IH]; intros w r w' H.
  - inversion H; subst. exists []. simpl. now rewrite app_nil_r.
  - simpl in H. unfold bind, urlopen in H.
    destruct (net (sent w) (p ++ lit "Antwerp")) as [status body|e].
    + simpl in H. destruct (status =? 200)%Z.
      * inversion H; subst. now exists [p ++ lit "Antwerp"].
      * apply IH in H. destruct H as (urls & ->). simpl.
        exists ((p ++ lit "Antwerp") :: urls). now rewrite <- app_assoc.
    + inversion H; subst. now exists [p ++ lit "Antwerp"].
Qed.

Lemma no_book_elements (tree : document) :
  (forall element, In element (iter tree (lit "URI")) ->
                   text_at tree element <> Some BOOK_IDENTIFIER) ->
  book_elements tree = [].
Proof.
  unfold book_elements. induction (iter tree (lit "URI")) as [|e l IH];
    intro H; [reflexivity|].
  simpl. destruct (text_eqb (text_at tree e) (Some BOOK_IDENTIFIER)) eqn:E.
  - apply text_eqb_eq in E. exfalso. exact (H e (or_introl eq_refl) E).
  - apply IH. intros x Hx. apply H. now right.
Qed.

Lemma extract_books_none (to_decimal : codepoint -> option N)
    (fromstring : bytes -> option document) (body : bytes) (tree : document)
    (w : world) :
  fromstring body = Some tree ->
  (forall element, In element (iter tree (lit "URI")) ->
                   text_at tree element <> Some BOOK_IDENTIFIER) ->
  extract_books to_decimal fromstring body w
  = (Exit (ExitMessage no_books_message), w).
Proof.
  intros Hparse Hnone. unfold extract_books. rewrite Hparse.
  unfold dict_of_books. rewrite (no_book_elements tree Hnone). reflexivity.
Qed.

(** X23: when the search answer has no [URI] element at all whose text
    is the Book class, neither a type URI nor the identifier of an
    entity, the run exits with the "no books" message whatever else the
    answer lists; the requests of the run are the probes and the
    search, and no metadata document is asked for. *)
Theorem no_book_ends_run_without_fetch
    (fold_table : codepoint -> str) (to_decimal : codepoint -> option N)
    (fromstring : bytes -> option document) (loads : bytes -> exn + json)
    (show_container : json -> str) (net : nat -> str -> reply)
    (keyboard : list str) (search bookname prefix : str) (w1 : world)
    (status : Z) (body : bytes) (tree : document) :
  clean fold_table search = Ret bookname ->
  getAPIprefix net (World keyboard 0 []) = (Ret prefix, w1) ->
  net (sent w1) (prefix ++ bookname) = Response status body ->
  fromstring body = Some tree ->
  (forall element, In element (iter tree (lit "URI")) ->
                   text_at tree element <> Some BOOK_IDENTIFIER) ->
  exists probes,
    run fold_table to_decimal fromstring loads show_container net keyboard search
    = (Exit (ExitMessage no_books_message),
       List.map (Urlopen Probe) probes ++ [Urlopen Search (prefix ++ bookname)])
    /\ forall url,
         ~ In (Metadata, url)
              (requests (List.map (Urlopen Probe) probes
                         ++ [Urlopen Search (prefix ++ bookname)])).
Proof.
  intros Hclean Hprobe Hnet Hparse Hnone.
  destruct (probe_all_trace net prefixes _ Hprobe) as (probes & Htrace).
  simpl in Htrace. exists probes. split.
  - unfold run, query_DBpedia, bind at 1, lift. rewrite Hclean.
    unfold bind at 1. rewrite Hprobe.
    unfold except_url_errors, bind at 1, urlopen. rewrite Hnet.
    unfold bind at 1.
    rewrite (extract_books_none to_decimal fromstring body _ Hparse Hnone).
    simpl. now rewrite Htrace.
  - intros url Hin. unfold requests in Hin.
    apply in_flat_map in Hin. destruct Hin as (e & He & Hin).
    apply in_app_or in He. destruct He as [He|[<-|[]]].
    + apply in_map_iff in He. destruct He as (u & <- & _).
      destruct Hin as [Hin|[]]. discriminate.
    + destruct Hin as [Hin|[]]. discriminate.
Qed.

Lemma no_book_ends_run_without_fetch_witness :
  exists probes,
    run fold_nothing no_digits (parse_as no_book) (load_as two_authors)
        show_nothing healthy [] (lit " Dune ")
    = (Exit (ExitMessage no_books_message),
       List.map (Urlopen Probe) probes
       ++ [Urlopen Search (hd [] prefixes ++ lit "dune")])
    /\ forall url,
         ~ In (Metadata, url)
              (requests (List.map (Urlopen Probe) probes
                         ++ [Urlopen Search (hd [] prefixes ++ lit "dune")])).
Proof.
  apply (@no_book_ends_run_without_fetch fold_nothing no_digits
           (parse_as no_book) (load_as two_authors) show_nothing healthy []
           (lit " Dune ") (lit "dune") (hd [] prefixes)
           (World [] 1 [Urlopen Probe (hd [] prefixes ++ lit "Antwerp")])
           200%Z search_body no_book).
  - vm_compute. reflexivity.
  - vm_compute. reflexivity.
  - vm_compute. reflexivity.
  - reflexivity.
  - intros element Hin. vm_compute in Hin.
    repeat (destruct Hin as [<-|Hin]; [vm_compute; discriminate|]).
    destruct Hin.
Defined.

(** ** Fields that are absent *)

(** On a text that standard output can encode, the two ways of writing
    a line are one. *)
Lemma print_xml_print (text : str) :
  encodable text = true -> print text = print_xml text.
Proof. intro H. unfold print. now rewrite H. Qed.


Lemma display_results_run (show_container : json -> str) (md : metadata) :
  forall w,
    display_results show_container md w
    = (printing_ends (printed show_container md),
       World (stdin w) (sent w)
             (trace w ++ List.map Print (written (printed show_container md)))).
Proof.
  induction md as [|[key value] rest IH]; intro w.
  - cbn. rewrite app_nil_r. now destruct w.
  - cbn [display_results printed List.map fst snd written].
    unfold printing_ends. cbn [forallb]. unfold bind, print.
    fold (printed show_container rest).
    destruct (encodable (display_line show_container key value)).
    + unfold emit. rewrite IH. unfold printing_ends. cbn.
      now rewrite <- app_assoc.
    + unfold raise. cbn. rewrite app_nil_r. now destruct w.
Qed.

Lemma for_each_invariant {A S : Type} (P : S -> Prop)
    (body : A -> S -> result S) (l : list A) :
  (forall x s s', In x l -> body x s = Ret s' -> P s -> P s') ->
  forall s s', for_each l body s = Ret s' -> P s -> P s'.
Proof.
  induction l as [|x rest IH]; intros Hbody s s' H Hs.
  - simpl in H. now inversion H; subst.
  - simpl in H. destruct (body x s) as [s1| |] eqn:E; simpl in H;
      try discriminate.
    apply (IH (fun y t t' Hy => Hbody y t t' (or_intror Hy)) s1 s' H).
    exact (Hbody x s s1 (or_introl eq_refl) E Hs).
Qed.

Lemma for_values_invariant (P : answers -> Prop) (value : json)
    (resource : str) (body : json -> answers -> result answers) :
  (forall lst a a', body lst a = Ret a' -> P a -> P a') ->
  forall a a', for_values value resource body a = Ret a' -> P a -> P a'.
Proof.
  intros Hbody a a' H Ha. unfold for_values in H.
  destruct (getitem value resource) as [listed| |]; simpl in H;
    try discriminate.
  destruct (elements_of listed) as [objects| |]; simpl in H; try discriminate.
  apply (@for_each_invariant _ _ P body objects
           (fun x s s' _ => Hbody x s s') a a' H Ha).
Qed.

Lemma labelled_invariant (P : answers -> Prop)
    (set : json -> json -> answers -> answers) :
  (forall label uri a, P a -> P (set label uri a)) ->
  forall lst a a', labelled set lst a = Ret a' -> P a -> P a'.
Proof.
  intros Hset lst a a' H Ha. unfold labelled in H.
  destruct (getitem lst (lit "value")) as [uri| |]; simpl in H;
    try discriminate.
  destruct (short_label uri) as [label| |]; simpl in H; try discriminate.
  inversion H; subst. now apply Hset.
Qed.

Lemma raw_invariant (P : answers -> Prop) (set : json -> answers -> answers) :
  (forall v a, P a -> P (set v a)) ->
  forall lst a a', raw set lst a = Ret a' -> P a -> P a'.
Proof.
  intros Hset lst a a' H Ha. unfold raw in H.
  destruct (getitem lst (lit "value")) as [v| |]; simpl in H; try discriminate.
  inversion H; subst. now apply Hset.
Qed.

Lemma english_invariant (P : answers -> Prop) :
  (forall v a, P a -> P (set_abstract v a)) ->
  forall dic a a', english dic a = Ret a' -> P a -> P a'.
Proof.
  intros Hset dic a a' H Ha. unfold english in H.
  destruct (items dic) as [members| |]; simpl in H; try discriminate.
  revert H Ha. apply for_each_invariant.
  intros kv s s' _ Hbody Hs.
  destruct (getitem dic (fst kv)) as [x| |]; simpl in Hbody; try discriminate.
  destruct (equals_str x (lit "en")).
  - destruct (getitem dic (lit "value")) as [v| |]; simpl in Hbody;
      try discriminate.
    inversion Hbody; subst. now apply Hset.
  - now inversion Hbody; subst.
Qed.

Lemma field_ids_differ (f g : field) : f <> g -> field_id f <> field_id g.
Proof.
  intros Hfg H. destruct f, g; try congruence; vm_compute in H; discriminate.
Qed.

(** A predicate other than the field's leaves the field as it is. *)
Lemma on_resource_other (f : field) (value : json) (resource : str)
    (x y : json) (a a' : answers) :
  resource <> field_id f ->
  on_resource value resource a = Ret a' ->
  holds f x y a -> holds f x y a'.
Proof.
  intros Hne H. unfold on_resource in H.
  repeat match type of H with
         | (if str_eqb resource ?id then _ else _) = _ =>
             let E := fresh "E" in
             destruct (str_eqb resource id) eqn:E;
               [apply str_eqb_eq in E|]
         end;
    [ revert H; apply for_values_invariant, labelled_invariant
    | revert H; apply for_values_invariant, labelled_invariant
    | revert H; apply for_values_invariant, raw_invariant
    | revert H; apply for_values_invariant, raw_invariant
    | revert H; apply for_values_invariant, labelled_invariant
    | revert H; apply for_values_invariant, english_invariant
    | inversion H; subst; tauto ];
    unfold holds; destruct f; simpl; intros; try assumption;
      exfalso; apply Hne; assumption.
Qed.



Ltac find_line :=
  repeat (try (left; reflexivity); right).

(** ** One candidate per label *)

Lemma text_eqb_refl (a : text) : text_eqb a a = true.
Proof. now apply text_eqb_eq. Qed.

Lemma text_eqb_neq (a b : text) : text_eqb a b = false <-> a <> b.
Proof.
  split.
  - intros H E. apply text_eqb_eq in E. congruence.
  - intro H. destruct (text_eqb a b) eqn:E; [|reflexivity].
    apply text_eqb_eq in E. contradiction.
Qed.

Lemma dict_get_none (d : books) (k : text) :
  dict_get text_eqb d k = None <-> ~ In k (dict_keys d).
Proof.
  induction d as [|[k' v'] r IH]; simpl; [tauto|].
  destruct (text_eqb k k') eqn:E.
  - apply text_eqb_eq in E. subst. split; [discriminate|]. tauto.
  - apply text_eqb_neq in E. rewrite IH. split.
    + intros H [H'|H']; [congruence|contradiction].
    + tauto.
Qed.

Lemma dict_set_keys (d : books) (k v : text) :
  dict_keys (dict_set text_eqb d k v)
  = if in_dec text_eq_dec k (dict_keys d) then dict_keys d
    else dict_keys d ++ [k].
Proof.
  induction d as [|[k' v'] r IH]; simpl; [reflexivity|].
  destruct (text_eqb k k') eqn:E.
  - apply text_eqb_eq in E. subst.
    destruct (text_eq_dec k' k'); [|congruence]. reflexivity.
  - apply text_eqb_neq in E. simpl. fold (dict_keys r). rewrite IH.
    destruct (text_eq_dec k' k); [congruence|].
    destruct (in_dec text_eq_dec k (dict_keys r)); reflexivity.
Qed.

Lemma dict_get_set (d : books) (k v k' : text) :
  dict_get text_eqb (dict_set text_eqb d k v) k'
  = if text_eqb k' k then Some v else dict_get text_eqb d k'.
Proof.
  induction d as [|[k0 v0] r IH]; simpl; [reflexivity|].
  destruct (text_eqb k k0) eqn:E.
  - apply text_eqb_eq in E. subst. simpl.
    destruct (text_eqb k' k0); reflexivity.
  - simpl. rewrite IH. destruct (text_eqb k' k0) eqn:E0; [|reflexivity].
    apply text_eqb_eq in E0. subst.
    apply text_eqb_neq in E.
    replace (text_eqb k0 k) with false; [reflexivity|].
    symmetry. apply text_eqb_neq. congruence.
Qed.

Lemma collect_fill (doc : document) (elements : list position) :
  forall hits d,
    hits_of doc elements = Ret hits ->
    collect doc elements d = Ret (fill hits d).
Proof.
  induction elements as [|e rest IH]; intros hits d H; simpl in *.
  - now inversion H.
  - destruct (label_and_resource doc e) as [hit| |]; simpl in *;
      try discriminate.
    destruct (hits_of doc rest) as [hits'| |]; simpl in *; try discriminate.
    inversion H; subst. simpl. now apply IH.
Qed.

Lemma fill_keys_nodup (hits : list (text * text)) :
  forall d, NoDup (dict_keys d) -> NoDup (dict_keys (fill hits d)).
Proof.
  induction hits as [|[l u] rest IH]; intros d Hd; simpl; [exact Hd|].
  apply IH. rewrite dict_set_keys.
  destruct (in_dec text_eq_dec l (dict_keys d)) as [Hin|Hout]; [exact Hd|].
  apply NoDup_app; [exact Hd|constructor; [simpl; tauto|constructor]|].
  intros x Hx [<-|[]]. contradiction.
Qed.

Lemma fill_keys_in (hits : list (text * text)) :
  forall d label,
    In label (dict_keys (fill hits d))
    <-> In label (dict_keys d) \/ In label (List.map fst hits).
Proof.
  induction hits as [|[l u] rest IH]; intros d label; simpl; [tauto|].
  rewrite IH, dict_set_keys.
  destruct (in_dec text_eq_dec l (dict_keys d)) as [Hin|Hout].
  - split; [tauto|]. intros [H|[<-|H]]; tauto.
  - rewrite in_app_iff. simpl. tauto.
Qed.

Lemma fill_get (hits : list (text * text)) :
  forall d label,
    dict_get text_eqb (fill hits d) label
    = match last_scanned hits label with
      | Some u => Some u
      | None => dict_get text_eqb d label
      end.
Proof.
  unfold last_scanned.
  induction hits as [|[l u] rest IH]; intros d label; simpl; [reflexivity|].
  rewrite IH, dict_get_set.
  assert (Happ : forall (a b : books),
             dict_get text_eqb (a ++ b) label
             = match dict_get text_eqb a label with
               | Some x => Some x
               | None => dict_get text_eqb b label
               end).
  { induction a as [|[k v] a IHa]; intro b; simpl; [reflexivity|].
    destruct (text_eqb label k); [reflexivity|apply IHa]. }
  rewrite Happ. simpl.
  destruct (dict_get text_eqb (rev rest) label); [reflexivity|].
  destruct (text_eqb label l); reflexivity.
Qed.

(** ** The last value wins *)

Ltac decide_ids :=
  repeat match goal with
         | |- context [str_eqb ?x ?y] =>
             let b := eval vm_compute in (str_eqb x y) in
             change (str_eqb x y) with b
         end.

Lemma on_resource_own (f : field) (value : json) (a : answers) :
  on_resource value (field_id f) a
  = for_values value (field_id f) (field_body f) a.
Proof.
  destruct f; unfold on_resource, field_id, field_body; decide_ids;
    reflexivity.
Qed.

Lemma field_body_assigns (f : field) (lst : json) (a a' : answers) :
  f <> Abstract ->
  field_body f lst a = Ret a' ->
  exists v, getitem lst (lit "value") = Ret v /\ assigned f v a'.
Proof.
  intros Hf H.
  destruct f; try congruence; unfold field_body, labelled, raw in H;
    destruct (getitem lst (lit "value")) as [v| |]; simpl in H;
    try discriminate; exists v; (split; [reflexivity|]);
    try (destruct v; simpl in H; try discriminate);
    inversion H; subst; simpl; eauto.
Qed.

Lemma assigned_view (f : field) (v : json) (a a' : answers) :
  view f a' = view f a -> assigned f v a -> assigned f v a'.
Proof.
  unfold view. intros E H. inversion E as [[E1 E2]].
  destruct f; simpl in *; try rewrite E1; try rewrite E2; exact H.
Qed.

Lemma after_objects_view (f : field) (seen : list json) (a0 a a' : answers) :
  view f a' = view f a -> after_objects f seen a0 a -> after_objects f seen a0 a'.
Proof.
  unfold after_objects. intros E H. destruct (rev seen) as [|lst r].
  - congruence.
  - destruct H as (v & Hv & Ha). exists v. split; [exact Hv|].
    now apply (@assigned_view f v a a').
Qed.

Lemma for_each_body (f : field) (objects : list json) :
  f <> Abstract ->
  forall a a' seen a0,
    for_each objects (field_body f) a = Ret a' ->
    after_objects f seen a0 a ->
    after_objects f (seen ++ objects) a0 a'.
Proof.
  intro Hf. induction objects as [|lst rest IH]; intros a a' seen a0 H Ha.
  - simpl in H. inversion H; subst. now rewrite app_nil_r.
  - simpl in H. destruct (field_body f lst a) as [a1| |] eqn:E; simpl in H;
      try discriminate.
    replace (seen ++ lst :: rest) with ((seen ++ [lst]) ++ rest)
      by (now rewrite <- app_assoc).
    apply (IH a1 a' (seen ++ [lst]) a0 H).
    unfold after_objects. rewrite rev_app_distr. simpl.
    now apply (@field_body_assigns f lst a a1).
Qed.

Lemma on_resource_view (f : field) (value : json) (resource : str)
    (a a' : answers) :
  resource <> field_id f ->
  on_resource value resource a = Ret a' ->
  view f a' = view f a.
Proof.
  intros Hne H.
  destruct (@on_resource_other f value resource (field_answer f a)
              (field_uri f a) a a' Hne H (conj eq_refl eq_refl)) as [E1 E2].
  unfold view. now rewrite E1, E2.
Qed.

Lemma on_resource_objects (f : field) (value : json) (a a' : answers)
    (seen : list json) (a0 : answers) :
  f <> Abstract ->
  on_resource value (field_id f) a = Ret a' ->
  after_objects f seen a0 a ->
  after_objects f (seen ++ subject_objects value (field_id f)) a0 a'.
Proof.
  intros Hf H Ha. rewrite on_resource_own in H.
  unfold for_values in H. unfold subject_objects.
  destruct (getitem value (field_id f)) as [listed| |]; simpl in H;
    try discriminate.
  destruct (elements_of listed) as [objects| |]; simpl in H; try discriminate.
  now apply (@for_each_body f objects Hf a a' seen a0).
Qed.

(** Going through the members of one subject. *)
Lemma members_objects (f : field) (value : json) (seen : list json)
    (a0 : answers) (l : list (str * json)) :
  f <> Abstract ->
  let objects := subject_objects value (field_id f) in
  forall a a',
    for_each l (fun kv => on_resource value (fst kv)) a = Ret a' ->
    (after_objects f seen a0 a ->
     if existsb (fun kv => str_eqb (fst kv) (field_id f)) l
     then after_objects f (seen ++ objects) a0 a'
     else after_objects f seen a0 a')
    /\ (after_objects f (seen ++ objects) a0 a ->
        after_objects f (seen ++ objects) a0 a').
Proof.
  intros Hf objects. induction l as [|kv rest IH]; intros a a' H.
  - simpl in H. inversion H; subst. simpl. tauto.
  - simpl in H.
    destruct (on_resource value (fst kv) a) as [a1| |] eqn:E; simpl in H;
      try discriminate.
    destruct (IH a1 a' H) as [IH1 IH2]. simpl.
    destruct (str_eqb (fst kv) (field_id f)) eqn:Ek.
    + apply str_eqb_eq in Ek. rewrite Ek in E. simpl.
      assert (Hown : forall seen',
                 after_objects f seen' a0 a ->
                 after_objects f (seen' ++ objects) a0 a1).
      { intros seen' Hs. now apply (@on_resource_objects f value a a1). }
      split.
      * intro Ha. apply IH2. now apply Hown.
      * intro Ha. apply IH2.
        destruct objects as [|o os] eqn:Eo.
        -- rewrite app_nil_r in *. specialize (Hown _ Ha).
           now rewrite app_nil_r in Hown.
        -- specialize (Hown _ Ha).
           unfold after_objects in *.
           rewrite !rev_app_distr in *.
           destruct (rev (o :: os)) as [|x xs] eqn:Er.
           ++ apply (f_equal (@List.length json)) in Er.
              rewrite length_rev in Er. discriminate.
           ++ simpl in *. exact Hown.
    + apply str_eqb_neq in Ek. simpl.
      pose proof (@on_resource_view f value (fst kv) a a1 Ek E) as Hv.
      split.
      * intro Ha. apply IH1. now apply (@after_objects_view f seen a0 a a1).
      * intro Ha. apply IH2.
        now apply (@after_objects_view f (seen ++ objects) a0 a a1).
Qed.

Lemma dict_get_absent (members : list (str * json)) (pid : str) :
  existsb (fun kv => str_eqb (fst kv) pid) members = false ->
  dict_get str_eqb members pid = None.
Proof.
  induction members as [|[k v] r IH]; simpl; [reflexivity|].
  intro H. apply orb_false_iff in H. destruct H as [Hk Hr].
  destruct (str_eqb pid k) eqn:E.
  - apply str_eqb_eq in E. subst. rewrite str_eqb_refl in Hk. discriminate.
  - now apply IH.
Qed.

Lemma on_subject_objects (f : field) (value : json) (seen : list json)
    (a0 a a' : answers) :
  f <> Abstract ->
  on_subject value a = Ret a' ->
  after_objects f seen a0 a ->
  after_objects f (seen ++ subject_objects value (field_id f)) a0 a'.
Proof.
  intros Hf H Ha. unfold on_subject in H.
  destruct value as [| | | | |l|members]; simpl in H; try discriminate.
  destruct (@members_objects f (JDict members) seen a0 members Hf a a' H)
    as [H1 _].
  specialize (H1 Ha).
  destruct (existsb (fun kv => str_eqb (fst kv) (field_id f)) members) eqn:E;
    [exact H1|].
  unfold subject_objects, getitem.
  rewrite (@dict_get_absent members (field_id f) E). now rewrite app_nil_r.
Qed.

Lemma subjects_objects (f : field) (subjects : list (str * json)) :
  f <> Abstract ->
  forall seen a0 a a',
    for_each subjects (fun kv => on_subject (snd kv)) a = Ret a' ->
    after_objects f seen a0 a ->
    after_objects f
      (seen ++ flat_map (fun kv => subject_objects (snd kv) (field_id f)) subjects)
      a0 a'.
Proof.
  intro Hf. induction subjects as [|kv rest IH]; intros seen a0 a a' H Ha.
  - simpl in H. inversion H; subst. simpl. now rewrite app_nil_r.
  - simpl in H. destruct (on_subject (snd kv) a) as [a1| |] eqn:E; simpl in H;
      try discriminate.
    simpl. rewrite app_assoc. apply (IH _ a0 a1 a' H).
    now apply (@on_subject_objects f (snd kv) seen a0 a a1).
Qed.

Lemma scan_document_objects (f : field) (json_dict : json) (a : answers) :
  f <> Abstract ->
  scan_document json_dict = Ret a ->
  after_objects f (objects_for json_dict (field_id f)) initial_answers a.
Proof.
  intros Hf H. unfold scan_document in H.
  destruct json_dict as [| | | | |l|subjects]; simpl in H; try discriminate.
  apply (@subjects_objects f subjects Hf [] initial_answers initial_answers a H).
  reflexivity.
Qed.

(** C5: when the value objects a document lists under the predicate of
    the author, the publisher, the publication date, the page count or
    the genre end with [lst], the extracted value comes from [lst]: the
    date and the page count are its [value] as it is, the raw identifier
    of the author and of the publisher is its [value], and the author,
    the publisher and the genre shown are the final path segment of that
    [value] with underscores turned into spaces. *)
Theorem last_value_object_wins
    (json_dict : json) (md : metadata) (f : field)
    (earlier : list json) (lst : json) :
  f <> Abstract ->
  extract_fields json_dict = Ret md ->
  objects_for json_dict (field_id f) = earlier ++ [lst] ->
  exists v,
    getitem lst (lit "value") = Ret v
    /\ match f with
       | PublicationDate | Pages =>
           dict_get str_eqb md (field_key f) = Some v
       | Author | Publisher =>
           (exists key, resource_key f = Some key
                        /\ dict_get str_eqb md key = Some v)
           /\ exists s, v = JStr s
                        /\ dict_get str_eqb md (field_key f)
                           = Some (JStr (segment_with_spaces s))
       | Genre =>
           exists s, v = JStr s
                     /\ dict_get str_eqb md (field_key f)
                        = Some (JStr (segment_with_spaces s))
       | Abstract => True
       end.
Proof.
  intros Hf Hext Hobjs. unfold extract_fields in Hext.
  destruct (scan_document json_dict) as [a| |] eqn:Hscan; simpl in Hext;
    try discriminate.
  inversion Hext; subst md; clear Hext.
  pose proof (@scan_document_objects f json_dict a Hf Hscan) as Hafter.
  unfold after_objects in Hafter. rewrite Hobjs, rev_app_distr in Hafter.
  simpl in Hafter. destruct Hafter as (v & Hv & Ha).
  exists v. split; [exact Hv|].
  destruct f, a; simpl in Ha; try congruence.
  - destruct Ha as (Hu & s & Hs & Hl). subst. split.
    + eexists. split; reflexivity.
    + exists s. split; reflexivity.
  - destruct Ha as (Hu & s & Hs & Hl). subst. split.
    + eexists. split; reflexivity.
    + exists s. split; reflexivity.
  - subst. reflexivity.
  - subst. reflexivity.
  - destruct Ha as (s & Hs & Hl). subst. exists s. split; reflexivity.
Qed.

Lemma last_value_object_wins_witness :
  Author <> Abstract
  /\ exists md,
       extract_fields two_authors = Ret md
       /\ dict_get str_eqb md (lit "AUTHOR_RESOURCE")
          = Some (JStr (lit "http://dbpedia.org/resource/Brian_Herbert"))
       /\ dict_get str_eqb md (lit "AUTHOR")
          = Some (JStr (lit "Brian Herbert")).
Proof.
  split; [discriminate|].
  eexists. split; [vm_compute; reflexivity|].
  match goal with
  | |- dict_get _ ?md _ = _ /\ _ =>
      destruct (@last_value_object_wins two_authors md Author
                  [uri_object "http://dbpedia.org/resource/Frank_Herbert"]
                  (uri_object "http://dbpedia.org/resource/Brian_Herbert"))
        as (v & Hv & (key & Hkey & Hres) & s & Hs & Hlabel)
  end.
  - discriminate.
  - vm_compute. reflexivity.
  - vm_compute. reflexivity.
  - vm_compute in Hv. injection Hv as <-.
    injection Hkey as <-. injection Hs as <-.
    split; [exact Hres|]. exact Hlabel.
Defined.

(** ** Decoding what the sanitizer encodes *)

Ltac Zify.zify_post_hook ::= Z.to_euclidean_division_equations.

Ltac split_tests :=
  repeat match goal with
         | |- context [(?a <=? ?b)%N] => destruct (N.leb_spec a b)
         | |- context [(?a <? ?b)%N] => destruct (N.ltb_spec a b)
         | |- context [(?a =? ?b)%N] => destruct (N.eqb_spec a b)
         end;
  cbn [andb orb negb]; try lia; try reflexivity.

Lemma hex_value_digit (x : N) :
  (x < 16)%N -> hex_value (hex_digit x) = Some x.
Proof.
  intro H. unfold hex_digit.
  destruct (N.ltb_spec x 10); unfold hex_value; split_tests; f_equal; lia.
Qed.

Lemma safe_byte_plain (b : N) :
  is_safe_byte b = true -> (b <> 37 /\ b < 128)%N.
Proof.
  unfold is_safe_byte. intro H. split.
  - intros ->. discriminate.
  - revert H. split_tests; discriminate.
Qed.

Lemma percent_decode_quote_byte (b : N) (rest : str) :
  (b < 256)%N ->
  percent_decode (quote_byte b ++ rest) = Byte b :: percent_decode rest.
Proof.
  intro Hb. unfold quote_byte. destruct (is_safe_byte b) eqn:Hs.
  - destruct (safe_byte_plain b Hs) as [H37 H128]. simpl.
    destruct (N.eqb_spec b 37); [contradiction|].
    destruct (N.ltb_spec b 128); [reflexivity|lia].
  - cbn [app percent_decode N.eqb Pos.eqb].
    rewrite (@hex_value_digit (b / 16)) by lia.
    rewrite (@hex_value_digit (b mod 16)) by lia.
    do 2 f_equal. lia.
Qed.

Lemma percent_decode_quoted (bs : list N) :
  Forall (fun b => (b < 256)%N) bs ->
  percent_decode (flat_map quote_byte bs) = List.map Byte bs.
Proof.
  induction 1 as [|b rest Hb _ IH]; [reflexivity|].
  simpl. rewrite percent_decode_quote_byte by exact Hb. now rewrite IH.
Qed.

Ltac decide_test :=
  match goal with
  | |- context [(?a <=? ?b)%N] =>
      first [ replace (a <=? b)%N with true
                by (symmetry; apply N.leb_le; lia)
            | replace (a <=? b)%N with false
                by (symmetry; apply N.leb_gt; lia) ]
  | |- context [(?a <? ?b)%N] =>
      first [ replace (a <? b)%N with true
                by (symmetry; apply N.ltb_lt; lia)
            | replace (a <? b)%N with false
                by (symmetry; apply N.ltb_ge; lia) ]
  | |- context [(?a =? ?b)%N] =>
      first [ replace (a =? b)%N with true
                by (symmetry; apply N.eqb_eq; lia)
            | replace (a =? b)%N with false
                by (symmetry; apply N.eqb_neq; lia) ]
  end.

Ltac decide_tests := repeat (decide_test; cbn [andb orb negb]).

Lemma utf8_decode_1 (b0 : N) (rest : list item) :
  (b0 < 128)%N ->
  utf8_decode (Byte b0 :: rest) = b0 :: utf8_decode rest.
Proof.
  intro H. cbn [utf8_decode]. decide_tests. reflexivity.
Qed.

Lemma utf8_decode_2 (b0 b1 : N) (rest : list item) :
  (194 <= b0 <= 223)%N -> (128 <= b1 <= 191)%N ->
  utf8_decode (Byte b0 :: Byte b1 :: rest)
  = ((b0 - 192) * 64 + (b1 - 128))%N :: utf8_decode rest.
Proof.
  intros H0 H1. cbn [utf8_decode]. unfold utf8_lead, byte_in.
  decide_tests. reflexivity.
Qed.

Lemma utf8_decode_3 (b0 b1 b2 : N) (rest : list item) :
  (b0 = 224 /\ 160 <= b1 <= 191
   \/ b0 = 237 /\ 128 <= b1 <= 159
   \/ (225 <= b0 <= 236 \/ 238 <= b0 <= 239) /\ 128 <= b1 <= 191)%N ->
  (128 <= b2 <= 191)%N ->
  utf8_decode (Byte b0 :: Byte b1 :: Byte b2 :: rest)
  = (((b0 - 224) * 64 + (b1 - 128)) * 64 + (b2 - 128))%N :: utf8_decode rest.
Proof.
  intros H0 H2. cbn [utf8_decode]. unfold utf8_lead, byte_in.
  destruct H0 as [[-> H1]|[[-> H1]|[[H0|H0] H1]]];
    decide_tests; reflexivity.
Qed.

Lemma utf8_decode_4 (b0 b1 b2 b3 : N) (rest : list item) :
  (b0 = 240 /\ 144 <= b1 <= 191
   \/ b0 = 244 /\ 128 <= b1 <= 143
   \/ 241 <= b0 <= 243 /\ 128 <= b1 <= 191)%N ->
  (128 <= b2 <= 191)%N -> (128 <= b3 <= 191)%N ->
  utf8_decode (Byte b0 :: Byte b1 :: Byte b2 :: Byte b3 :: rest)
  = ((((b0 - 240) * 64 + (b1 - 128)) * 64 + (b2 - 128)) * 64 + (b3 - 128))%N
      :: utf8_decode rest.
Proof.
  intros H0 H2 H3. cbn [utf8_decode]. unfold utf8_lead, byte_in.
  destruct H0 as [[-> H1]|[[-> H1]|[H0 H1]]];
    decide_tests; reflexivity.
Qed.

Lemma is_scalar_range (c : codepoint) :
  is_scalar c = true -> (c < 55296 \/ 57343 < c < 1114112)%N.
Proof.
  unfold is_scalar, is_surrogate. split_tests; discriminate.
Qed.

(** One character: its bytes decode to it, whatever follows. *)
Lemma utf8_decode_encoded (c : codepoint) :
  is_scalar c = true ->
  exists bs,
    utf8_encode_char c = Some bs
    /\ Forall (fun b => (b < 256)%N) bs
    /\ forall rest,
         utf8_decode (List.map Byte bs ++ rest) = c :: utf8_decode rest.
Proof.
  intro Hs. pose proof (is_scalar_range c Hs) as Hr.
  unfold utf8_encode_char. rewrite Hs. cbn [negb].
  destruct (N.ltb_spec c 128); [|destruct (N.ltb_spec c 2048);
                                 [|destruct (N.ltb_spec c 65536)]];
    eexists; (split; [reflexivity|]); split.
  - repeat constructor. lia.
  - intro rest. cbn [List.map app]. now apply utf8_decode_1.
  - repeat constructor; lia.
  - intro rest. cbn [List.map app]. rewrite utf8_decode_2 by lia.
    f_equal. lia.
  - repeat constructor; lia.
  - intro rest. cbn [List.map app]. rewrite utf8_decode_3 by lia.
    f_equal. lia.
  - repeat constructor; lia.
  - intro rest. cbn [List.map app]. rewrite utf8_decode_4 by lia.
    f_equal. lia.
Qed.

Lemma utf8_decode_encoded_all (t : str) :
  forallb is_scalar t = true ->
  exists bs,
    utf8_encode t = Some bs
    /\ Forall (fun b => (b < 256)%N) bs
    /\ forall rest,
         utf8_decode (List.map Byte bs ++ rest) = t ++ utf8_decode rest.
Proof.
  induction t as [|c r IH]; intro H.
  - exists []. repeat split. constructor.
  - simpl in H. apply andb_true_iff in H. destruct H as [Hc Hr].
    destruct (utf8_decode_encoded c Hc) as (bs & Hbs & Hlt & Hdec).
    destruct (IH Hr) as (bs' & Hbs' & Hlt' & Hdec').
    exists (bs ++ bs'). simpl. rewrite Hbs, Hbs'.
    split; [reflexivity|]. split; [now apply Forall_app|].
    intro rest. rewrite map_app, <- app_assoc, Hdec, Hdec'. reflexivity.
Qed.

(** Decoding undoes encoding on every string that can be encoded. *)
Lemma unquote_quote (t : str) :
  forallb is_scalar t = true ->
  exists q, quote t = Some q /\ unquote q = t.
Proof.
  intro H. destruct (utf8_decode_encoded_all t H) as (bs & Hbs & Hlt & Hdec).
  exists (flat_map quote_byte bs). unfold quote, unquote. rewrite Hbs.
  split; [reflexivity|].
  rewrite (percent_decode_quoted Hlt).
  specialize (Hdec []). rewrite !app_nil_r in Hdec. exact Hdec.
Qed.

Lemma lstrip_incl (s : str) (c : codepoint) : In c (lstrip s) -> In c s.
Proof.
  induction s as [|x r IH]; simpl; [tauto|].
  destruct (is_space x); [tauto|]. simpl. tauto.
Qed.

Lemma strip_incl (s : str) (c : codepoint) : In c (strip s) -> In c s.
Proof.
  unfold strip, rstrip. intro H.
  apply in_rev, lstrip_incl in H. apply in_rev in H.
  now apply lstrip_incl.
Qed.

Lemma strip_scalar (s : str) :
  forallb is_scalar s = true -> forallb is_scalar (strip s) = true.
Proof.
  rewrite !forallb_forall. intros H c Hc. apply H. now apply strip_incl.
Qed.

Lemma casefold_scalar (fold_table : codepoint -> str) (s : str) :
  (forall c, is_scalar c = true -> forallb is_scalar (fold_table c) = true) ->
  forallb is_scalar s = true ->
  forallb is_scalar (casefold fold_table s) = true.
Proof.
  intros Htable H. rewrite forallb_forall in *. intros c Hc.
  unfold casefold in Hc. apply in_flat_map in Hc.
  destruct Hc as (c0 & Hc0 & Hc). specialize (H c0 Hc0).
  pose proof (is_scalar_range c0 H) as Hr.
  unfold casefold_char in Hc.
  destruct ((65 <=? c0) && (c0 <=? 90))%N eqn:Hupper.
  - destruct Hc as [<-|[]]. apply andb_true_iff in Hupper.
    destruct Hupper as [H1 H2]. apply N.leb_le in H1, H2.
    unfold is_scalar, is_surrogate. decide_tests. reflexivity.
  - destruct (c0 <? 128)%N.
    + destruct Hc as [<-|[]]. exact H.
    + specialize (Htable c0 H). rewrite forallb_forall in Htable.
      now apply Htable.
Qed.

Lemma clean_not_blank (fold_table : codepoint -> str) (s : str) :
  s <> [] -> isspace s = false ->
  clean fold_table s
  = match quote (casefold fold_table (strip s)) with
    | Some q => Ret q
    | None => Raise UnicodeEncodeError
    end.
Proof.
  intros Hs Hw. unfold clean. rewrite Hw.
  destruct s as [|c r]; [congruence|]. reflexivity.
Qed.

(** C9, as the code has it: for a search string that is not blank and
    has no lone surrogate (so that UTF-8 can encode it), the sanitizer
    returns, and URL-decoding what it returns gives the trimmed,
    case-folded string back; so does decoding the encoding of
    [strip (casefold s)].  The case folding table is assumed to map
    characters UTF-8 can encode to such characters, as Unicode's does. *)
Theorem sanitizer_output_decodes (fold_table : codepoint -> str) (s : str) :
  (forall c, is_scalar c = true -> forallb is_scalar (fold_table c) = true) ->
  forallb is_scalar s = true ->
  s <> [] -> isspace s = false ->
  (exists q, clean fold_table s = Ret q
             /\ unquote q = casefold fold_table (strip s))
  /\ (exists q, quote (strip (casefold fold_table s)) = Some q
                /\ unquote q = strip (casefold fold_table s)).
Proof.
  intros Htable Hscalar Hs Hw. split.
  - rewrite (clean_not_blank fold_table Hs Hw).
    destruct (@unquote_quote (casefold fold_table (strip s)))
      as (q & Hq & Hdec).
    { apply casefold_scalar; [exact Htable|]. now apply strip_scalar. }
    exists q. now rewrite Hq.
  - apply unquote_quote. apply strip_scalar. now apply casefold_scalar.
Qed.

Lemma sanitizer_output_decodes_witness :
  exists q,
    clean fold_nothing ([32; 68; 252; 110; 101; 32; 8364; 128512; 9]%N) = Ret q
    /\ unquote q = [100; 252; 110; 101; 32; 8364; 128512]%N.
Proof.
  destruct (@sanitizer_output_decodes fold_nothing
              ([32; 68; 252; 110; 101; 32; 8364; 128512; 9]%N))
    as [(q & Hq & Hdec) _].
  - intros c Hc. simpl. now rewrite Hc.
  - vm_compute. reflexivity.
  - discriminate.
  - vm_compute. reflexivity.
  - exists q. split; [exact Hq|]. rewrite Hdec. vm_compute. reflexivity.
Defined.

(** C9 as stated fails: a string made of the lone surrogate U+DC80 (what
    Python makes of an undecodable byte on the command line) is neither
    empty nor white, and the sanitizer has no output for it; the
    encoding step raises UnicodeEncodeError. *)
Lemma lone_surrogate_is_not_encoded :
  [56448%N] <> []
  /\ isspace [56448%N] = false
  /\ clean fold_nothing [56448%N] = Raise UnicodeEncodeError.
Proof. repeat split; try discriminate; vm_compute; reflexivity. Qed.

(** ** Supplements *)

(** X22: an exception of the filter that is neither HTTPError nor
    URLError, such as the ValueError or IndexError of a bad choice, is
    caught nowhere: it ends the run, with nothing printed after what
    the filter printed and no metadata requested. *)
Lemma filter_exception_ends_run
    (fold_table : codepoint -> str) (to_decimal : codepoint -> option N)
    (fromstring : bytes -> option document) (loads : bytes -> exn + json)
    (show_container : json -> str) (net : nat -> str -> reply)
    (search bookname prefix : str) (status : Z) (body : bytes) (e : exn)
    (w w1 w3 : world) :
  clean fold_table search = Ret bookname ->
  getAPIprefix net w = (Ret prefix, w1) ->
  net (sent w1) (prefix ++ bookname) = Response status body ->
  extract_books to_decimal fromstring body
    (World (stdin w1) (S (sent w1))
           (trace w1 ++ [Urlopen Search (prefix ++ bookname)]))
  = (Raise e, w3) ->
  is_url_error e = false ->
  query_DBpedia fold_table to_decimal fromstring loads show_container net
                search w
  = (Raise e, w3).
Proof.
  intros Hclean Hprobe Hnet Hfilter He.
  unfold query_DBpedia, bind at 1, lift. rewrite Hclean.
  unfold bind at 1. rewrite Hprobe.
  unfold except_url_errors, bind at 1, urlopen. rewrite Hnet.
  unfold bind at 1. cbv beta iota. simpl snd. rewrite Hfilter.
  now rewrite He.
Qed.

Lemma filter_exception_ends_run_witness :
  run fold_nothing no_digits (parse_as two_books) (load_as two_authors)
      show_nothing healthy [lit "x"] (lit "Dune")
  = (Raise ValueError,
     [Urlopen Probe (probe_url (hd [] prefixes));
      Urlopen Search (hd [] prefixes ++ lit "dune");
      Print multiple_titles_line;
      Print (lit "- 0 : Dune (novel)");
      Print (lit "- 1 : Dune Messiah");
      Prompt choice_prompt]).
Proof.
  unfold run.
  rewrite (@filter_exception_ends_run fold_nothing no_digits
             (parse_as two_books) (load_as two_authors) show_nothing healthy
             (lit "Dune") (lit "dune") (hd [] prefixes) 200 search_body
             ValueError
             (World [lit "x"] 0 [])
             (World [lit "x"] 1 [Urlopen Probe (probe_url (hd [] prefixes))])
             (World [] 2
                    [Urlopen Probe (probe_url (hd [] prefixes));
                     Urlopen Search (hd [] prefixes ++ lit "dune");
                     Print multiple_titles_line;
                     Print (lit "- 0 : Dune (novel)");
                     Print (lit "- 1 : Dune Messiah");
                     Prompt choice_prompt])).
  - reflexivity.
  - vm_compute. reflexivity.
  - vm_compute. reflexivity.
  - vm_compute. reflexivity.
  - vm_compute. reflexivity.
  - reflexivity.
Defined.

(** Trimming and case folding commute when folding keeps white space as
    it is and gives other characters a folding that neither starts nor
    ends with white space, as Unicode's does: the order in which the
    sanitizer applies them does not show. *)
Section FoldAndStrip.

Variable g : codepoint -> str.

Hypothesis white_kept : forall c, is_space c = true -> g c = [c].

Lemma lstrip_flat_map (s : str) :
  (forall c, is_space c = false ->
             exists x r, g c = x :: r /\ is_space x = false) ->
  lstrip (flat_map g s) = flat_map g (lstrip s).
Proof.
  intro Hfirst. induction s as [|c r IH]; [reflexivity|].
  cbn [lstrip flat_map]. destruct (is_space c) eqn:E.
  - rewrite (white_kept c E). cbn [app lstrip]. now rewrite E.
  - destruct (Hfirst c E) as (x & tl & Hg & Hx). cbn [flat_map].
    rewrite Hg. cbn [app lstrip]. now rewrite Hx.
Qed.

End FoldAndStrip.

Lemma rev_flat_map (g : codepoint -> str) (s : str) :
  rev (flat_map g s) = flat_map (fun c => rev (g c)) (rev s).
Proof.
  induction s as [|c r IH]; [reflexivity|].
  simpl. rewrite rev_app_distr, IH, flat_map_app. simpl.
  now rewrite app_nil_r.
Qed.

Lemma strip_flat_map (g : codepoint -> str) (s : str) :
  (forall c, is_space c = true -> g c = [c]) ->
  (forall c, is_space c = false ->
             exists x r, g c = x :: r /\ is_space x = false) ->
  (forall c, is_space c = false ->
             exists x r, rev (g c) = x :: r /\ is_space x = false) ->
  strip (flat_map g s) = flat_map g (strip s).
Proof.
  intros Hwhite Hfirst Hlast. unfold strip, rstrip.
  rewrite (@lstrip_flat_map g Hwhite s Hfirst).
  rewrite rev_flat_map.
  assert (Hwhite' : forall c, is_space c = true -> rev (g c) = [c])
    by (intros c Hc; now rewrite (Hwhite c Hc)).
  rewrite (@lstrip_flat_map (fun c => rev (g c)) Hwhite'
             (rev (lstrip s)) Hlast).
  rewrite rev_flat_map.
  apply flat_map_ext. intro c. apply rev_involutive.
Qed.

Lemma strip_casefold (fold_table : codepoint -> str) (s : str) :
  (forall c, (128 <= c)%N -> is_space c = true -> fold_table c = [c]) ->
  (forall c, (128 <= c)%N -> is_space c = false ->
             exists x r, fold_table c = x :: r /\ is_space x = false) ->
  (forall c, (128 <= c)%N -> is_space c = false ->
             exists x r, rev (fold_table c) = x :: r /\ is_space x = false) ->
  strip (casefold fold_table s) = casefold fold_table (strip s).
Proof.
  intros Hwhite Hfirst Hlast. unfold casefold. apply strip_flat_map.
  - intros c Hc. unfold casefold_char.
    destruct ((65 <=? c) && (c <=? 90))%N eqn:Hupper.
    + apply andb_true_iff in Hupper. destruct Hupper as [H1 H2].
      apply N.leb_le in H1, H2. revert Hc. unfold is_space.
      decide_tests. discriminate.
    + destruct (N.ltb_spec c 128); [reflexivity|]. now apply Hwhite.
  - intros c Hc. unfold casefold_char.
    destruct ((65 <=? c) && (c <=? 90))%N eqn:Hupper.
    + apply andb_true_iff in Hupper. destruct Hupper as [H1 H2].
      apply N.leb_le in H1, H2. exists (c + 32)%N, []. split; [reflexivity|].
      unfold is_space. decide_tests. reflexivity.
    + destruct (N.ltb_spec c 128); [now exists c, []|]. now apply Hfirst.
  - intros c Hc. unfold casefold_char.
    destruct ((65 <=? c) && (c <=? 90))%N eqn:Hupper.
    + apply andb_true_iff in Hupper. destruct Hupper as [H1 H2].
      apply N.leb_le in H1, H2. exists (c + 32)%N, []. split; [reflexivity|].
      unfold is_space. decide_tests. reflexivity.
    + destruct (N.ltb_spec c 128); [now exists c, []|]. now apply Hlast.
Qed.

(** What [replace] does when the old text occurs once: the part before
    and the part after stay as they are.  For a resource identifier
    this is the transformation of the path segment alone; it is what
    the script does exactly when the name of the entity holds no
    [resource] of its own. *)
Lemma replace_from_skip (old new s : str) :
  forall k, replace_from old new k s = replace_from old new 0 (skipn k s).
Proof.
  induction s as [|c r IH]; intro k.
  - now destruct k.
  - destruct k as [|k]; [reflexivity|]. cbn [replace_from skipn]. apply IH.
Qed.

Lemma is_prefix_app (p rest : str) : is_prefix p (p ++ rest) = true.
Proof.
  induction p as [|c p IH]; [reflexivity|].
  cbn [app is_prefix]. now rewrite N.eqb_refl, IH.
Qed.

Lemma replace_from_absent (old new s : str) :
  (forall i, is_prefix old (skipn i s) = false) ->
  replace_from old new 0 s = s.
Proof.
  induction s as [|c r IH]; intro H; [reflexivity|].
  cbn [replace_from]. pose proof (H 0%nat) as H0. cbn [skipn] in H0.
  rewrite H0. f_equal. apply IH. intro i. exact (H (S i)).
Qed.

Lemma replace_from_match (old new rest : str) :
  old <> [] ->
  replace_from old new 0 (old ++ rest) = new ++ replace_from old new 0 rest.
Proof.
  intro Hold. destruct old as [|o os]; [congruence|].
  pose proof (is_prefix_app (o :: os) rest) as Hp.
  cbn [app] in *. cbn [replace_from]. rewrite Hp. f_equal.
  rewrite replace_from_skip.
  replace (List.length (o :: os) - 1)%nat with (List.length os)
    by (cbn [List.length]; lia).
  now rewrite skipn_app, skipn_all, Nat.sub_diag.
Qed.

Lemma replace_from_once (old new before_ after_ : str) :
  old <> [] ->
  (forall i, (i < List.length before_)%nat ->
             is_prefix old (skipn i (before_ ++ old ++ after_)) = false) ->
  (forall i, is_prefix old (skipn i after_) = false) ->
  replace_from old new 0 (before_ ++ old ++ after_)
  = before_ ++ new ++ after_.
Proof.
  intros Hold Hbefore Hafter.
  induction before_ as [|c pre IH].
  - cbn [app]. rewrite (@replace_from_match old new after_ Hold).
    now rewrite (@replace_from_absent old new after_ Hafter).
  - cbn [app replace_from].
    pose proof (Hbefore 0%nat) as H0. cbn [skipn app List.length] in H0.
    rewrite H0 by lia. f_equal. apply IH.
    intros i Hi. apply (Hbefore (S i)). cbn [List.length]. lia.
Qed.

(** X20: for an identifier that holds [resource] exactly once, the
    address is the identifier with that one occurrence turned into
    [data], followed by [.json]. *)
Lemma json_address_once (before_ name : str) :
  (forall i, (i < List.length before_)%nat ->
             is_prefix (lit "resource")
                       (skipn i (before_ ++ lit "resource" ++ name)) = false) ->
  (forall i, is_prefix (lit "resource") (skipn i name) = false) ->
  json_address (Some (before_ ++ lit "resource" ++ name))
  = Ret ((before_ ++ lit "data" ++ name) ++ lit ".json").
Proof.
  intros Hbefore Hname. unfold json_address, call, rbind, replace.
  change (lit "resource") with (114 :: List.tl (lit "resource"))%N at 1.
  cbv beta iota.
  change (114 :: List.tl (lit "resource"))%N with (lit "resource").
  rewrite (@replace_from_once (lit "resource") (lit "data") before_ name);
    [reflexivity|discriminate|exact Hbefore|exact Hname].
Qed.

Lemma json_address_once_witness :
  json_address (Some (lit "http://dbpedia.org/resource/Dune_(novel)"))
  = Ret (lit "http://dbpedia.org/data/Dune_(novel).json").
Proof.
  apply (@json_address_once (lit "http://dbpedia.org/") (lit "/Dune_(novel)")).
  - intros i Hi. cbn in Hi.
    do 19 (destruct i as [|i]; [reflexivity|]). lia.
  - intro i. do 14 (destruct i as [|i]; [reflexivity|]). reflexivity.
Defined.

(** Absence is no error: on a document of subjects that carry none of
    the six predicates the extraction returns, with every field
    "not found". *)
Lemma on_resource_untracked (value : json) (resource : str) (a : answers) :
  (forall f, resource <> field_id f) ->
  on_resource value resource a = Ret a.
Proof.
  intro H. unfold on_resource.
  replace (str_eqb resource AUTHOR_ID) with false
    by (symmetry; apply str_eqb_neq, (H Author)).
  replace (str_eqb resource PUBLISHER_ID) with false
    by (symmetry; apply str_eqb_neq, (H Publisher)).
  replace (str_eqb resource PUBLICATIONDATE_ID) with false
    by (symmetry; apply str_eqb_neq, (H PublicationDate)).
  replace (str_eqb resource PAGES_ID) with false
    by (symmetry; apply str_eqb_neq, (H Pages)).
  replace (str_eqb resource GENRE_ID) with false
    by (symmetry; apply str_eqb_neq, (H Genre)).
  replace (str_eqb resource ABSTRACT_ID) with false
    by (symmetry; apply str_eqb_neq, (H Abstract)).
  reflexivity.
Qed.

Lemma for_each_unchanged {A S : Type} (body : A -> S -> result S)
    (l : list A) (s : S) :
  (forall x, In x l -> body x s = Ret s) ->
  for_each l body s = Ret s.
Proof.
  induction l as [|x rest IH]; intro H; [reflexivity|].
  simpl. rewrite (H x (or_introl eq_refl)). simpl.
  apply IH. intros y Hy. apply H. now right.
Qed.

(** X21: a document whose subjects are all objects and which mentions
    none of the six predicates is extracted without an error, and
    every one of the eight entries is [not found]. *)
Lemma nothing_tracked_nothing_found (json_dict : json) :
  subjects_are_dicts json_dict = true ->
  (forall f, mentions json_dict (field_id f) = false) ->
  extract_fields json_dict = Ret (answers_dict initial_answers).
Proof.
  intros Hshape Habs. unfold extract_fields, scan_document.
  destruct json_dict as [| | | | |l|subjects]; simpl in Hshape;
    try discriminate.
  cbn [items rbind].
  rewrite for_each_unchanged; [reflexivity|].
  intros kv Hkv. rewrite forallb_forall in Hshape.
  specialize (Hshape kv Hkv).
  destruct (snd kv) as [| | | | |l|members] eqn:Ekv; try discriminate.
  unfold on_subject. cbn [items rbind].
  apply for_each_unchanged. intros m Hm.
  apply on_resource_untracked. intros f E.
  specialize (Habs f). cbn [mentions] in Habs.
  assert (existsb (fun kv => subject_mentions (snd kv) (field_id f)) subjects
          = true); [|congruence].
  apply existsb_exists. exists kv. split; [exact Hkv|].
  rewrite Ekv. cbn [subject_mentions].
  apply existsb_exists. exists m. split; [exact Hm|]. now apply str_eqb_eq.
Qed.

Lemma nothing_tracked_nothing_found_witness :
  extract_fields untracked = Ret (answers_dict initial_answers).
Proof.
  apply nothing_tracked_nothing_found.
  - reflexivity.
  - intro f. destruct f; vm_compute; reflexivity.
Defined.

(** * Further properties of the script *)

(** ** The sanitizer *)

Lemma utf8_encode_char_bytes (c : codepoint) (bs : list N) :
  utf8_encode_char c = Some bs -> Forall (fun b => (b < 256)%N) bs.
Proof.
  intro H.
  assert (Hs : is_scalar c = true).
  { unfold utf8_encode_char in H. destruct (is_scalar c); [reflexivity|].
    discriminate. }
  destruct (utf8_decode_encoded c Hs) as (bs' & Hbs' & Hlt & _).
  congruence.
Qed.

Lemma utf8_encode_bytes (t : str) :
  forall bs, utf8_encode t = Some bs -> Forall (fun b => (b < 256)%N) bs.
Proof.
  induction t as [|c r IH]; intros bs H; simpl in H.
  - injection H as <-. constructor.
  - destruct (utf8_encode_char c) as [b1|] eqn:E1; [|discriminate].
    destruct (utf8_encode r) as [b2|] eqn:E2; [|discriminate].
    injection H as <-. apply Forall_app. split.
    + now apply (utf8_encode_char_bytes c).
    + now apply IH.
Qed.

Lemma hex_digit_safe (x : N) :
  (x < 16)%N -> is_safe_byte (hex_digit x) = true.
Proof.
  intro H. unfold hex_digit.
  destruct (N.ltb_spec x 10); unfold is_safe_byte; decide_tests; reflexivity.
Qed.

Lemma quote_byte_safe (b : N) :
  (b < 256)%N -> forallb url_safe (quote_byte b) = true.
Proof.
  intro H. unfold quote_byte. destruct (is_safe_byte b) eqn:E.
  - cbn [forallb]. unfold url_safe. now rewrite E.
  - cbn [forallb]. unfold url_safe.
    rewrite (@hex_digit_safe (b / 16)) by lia.
    rewrite (@hex_digit_safe (b mod 16)) by lia.
    reflexivity.
Qed.

Lemma url_safe_plain (c : codepoint) :
  url_safe c = true -> (c < 128)%N /\ is_space c = false.
Proof.
  unfold url_safe, is_safe_byte. intro H.
  repeat (apply orb_true_iff in H; destruct H as [H|H]);
    try (apply andb_true_iff in H; destruct H as [H1 H2];
         apply N.leb_le in H1, H2);
    try apply N.eqb_eq in H;
    (split; [lia|]); unfold is_space; decide_tests; reflexivity.
Qed.

Lemma quoted_bytes_safe (bs : list N) :
  Forall (fun b => (b < 256)%N) bs ->
  forallb url_safe (flat_map quote_byte bs) = true.
Proof.
  induction 1 as [|b r Hb _ IH]; [reflexivity|].
  cbn [flat_map]. rewrite forallb_app, IH, andb_true_r.
  now apply quote_byte_safe.
Qed.

(** X1: whatever the sanitizer returns can stand in a URL as it is:
    every character is a letter, a digit, one of [_.-~/] or the percent
    sign, so it is ASCII and holds no white space. *)
Theorem clean_output_is_url_safe
    (fold_table : codepoint -> str) (s q : str) :
  clean fold_table s = Ret q ->
  forallb url_safe q = true
  /\ forall c, In c q -> (c < 128)%N /\ is_space c = false.
Proof.
  intro H. unfold clean in H.
  destruct ((0 <? List.length s)%nat && negb (isspace s)); [|discriminate].
  unfold quote in H.
  destruct (utf8_encode (casefold fold_table (strip s))) as [bs|] eqn:E;
    [|discriminate].
  injection H as <-.
  pose proof (quoted_bytes_safe (@utf8_encode_bytes _ bs E)) as Hsafe.
  split; [exact Hsafe|].
  intros c Hc. apply url_safe_plain.
  rewrite forallb_forall in Hsafe. now apply Hsafe.
Qed.

Lemma clean_output_is_url_safe_witness :
  exists q,
    clean fold_nothing ([32; 68; 252; 110; 101; 32; 38; 63; 9]%N) = Ret q
    /\ forallb url_safe q = true.
Proof.
  eexists. split; [vm_compute; reflexivity|].
  refine (proj1 (@clean_output_is_url_safe fold_nothing
                   ([32; 68; 252; 110; 101; 32; 38; 63; 9]%N) _ _)).
  vm_compute. reflexivity.
Defined.

(** ** The sanitizer and white space *)

Lemma valid_not_blank (s : str) :
  ((0 <? List.length s)%nat && negb (isspace s)) = negb (forallb is_space s).
Proof. destruct s as [|c r]; reflexivity. Qed.

Lemma lstrip_blank_app (pre t : str) :
  forallb is_space pre = true -> lstrip (pre ++ t) = lstrip t.
Proof.
  induction pre as [|c r IH]; intro H; [reflexivity|].
  cbn [forallb] in H. apply andb_true_iff in H. destruct H as [Hc Hr].
  cbn [app lstrip]. rewrite Hc. now apply IH.
Qed.

Lemma lstrip_blank (s : str) : forallb is_space s = true -> lstrip s = [].
Proof.
  intro H. rewrite <- (app_nil_r s). now rewrite lstrip_blank_app.
Qed.

Lemma lstrip_app_not_blank (s post : str) :
  forallb is_space s = false -> lstrip (s ++ post) = lstrip s ++ post.
Proof.
  induction s as [|c r IH]; intro H; [discriminate|].
  cbn [forallb] in H. cbn [app lstrip].
  destruct (is_space c); [|reflexivity]. now apply IH.
Qed.

Lemma rstrip_app_blank (t post : str) :
  forallb is_space post = true -> rstrip (t ++ post) = rstrip t.
Proof.
  intro H. unfold rstrip. rewrite rev_app_distr, lstrip_blank_app; [reflexivity|].
  rewrite forallb_forall in *. intros c Hc. apply H. now apply in_rev.
Qed.

Lemma strip_surrounded (pre s post : str) :
  forallb is_space pre = true -> forallb is_space post = true ->
  strip (pre ++ s ++ post) = strip s.
Proof.
  intros Hpre Hpost. unfold strip. rewrite lstrip_blank_app by exact Hpre.
  destruct (forallb is_space s) eqn:Hs.
  - rewrite (lstrip_blank s Hs). rewrite lstrip_blank; [reflexivity|].
    now rewrite forallb_app, Hs, Hpost.
  - rewrite lstrip_app_not_blank by exact Hs. now apply rstrip_app_blank.
Qed.

(** X2: white space around the search text makes no difference to the
    sanitizer: with any run of white space put before and after it, the
    outcome is the same, be it the encoded text, the exit on a blank
    text or the error of the encoder. *)
Theorem clean_ignores_surrounding_space
    (fold_table : codepoint -> str) (pre s post : str) :
  forallb is_space pre = true -> forallb is_space post = true ->
  clean fold_table (pre ++ s ++ post) = clean fold_table s.
Proof.
  intros Hpre Hpost. unfold clean.
  rewrite !valid_not_blank, !forallb_app, Hpre, Hpost, andb_true_r.
  cbn [andb]. now rewrite strip_surrounded.
Qed.

Lemma clean_ignores_surrounding_space_witness :
  clean fold_nothing ([9; 32]%N ++ lit "Dune" ++ [12288; 10]%N)
  = clean fold_nothing (lit "Dune").
Proof.
  apply clean_ignores_surrounding_space; reflexivity.
Defined.

Lemma lstrip_starts_black (s : str) : starts_black (lstrip s).
Proof.
  induction s as [|c r IH]; [exact I|].
  cbn [lstrip]. destruct (is_space c) eqn:E; [exact IH|exact E].
Qed.

Lemma lstrip_fixed (s : str) : starts_black s -> lstrip s = s.
Proof.
  destruct s as [|c r]; [reflexivity|]. cbn. now intros ->.
Qed.

Lemma lstrip_suffix (s : str) : exists p, s = p ++ lstrip s.
Proof.
  induction s as [|c r IH]; [now exists []|].
  cbn [lstrip]. destruct (is_space c).
  - destruct IH as (p & Hp). exists (c :: p). cbn [app]. now rewrite <- Hp.
  - now exists [].
Qed.

Lemma strip_starts_black (s : str) : starts_black (strip s).
Proof.
  unfold strip, rstrip.
  pose proof (lstrip_starts_black s) as Hy.
  destruct (lstrip_suffix (rev (lstrip s))) as (p & Hp).
  apply (f_equal (@rev codepoint)) in Hp.
  rewrite rev_involutive, rev_app_distr in Hp.
  destruct (rev (lstrip (rev (lstrip s)))) as [|c z]; [exact I|].
  rewrite Hp in Hy. exact Hy.
Qed.

Lemma strip_idempotent (s : str) : strip (strip s) = strip s.
Proof.
  pose proof (strip_starts_black s) as H.
  unfold strip at 1. rewrite (lstrip_fixed _ H).
  unfold strip, rstrip. rewrite rev_involutive.
  now rewrite (lstrip_fixed _ (lstrip_starts_black _)).
Qed.

Lemma strip_not_blank (s : str) :
  forallb is_space s = false -> forallb is_space (strip s) = false.
Proof.
  intro H.
  assert (Hl : forallb is_space (lstrip s) = false).
  { clear - H. induction s as [|c r IH]; [discriminate|].
    cbn [forallb] in H. cbn [lstrip]. destruct (is_space c) eqn:E.
    - now apply IH.
    - cbn [forallb]. now rewrite E. }
  assert (Hrev : forall t, forallb is_space (rev t) = forallb is_space t).
  { intro t. induction t as [|c r IH]; [reflexivity|].
    cbn [rev forallb]. rewrite forallb_app, IH. cbn [forallb].
    rewrite andb_true_r. apply andb_comm. }
  assert (Hstep : forall t, forallb is_space t = false ->
                            forallb is_space (lstrip t) = false).
  { intro t. induction t as [|c r IH]; [discriminate|].
    intro Ht. cbn [forallb] in Ht. cbn [lstrip]. destruct (is_space c) eqn:E.
    - now apply IH.
    - cbn [forallb]. now rewrite E. }
  unfold strip, rstrip. rewrite Hrev. apply Hstep. now rewrite Hrev.
Qed.

Lemma casefold_ascii (fold_table : codepoint -> str) (s : str) :
  forallb is_ascii s = true ->
  casefold fold_table s = casefold fold_nothing s.
Proof.
  induction s as [|c r IH]; intro H; [reflexivity|].
  cbn [forallb] in H. apply andb_true_iff in H. destruct H as [Hc Hr].
  unfold casefold in *. cbn [flat_map]. rewrite (IH Hr). f_equal.
  unfold casefold_char. unfold is_ascii in Hc. rewrite Hc.
  now destruct ((65 <=? c) && (c <=? 90))%N.
Qed.

Lemma casefold_char_plain (c : codepoint) :
  exists d, casefold_char fold_nothing c = [d]
            /\ casefold_char fold_nothing d = [d]
            /\ is_space d = is_space c
            /\ (is_ascii c = true -> is_ascii d = true).
Proof.
  unfold casefold_char, fold_nothing.
  destruct ((65 <=? c) && (c <=? 90))%N eqn:E.
  - apply andb_true_iff in E. destruct E as [H1 H2].
    apply N.leb_le in H1, H2. exists (c + 32)%N.
    split; [reflexivity|]. split; [|split].
    + decide_tests. reflexivity.
    + unfold is_space. decide_tests. reflexivity.
    + intros _. unfold is_ascii. decide_tests. reflexivity.
  - exists c. rewrite E. split; [now destruct (c <? 128)%N|].
    split; [now destruct (c <? 128)%N|]. split; [reflexivity|tauto].
Qed.

Lemma casefold_plain_idempotent (s : str) :
  casefold fold_nothing (casefold fold_nothing s) = casefold fold_nothing s.
Proof.
  unfold casefold. induction s as [|c r IH]; [reflexivity|].
  cbn [flat_map]. rewrite flat_map_app, IH. f_equal.
  destruct (casefold_char_plain c) as (d & -> & Hd & _).
  cbn [flat_map]. now rewrite Hd, app_nil_r.
Qed.

Lemma casefold_plain_blank (s : str) :
  forallb is_space (casefold fold_nothing s) = forallb is_space s.
Proof.
  unfold casefold. induction s as [|c r IH]; [reflexivity|].
  cbn [flat_map forallb]. rewrite forallb_app, IH. f_equal.
  destruct (casefold_char_plain c) as (d & -> & _ & Hd & _).
  cbn [forallb]. now rewrite Hd, andb_true_r.
Qed.

Lemma casefold_plain_ascii (s : str) :
  forallb is_ascii s = true ->
  forallb is_ascii (casefold fold_nothing s) = true.
Proof.
  unfold casefold. induction s as [|c r IH]; intro H; [reflexivity|].
  cbn [forallb] in H. apply andb_true_iff in H. destruct H as [Hc Hr].
  cbn [flat_map]. rewrite forallb_app, (IH Hr), andb_true_r.
  destruct (casefold_char_plain c) as (d & -> & _ & _ & Hd).
  cbn [forallb]. now rewrite (Hd Hc).
Qed.

Lemma strip_casefold_plain (s : str) :
  strip (casefold fold_nothing s) = casefold fold_nothing (strip s).
Proof.
  apply strip_casefold; unfold fold_nothing.
  - reflexivity.
  - intros c _ Hc. now exists c, [].
  - intros c _ Hc. now exists c, [].
Qed.

Lemma ascii_scalar (s : str) :
  forallb is_ascii s = true -> forallb is_scalar s = true.
Proof.
  rewrite !forallb_forall. intros H c Hc. specialize (H c Hc).
  unfold is_ascii in H. apply N.ltb_lt in H.
  unfold is_scalar, is_surrogate. decide_tests. reflexivity.
Qed.

Lemma strip_ascii (s : str) :
  forallb is_ascii s = true -> forallb is_ascii (strip s) = true.
Proof.
  rewrite !forallb_forall. intros H c Hc. apply H. now apply strip_incl.
Qed.

(** X3: for ASCII text the sanitizer is stable: what it returns,
    decoded again by [unquote] and sanitized once more, gives the same
    encoded text. *)
Theorem clean_twice_ascii
    (fold_table : codepoint -> str) (s q : str) :
  forallb is_ascii s = true ->
  clean fold_table s = Ret q ->
  clean fold_table (unquote q) = Ret q.
Proof.
  intros Hascii H. unfold clean in H. rewrite valid_not_blank in H.
  destruct (forallb is_space s) eqn:Hblank; [discriminate|]. cbn [negb] in H.
  rewrite (casefold_ascii fold_table (strip s) (strip_ascii s Hascii)) in H.
  set (t := casefold fold_nothing (strip s)) in *.
  assert (Ht : forallb is_ascii t = true)
    by (apply casefold_plain_ascii, strip_ascii, Hascii).
  destruct (unquote_quote t (ascii_scalar t Ht)) as (q' & Hq' & Hdec).
  rewrite Hq' in H. injection H as <-. rewrite Hdec.
  unfold clean. rewrite valid_not_blank.
  assert (Hnb : forallb is_space t = false).
  { unfold t. rewrite casefold_plain_blank. now apply strip_not_blank. }
  rewrite Hnb. cbn [negb].
  rewrite (casefold_ascii fold_table (strip t) (strip_ascii t Ht)).
  unfold t at 1. rewrite strip_casefold_plain, strip_idempotent.
  rewrite casefold_plain_idempotent. fold t. now rewrite Hq'.
Qed.

Lemma clean_twice_ascii_witness :
  clean fold_nothing (unquote (lit "dune%20messiah"))
  = Ret (lit "dune%20messiah").
Proof.
  apply (@clean_twice_ascii fold_nothing (lit " Dune Messiah ")
           (lit "dune%20messiah")).
  - vm_compute. reflexivity.
  - vm_compute. reflexivity.
Defined.

(** ** The prober *)

Lemma answered_other_cons (net : nat -> str -> reply) (start : nat)
    (prefix : str) (rest : list str) (status : Z) (body : bytes) :
  net start (probe_url prefix) = Response status body ->
  status <> 200%Z ->
  answered_other net (S start) rest ->
  answered_other net start (prefix :: rest).
Proof.
  intros Hp Hs Hrest [|i] q Hq.
  - injection Hq as <-. exists status, body. now rewrite Nat.add_0_r.
  - destruct (Hrest i q Hq) as (st & b & Hnet & Hst).
    exists st, b. split; [|exact Hst].
    now replace (start + S i)%nat with (S start + i)%nat by lia.
Qed.

(** What the loop of the prober does, for each way it can end. *)
Lemma probe_all_outcome (net : nat -> str -> reply) (candidates : list str) :
  forall w r w',
    probe_all net candidates w = (r, w') ->
    exists tried rest,
      candidates = tried ++ rest
      /\ w' = World (stdin w) (sent w + List.length tried)
                    (trace w ++ List.map probe_event tried)
      /\ match r with
         | Ret prefix =>
             exists earlier,
               tried = earlier ++ [prefix]
               /\ answered_other net (sent w) earlier
               /\ exists body,
                    net (sent w + List.length earlier)%nat (probe_url prefix)
                    = Response 200 body
         | Exit status =>
             status = ExitMessage no_api_message
             /\ rest = []
             /\ answered_other net (sent w) tried
         | Raise e =>
             exists earlier prefix,
               tried = earlier ++ [prefix]
               /\ answered_other net (sent w) earlier
               /\ net (sent w + List.length earlier)%nat (probe_url prefix)
                  = Failure e
         end.
Proof.
  induction candidates as [|p cs IH]; intros w r w' H.
  - cbn in H. injection H as <- <-. exists [], []. cbn.
    rewrite Nat.add_0_r, app_nil_r. split; [reflexivity|].
    split; [now destruct w|]. repeat split. intros [|i] q Hq; discriminate.
  - cbn [probe_all] in H. unfold bind, urlopen in H.
    fold (probe_url p) in H.
    destruct (net (sent w) (probe_url p)) as [status body|e] eqn:Hnet.
    + cbn [fst] in H. destruct (status =? 200)%Z eqn:Hs.
      * injection H as <- <-. apply Z.eqb_eq in Hs. subst status.
        exists [p], cs. split; [reflexivity|]. split.
        { cbn. now replace (sent w + 1)%nat with (S (sent w)) by lia. }
        exists []. split; [reflexivity|]. split.
        { intros [|i] q Hq; discriminate. }
        exists body. cbn. now rewrite Nat.add_0_r.
      * apply Z.eqb_neq in Hs. apply IH in H.
        destruct H as (tried & rest & Hc & Hw & Hr). cbn in Hw.
        exists (p :: tried), rest. split; [now rewrite Hc|]. split.
        { rewrite Hw. cbn. f_equal; [lia|]. now rewrite <- app_assoc. }
        cbn [sent] in Hr. destruct r as [prefix|st|e].
        -- destruct Hr as (earlier & Ht & Ho & b & Hb).
           exists (p :: earlier). split; [now rewrite Ht|]. split.
           { now apply (@answered_other_cons net (sent w) p earlier status body). }
           exists b. cbn [List.length].
           now replace (sent w + S (List.length earlier))%nat
             with (S (sent w) + List.length earlier)%nat by lia.
        -- destruct Hr as (Hst & Hrest & Ho). repeat split; try assumption.
           now apply (@answered_other_cons net (sent w) p tried status body).
        -- destruct Hr as (earlier & q & Ht & Ho & Hq).
           exists (p :: earlier), q. split; [now rewrite Ht|]. split.
           { now apply (@answered_other_cons net (sent w) p earlier status body). }
           cbn [List.length].
           now replace (sent w + S (List.length earlier))%nat
             with (S (sent w) + List.length earlier)%nat by lia.
    + injection H as <- <-. exists [p], cs. split; [reflexivity|]. split.
      { cbn. now replace (sent w + 1)%nat with (S (sent w)) by lia. }
      exists [], p. split; [reflexivity|]. split.
      { intros [|i] q Hq; discriminate. }
      cbn. now rewrite Nat.add_0_r.
Qed.

(** X4: when the prober returns a prefix, that prefix is one of the
    five of the list, every candidate before it answered with a status
    other than 200, it answered 200 itself, and the probes sent are
    those of the candidates up to it, in the order of the list and
    nothing else. *)
Theorem prober_returns_first_working
    (net : nat -> str -> reply) (w w' : world) (prefix : str) :
  getAPIprefix net w = (Ret prefix, w') ->
  exists earlier later,
    prefixes = earlier ++ prefix :: later
    /\ answered_other net (sent w) earlier
    /\ (exists body,
          net (sent w + List.length earlier)%nat (probe_url prefix)
          = Response 200 body)
    /\ w' = World (stdin w) (sent w + S (List.length earlier))
                  (trace w ++ List.map probe_event (earlier ++ [prefix])).
Proof.
  intro H. apply probe_all_outcome in H.
  destruct H as (tried & rest & Hc & Hw & earlier & Ht & Ho & Hb).
  subst tried. exists earlier, rest. split.
  { now rewrite Hc, <- app_assoc. }
  split; [exact Ho|]. split; [exact Hb|].
  rewrite Hw, length_app. cbn. do 2 f_equal. lia.
Qed.

Lemma prober_returns_first_working_witness :
  exists earlier later,
    prefixes = earlier ++ hd [] prefixes :: later
    /\ answered_other healthy 0 earlier.
Proof.
  destruct (@prober_returns_first_working healthy (World [] 0 [])
              (World [] 1 [probe_event (hd [] prefixes)]) (hd [] prefixes))
    as (earlier & later & Hp & Ho & _).
  - vm_compute. reflexivity.
  - now exists earlier, later.
Defined.

(** X5: the prober exits exactly when each of the five candidates,
    probed in the order of the list, answers with a status other than
    200. *)
Theorem prober_gives_up_after_all
    (net : nat -> str -> reply) (w : world) :
  (exists status w', getAPIprefix net w = (Exit status, w'))
  <-> answered_other net (sent w) prefixes.
Proof.
  split.
  - intros (status & w' & H). apply probe_all_outcome in H.
    destruct H as (tried & rest & Hc & _ & _ & -> & Ho).
    rewrite app_nil_r in Hc. now rewrite Hc.
  - intro Hall.
    assert (Hgen : forall cs w0,
               answered_other net (sent w0) cs ->
               exists w', probe_all net cs w0
                          = (Exit (ExitMessage no_api_message), w')).
    { induction cs as [|p cs IH]; intros w0 Hcs.
      - now exists w0.
      - destruct (Hcs 0%nat p eq_refl) as (st & b & Hnet & Hst).
        rewrite Nat.add_0_r in Hnet.
        cbn [probe_all]. unfold bind, urlopen. fold (probe_url p).
        rewrite Hnet. cbn [fst].
        replace (st =? 200)%Z with false by (symmetry; now apply Z.eqb_neq).
        apply IH. cbn [sent]. intros i q Hq.
        destruct (Hcs (S i) q Hq) as (st' & b' & Hnet' & Hst').
        exists st', b'. split; [|exact Hst'].
        now replace (S (sent w0) + i)%nat with (sent w0 + S i)%nat by lia. }
    destruct (Hgen prefixes w Hall) as (w' & Hw').
    now exists (ExitMessage no_api_message), w'.
Qed.

(** X6: however the prober ends, what it did is to probe a leading
    part of the list, one request per candidate, in order: at most five
    requests, nothing printed and nothing read; and it exits only with
    its message, after all five. *)
Theorem prober_probes_in_listed_order
    (net : nat -> str -> reply) (w w' : world) (r : result str) :
  getAPIprefix net w = (r, w') ->
  exists tried rest,
    prefixes = tried ++ rest
    /\ (List.length tried <= 5)%nat
    /\ w' = World (stdin w) (sent w + List.length tried)
                  (trace w ++ List.map probe_event tried)
    /\ (forall status, r = Exit status ->
          status = ExitMessage no_api_message /\ List.length tried = 5%nat).
Proof.
  intro H. apply probe_all_outcome in H.
  destruct H as (tried & rest & Hc & Hw & Hr).
  exists tried, rest. split; [exact Hc|].
  assert (Hlen : (List.length tried + List.length rest = 5)%nat).
  { rewrite <- length_app, <- Hc. reflexivity. }
  split; [lia|]. split; [exact Hw|].
  intros status ->. destruct Hr as (-> & -> & _). split; [reflexivity|].
  cbn in Hlen. lia.
Qed.

Lemma prober_probes_in_listed_order_witness :
  exists tried rest,
    prefixes = tried ++ rest /\ (List.length tried <= 5)%nat.
Proof.
  destruct (@prober_probes_in_listed_order all_moved (World [] 0 [])
              (World [] 5 (List.map probe_event prefixes))
              (Exit (ExitMessage no_api_message)))
    as (tried & rest & Hp & Hlen & _).
  - vm_compute. reflexivity.
  - now exists tried, rest.
Defined.

(** ** The filter *)

(** X7: the title and the identifier of a hit are found by position
    alone, whatever the tags are: from the matching element two levels
    up, then the texts of the third and the second sibling before that
    element.  When the matching element has no grandparent, or the
    grandparent fewer than three siblings before it, the walk ends in
    an AttributeError. *)
Theorem label_and_resource_by_position (doc : document) (element : position) :
  match element with
  | _ :: _ :: S (S (S k)) :: up =>
      label_and_resource doc element
      = Ret (text_at doc (k :: up), text_at doc (S k :: up))
  | _ => label_and_resource doc element = Raise AttributeError
  end.
Proof.
  destruct element as [|i [|j [|[|[|[|k]]] up]]]; reflexivity.
Qed.

Lemma print_candidates_lines (names : list text) :
  forall idx w,
    print_candidates idx names w
    = (Ret tt, World (stdin w) (sent w)
                     (trace w ++ List.map Print (candidate_lines idx names))).
Proof.
  induction names as [|b rest IH]; intros idx w.
  - cbn. rewrite app_nil_r. now destruct w.
  - cbn [print_candidates candidate_lines List.map].
    unfold bind, print_xml, emit. rewrite IH. cbn. now rewrite <- app_assoc.
Qed.

Lemma candidate_lines_nth (names : list text) :
  forall idx i title,
    nth_error names i = Some title ->
    nth_error (candidate_lines idx names) i
    = Some (candidate_line (idx + i) title).
Proof.
  induction names as [|b rest IH]; intros idx [|i] title H; try discriminate.
  - injection H as <-. cbn. now rewrite Nat.add_0_r.
  - cbn in H. cbn [candidate_lines nth_error]. rewrite (IH (S idx) i title H).
    do 2 f_equal. lia.
Qed.

Lemma dict_get_nth (d : books) :
  NoDup (dict_keys d) ->
  forall i title resource,
    nth_error d i = Some (title, resource) ->
    dict_get text_eqb d title = Some resource.
Proof.
  induction d as [|[k v] r IH]; intros Hnd [|i] title resource H;
    try discriminate.
  - injection H as <- <-. cbn. now rewrite text_eqb_refl.
  - cbn in H. cbn [dict_get]. inversion Hnd as [|x l Hout Hnd']; subst.
    destruct (text_eqb title k) eqn:E.
    + apply text_eqb_eq in E. subst. exfalso. apply Hout.
      apply nth_error_In in H. apply (in_map fst) in H. exact H.
    + now apply (IH Hnd' i).
Qed.

(** X9: with several titles, the answer [k] to the prompt, a valid
    index, selects the title shown on the line numbered [k]: the script
    prints the notice, one line per title, asks once, prints the
    heading of that title and returns its identifier turned into the
    address of the JSON document. *)
Theorem valid_choice_selects_listed_title
    (to_decimal : codepoint -> option N) (d : books)
    (choice : str) (rest : list str) (n : nat) (tr : list event)
    (k : nat) (title : text) (resource : str) :
  (2 <= List.length d)%nat ->
  NoDup (dict_keys d) ->
  py_int to_decimal choice = Some (Z.of_nat k) ->
  nth_error d k = Some (title, Some resource) ->
  select_book to_decimal d (World (choice :: rest) n tr)
  = (Ret (replace (lit "resource") (lit "data") resource ++ lit ".json"),
     World rest n
           (tr ++ Print multiple_titles_line
               :: List.map Print (candidate_lines 0 (dict_keys d))
               ++ [Prompt choice_prompt; Print (results_line title)]))
  /\ nth_error (candidate_lines 0 (dict_keys d)) k
     = Some (candidate_line k title).
Proof.
  intros Hlen Hnd Hint Hnth. split.
  - destruct d as [|[t1 r1] [|[t2 r2] d']]; cbn in Hlen; try lia.
    unfold select_book.
    set (d := (t1, r1) :: (t2, r2) :: d') in *.
    unfold bind at 1. unfold print_xml at 1, emit. cbv beta iota.
    unfold bind at 1. rewrite print_candidates_lines. cbv beta iota.
    unfold bind at 1, input. cbn [stdin sent trace]. rewrite Hint.
    assert (Hkey : nth_error (dict_keys d) k = Some title).
    { unfold dict_keys. rewrite nth_error_map, Hnth. reflexivity. }
    assert (Hidx : list_index (dict_keys d) (Z.of_nat k) = Some title).
    { unfold list_index.
      assert (k < List.length (dict_keys d))%nat
        by (apply nth_error_Some; congruence).
      replace ((0 <=? Z.of_nat k)
               && (Z.of_nat k <? Z.of_nat (List.length (dict_keys d))))%Z
        with true by (symmetry; apply andb_true_iff; lia).
      now rewrite Nat2Z.id. }
    rewrite Hidx. rewrite (@dict_get_nth d Hnd k title (Some resource) Hnth).
    unfold bind, lift, print_xml, emit, ret. cbn.
    rewrite <- !app_assoc. reflexivity.
  - apply (@candidate_lines_nth (dict_keys d) 0 k title).
    unfold dict_keys. rewrite nth_error_map, Hnth. reflexivity.
Qed.

Lemma valid_choice_selects_listed_title_witness :
  fst (select_book no_digits two_titles (World [lit " 1 "] 0 []))
  = Ret (lit "http://dbpedia.org/data/Dune_Messiah.json")
  /\ nth_error (candidate_lines 0 (dict_keys two_titles)) 1
     = Some (lit "- 1 : Dune Messiah").
Proof.
  destruct (@valid_choice_selects_listed_title no_digits two_titles
              (lit " 1 ") [] 0%nat [] 1%nat (Some (lit "Dune Messiah"))
              (lit "http://dbpedia.org/resource/Dune_Messiah"))
    as [Hrun Hline].
  - cbn. lia.
  - repeat constructor; cbn; intuition discriminate.
  - vm_compute. reflexivity.
  - reflexivity.
  - split.
    + rewrite Hrun. vm_compute. reflexivity.
    + rewrite Hline. vm_compute. reflexivity.
Defined.

(** The loop that fills the dict when every hit carries one label. *)
Lemma fill_one_label (title : text) (hits : list (text * text)) :
  forall u0,
    (forall hit, In hit hits -> fst hit = title) ->
    fill hits [(title, u0)] = [(title, last (u0 :: List.map snd hits) None)].
Proof.
  induction hits as [|[l u] rest IH]; intros u0 H; [reflexivity|].
  assert (l = title) by (apply (H (l, u)); now left). subst l.
  cbn [fill fold_left dict_set fst snd]. rewrite text_eqb_refl.
  change (fold_left _ rest ?d) with (fill rest d).
  rewrite IH by (intros hit Hhit; apply H; now right).
  reflexivity.
Qed.

(** X8: when all the book hits carry one label, the script does not
    ask: it prints the heading of that label and returns the address
    made from the identifier of the last of these hits. *)
Theorem one_label_selected_without_prompt
    (to_decimal : codepoint -> option N)
    (fromstring : bytes -> option document) (body : bytes) (tree : document)
    (title first_resource : text) (more : list (text * text))
    (chosen : str) (w : world) :
  fromstring body = Some tree ->
  book_hits tree = Ret ((title, first_resource) :: more) ->
  (forall hit, In hit more -> fst hit = title) ->
  last (first_resource :: List.map snd more) None = Some chosen ->
  extract_books to_decimal fromstring body w
  = (Ret (replace (lit "resource") (lit "data") chosen ++ lit ".json"),
     World (stdin w) (sent w) (trace w ++ [Print (results_line title)])).
Proof.
  intros Hparse Hhits Hsame Hlast. unfold extract_books. rewrite Hparse.
  unfold dict_of_books, book_hits in *.
  rewrite (@collect_fill tree (book_elements tree) _ [] Hhits).
  cbn [fill fold_left dict_set fst snd].
  change (fold_left _ more ?d) with (fill more d).
  rewrite (@fill_one_label title more first_resource Hsame).
  rewrite Hlast. reflexivity.
Qed.

Lemma one_label_selected_without_prompt_witness :
  extract_books no_digits (parse_as (answer [emma_1; dune_film; emma_2]))
                search_body (World [] 0 [])
  = (Ret (lit "http://dbpedia.org/data/Emma_(1815_novel).json"),
     World [] 0 [Print (lit "Results for 'Emma':")]).
Proof.
  rewrite (@one_label_selected_without_prompt no_digits
             (parse_as (answer [emma_1; dune_film; emma_2])) search_body
             (answer [emma_1; dune_film; emma_2])
             (Some (lit "Emma"))
             (Some (lit "http://dbpedia.org/resource/Emma_(novel)"))
             [(Some (lit "Emma"),
               Some (lit "http://dbpedia.org/resource/Emma_(1815_novel)"))]
             (lit "http://dbpedia.org/resource/Emma_(1815_novel)")
             (World [] 0 [])).
  - vm_compute. reflexivity.
  - reflexivity.
  - vm_compute. reflexivity.
  - intros hit [<-|[]]. reflexivity.
  - reflexivity.
Defined.

Lemma requests_app (a b : list event) :
  requests (a ++ b) = requests a ++ requests b.
Proof. unfold requests. apply flat_map_app. Qed.

Lemma requests_prints (lines : list str) :
  requests (List.map Print lines) = [].
Proof. induction lines as [|l r IH]; [reflexivity|exact IH]. Qed.

Lemma offline_refl (w : world) : offline w w.
Proof.
  split; [reflexivity|]. split; [|now left].
  exists []. now rewrite app_nil_r.
Qed.

Lemma offline_prints (w : world) (lines : list str) :
  offline w (World (stdin w) (sent w) (trace w ++ List.map Print lines)).
Proof.
  split; [reflexivity|]. split; [|now left].
  exists (List.map Print lines). split; [reflexivity|apply requests_prints].
Qed.

Lemma select_book_offline (to_decimal : codepoint -> option N) (d : books)
    (w w' : world) (r : result str) :
  select_book to_decimal d w = (r, w') -> offline w w'.
Proof.
  intro H. destruct d as [|[t1 r1] [|[t2 r2] d']].
  - cbn in H. injection H as <- <-. apply offline_refl.
  - cbn [select_book] in H. unfold bind, lift in H.
    destruct (json_address r1) as [uri| |].
    + cbn in H. injection H as <- <-. apply (offline_prints w [results_line t1]).
    + injection H as <- <-. apply offline_refl.
    + injection H as <- <-. apply offline_refl.
  - unfold select_book in H.
    set (d := (t1, r1) :: (t2, r2) :: d') in *.
    unfold bind at 1 in H. unfold print_xml at 1, emit in H. cbv beta iota in H.
    unfold bind at 1 in H. rewrite print_candidates_lines in H.
    cbv beta iota in H. unfold bind at 1, input in H.
    cbn [stdin sent trace] in H.
    set (listed := (trace w ++ [Print multiple_titles_line])
                   ++ List.map Print (candidate_lines 0 (dict_keys d))) in *.
    assert (Hlisted : exists lines,
               listed = trace w ++ List.map Print lines).
    { exists (multiple_titles_line :: candidate_lines 0 (dict_keys d)).
      unfold listed. now rewrite <- app_assoc. }
    destruct Hlisted as (lines & Hlines).
    assert (Hquiet : forall extra,
               requests extra = [] ->
               exists events,
                 (listed ++ [Prompt choice_prompt]) ++ extra
                 = trace w ++ events /\ requests events = []).
    { intros extra Hextra.
      exists (List.map Print lines ++ [Prompt choice_prompt] ++ extra).
      split; [rewrite Hlines; now rewrite <- !app_assoc|].
      now rewrite !requests_app, requests_prints, Hextra. }
    destruct (stdin w) as [|line rest] eqn:Hin.
    + injection H as <- <-. split; [reflexivity|]. split; [|left; now cbn].
      destruct (Hquiet [] eq_refl) as (events & He & Hr).
      exists events. cbn. now rewrite <- He, app_nil_r.
    + assert (Hread : forall extra : list event,
                 requests extra = [] ->
                 offline w (World rest (sent w)
                                  ((listed ++ [Prompt choice_prompt]) ++ extra))).
      { intros extra Hextra. split; [reflexivity|]. split.
        - exact (Hquiet extra Hextra).
        - right. exists line. now cbn. }
      destruct (py_int to_decimal line) as [k|].
      * destruct (list_index (dict_keys d) k) as [title|].
        -- destruct (dict_get text_eqb d title) as [resource|].
           ++ unfold bind, lift in H.
              destruct (json_address resource) as [uri| |].
              ** cbn in H. injection H as <- <-.
                 apply (Hread [Print (results_line title)] eq_refl).
              ** injection H as <- <-.
                 rewrite <- (app_nil_r (listed ++ _)). now apply Hread.
              ** injection H as <- <-.
                 rewrite <- (app_nil_r (listed ++ _)). now apply Hread.
           ++ injection H as <- <-.
              rewrite <- (app_nil_r (listed ++ _)). now apply Hread.
        -- injection H as <- <-.
           rewrite <- (app_nil_r (listed ++ _)). now apply Hread.
      * injection H as <- <-.
        rewrite <- (app_nil_r (listed ++ _)). now apply Hread.
Qed.

(** X10: the filter never goes to the network: however it ends, the
    number of requests sent is unchanged, the events it adds hold no
    request, and it takes at most one line from standard input. *)
Theorem extract_books_stays_offline
    (to_decimal : codepoint -> option N)
    (fromstring : bytes -> option document) (body : bytes)
    (w w' : world) (r : result str) :
  extract_books to_decimal fromstring body w = (r, w') ->
  sent w' = sent w
  /\ (exists events, trace w' = trace w ++ events /\ requests events = [])
  /\ (stdin w' = stdin w \/ exists line, stdin w = line :: stdin w').
Proof.
  intro H. unfold extract_books in H.
  destruct (fromstring body) as [tree|].
  - unfold bind, lift in H. destruct (dict_of_books tree) as [d| |].
    + now apply (@select_book_offline to_decimal d w w' r).
    + injection H as <- <-. apply offline_refl.
    + injection H as <- <-. apply offline_refl.
  - injection H as <- <-. apply offline_refl.
Qed.

Lemma extract_books_stays_offline_witness :
  exists r w',
    extract_books no_digits (parse_as two_books) search_body
                  (World [lit "0"; lit "left"] 3 []) = (r, w')
    /\ sent w' = 3%nat
    /\ stdin w' = [lit "left"].
Proof.
  destruct (extract_books no_digits (parse_as two_books) search_body
                          (World [lit "0"; lit "left"] 3 [])) as [r w'] eqn:E.
  exists r, w'. split; [reflexivity|].
  destruct (@extract_books_stays_offline no_digits (parse_as two_books)
              search_body _ w' r E) as (Hsent & _ & _).
  split; [exact Hsent|].
  vm_compute in E. injection E as _ <-. reflexivity.
Defined.

(** ** The run as a whole *)

Lemma requests_probes (tried : list str) :
  requests (List.map probe_event tried) = List.map probe_request tried.
Proof.
  induction tried as [|p r IH]; [reflexivity|]. cbn. now rewrite <- IH.
Qed.

Lemma select_book_address (to_decimal : codepoint -> option N) (d : books)
    (w w' : world) (uri : str) :
  select_book to_decimal d w = (Ret uri, w') ->
  exists resource,
    uri = replace (lit "resource") (lit "data") resource ++ lit ".json".
Proof.
  assert (Haddr : forall (title resource : text) (w1 w2 : world),
             (URI_json <- lift (json_address resource) ;;
              print_xml (results_line title) ;;; ret URI_json) w1 = (Ret uri, w2) ->
             exists res,
               uri = replace (lit "resource") (lit "data") res ++ lit ".json").
  { intros title resource w1 w2 H. unfold bind, lift in H.
    destruct resource as [res|]; cbn in H; [|discriminate].
    injection H as <- _. now exists res. }
  intro H. destruct d as [|[t1 r1] [|[t2 r2] d']].
  - discriminate.
  - cbn [select_book] in H. exact (Haddr t1 r1 w w' H).
  - unfold select_book in H.
    set (d := (t1, r1) :: (t2, r2) :: d') in *.
    unfold bind at 1 in H. unfold print_xml at 1, emit in H. cbv beta iota in H.
    unfold bind at 1 in H. rewrite print_candidates_lines in H.
    cbv beta iota in H. unfold bind at 1, input in H.
    cbn [stdin sent trace] in H.
    destruct (stdin w) as [|line rest]; [discriminate|].
    destruct (py_int to_decimal line) as [k|]; [|discriminate].
    destruct (list_index (dict_keys d) k) as [title|]; [|discriminate].
    destruct (dict_get text_eqb d title) as [resource|]; [|discriminate].
    exact (Haddr title resource _ w' H).
Qed.

Lemma extract_books_offline
    (to_decimal : codepoint -> option N)
    (fromstring : bytes -> option document) (body : bytes)
    (w w' : world) (r : result str) :
  extract_books to_decimal fromstring body w = (r, w') ->
  offline w w'
  /\ forall uri, r = Ret uri ->
       exists resource,
         uri = replace (lit "resource") (lit "data") resource ++ lit ".json".
Proof.
  intro H. unfold extract_books in H.
  destruct (fromstring body) as [tree|].
  - unfold bind, lift in H. destruct (dict_of_books tree) as [d| |].
    + split; [now apply (@select_book_offline to_decimal d w w' r)|].
      intros uri ->. now apply (@select_book_address to_decimal d w w' uri).
    + injection H as <- <-. split; [apply offline_refl|discriminate].
    + injection H as <- <-. split; [apply offline_refl|discriminate].
  - injection H as <- <-. split; [apply offline_refl|discriminate].
Qed.

(** What the metadata fetcher leaves of the world: one request, and
    after it at most the error it prints. *)
Lemma extract_metadata_world (net : nat -> str -> reply)
    (loads : bytes -> exn + json) (URI : str) (w w' : world)
    (r : result metadata) :
  extract_metadata net loads URI w = (r, w') ->
  stdin w' = stdin w
  /\ sent w' = S (sent w)
  /\ (trace w' = trace w ++ [Urlopen Metadata URI]
      \/ exists e, is_url_error e = true /\ r = Exit (ExitError e)
                   /\ trace w' = trace w ++ [Urlopen Metadata URI; PrintError e]).
Proof.
  unfold extract_metadata, except_url_errors, bind, urlopen, lift, raise.
  intro H.
  assert (Hcaught : forall e0,
             (if is_url_error e0
              then (emit (PrintError e0) ;;; sys_exit (ExitError e0))
                     (World (stdin w) (S (sent w))
                            (trace w ++ [Urlopen Metadata URI]))
              else (Raise e0, World (stdin w) (S (sent w))
                                    (trace w ++ [Urlopen Metadata URI])))
             = (r, w') ->
             stdin w' = stdin w
             /\ sent w' = S (sent w)
             /\ (trace w' = trace w ++ [Urlopen Metadata URI]
                 \/ exists e, is_url_error e = true /\ r = Exit (ExitError e)
                              /\ trace w'
                                 = trace w ++ [Urlopen Metadata URI; PrintError e])).
  { intros e0 H0. destruct (is_url_error e0) eqn:He.
    - unfold bind, emit, sys_exit in H0. cbn in H0. injection H0 as <- <-.
      cbn. repeat split. right. exists e0. now rewrite <- app_assoc.
    - injection H0 as <- <-. cbn. auto. }
  destruct (net (sent w) URI) as [status body|e]; cbn [snd] in H.
  - destruct (loads body) as [e|j].
    + now apply (Hcaught e).
    + destruct (extract_fields j) as [md|st|e].
      * injection H as <- <-. cbn. auto.
      * injection H as <- <-. cbn. auto.
      * now apply (Hcaught e).
  - now apply (Hcaught e).
Qed.

(** X11: when the search request fails with an HTTPError or a
    URLError, the run prints that error and exits with it; nothing else
    happens after the request. *)
Theorem search_error_is_printed_and_ends_run
    (fold_table : codepoint -> str) (to_decimal : codepoint -> option N)
    (fromstring : bytes -> option document) (loads : bytes -> exn + json)
    (show_container : json -> str) (net : nat -> str -> reply)
    (search bookname prefix : str) (e : exn) (w w1 : world) :
  clean fold_table search = Ret bookname ->
  getAPIprefix net w = (Ret prefix, w1) ->
  net (sent w1) (prefix ++ bookname) = Failure e ->
  is_url_error e = true ->
  query_DBpedia fold_table to_decimal fromstring loads show_container net
                search w
  = (Exit (ExitError e),
     World (stdin w1) (S (sent w1))
           (trace w1 ++ [Urlopen Search (prefix ++ bookname); PrintError e])).
Proof.
  intros Hclean Hprobe Hnet He.
  unfold query_DBpedia, bind at 1, lift. rewrite Hclean.
  unfold bind at 1. rewrite Hprobe.
  unfold except_url_errors, bind at 1, urlopen. rewrite Hnet, He.
  unfold bind, emit, sys_exit. cbn. now rewrite <- app_assoc.
Qed.

Lemma search_error_is_printed_and_ends_run_witness :
  run fold_nothing no_digits (parse_as one_book) (load_as two_authors)
      show_nothing
      (fun n url => if (n =? 0)%nat then Response 200 []
                    else Failure (HTTPError 503))
      [] (lit "Dune")
  = (Exit (ExitError (HTTPError 503)),
     [Urlopen Probe (probe_url (hd [] prefixes));
      Urlopen Search (hd [] prefixes ++ lit "dune");
      PrintError (HTTPError 503)]).
Proof.
  unfold run.
  rewrite (@search_error_is_printed_and_ends_run fold_nothing no_digits
             (parse_as one_book) (load_as two_authors) show_nothing _
             (lit "Dune") (lit "dune") (hd [] prefixes) (HTTPError 503)
             (World [] 0 [])
             (World [] 1 [Urlopen Probe (probe_url (hd [] prefixes))])).
  - reflexivity.
  - vm_compute. reflexivity.
  - vm_compute. reflexivity.
  - reflexivity.
  - reflexivity.
Defined.

(** X12: when the request of the metadata document fails with an
    HTTPError or a URLError, the error is printed once, by the fetcher,
    and the run exits with it: the handler of the caller does not print
    it a second time. *)
Theorem metadata_error_is_printed_once
    (fold_table : codepoint -> str) (to_decimal : codepoint -> option N)
    (fromstring : bytes -> option document) (loads : bytes -> exn + json)
    (show_container : json -> str) (net : nat -> str -> reply)
    (search bookname prefix address : str) (status : Z) (body : bytes)
    (e : exn) (w w1 w2 : world) :
  clean fold_table search = Ret bookname ->
  getAPIprefix net w = (Ret prefix, w1) ->
  net (sent w1) (prefix ++ bookname) = Response status body ->
  extract_books to_decimal fromstring body
    (World (stdin w1) (S (sent w1))
           (trace w1 ++ [Urlopen Search (prefix ++ bookname)]))
  = (Ret address, w2) ->
  net (sent w2) address = Failure e ->
  is_url_error e = true ->
  query_DBpedia fold_table to_decimal fromstring loads show_container net
                search w
  = (Exit (ExitError e),
     World (stdin w2) (S (sent w2))
           (trace w2 ++ [Urlopen Metadata address; PrintError e])).
Proof.
  intros Hclean Hprobe Hnet Hbooks Hmeta He.
  unfold query_DBpedia, bind at 1, lift. rewrite Hclean.
  unfold bind at 1. rewrite Hprobe.
  unfold except_url_errors at 1, bind at 1, urlopen at 1. rewrite Hnet.
  unfold bind at 1. cbv beta iota. cbn [snd]. rewrite Hbooks.
  unfold bind at 1.
  unfold extract_metadata, except_url_errors, bind at 1, urlopen.
  rewrite Hmeta, He. unfold bind, emit, sys_exit. cbn.
  now rewrite <- app_assoc.
Qed.

Lemma metadata_error_is_printed_once_witness :
  run fold_nothing no_digits (parse_as one_book) (load_as two_authors)
      show_nothing
      (fun n url => if (n <? 2)%nat then Response 200 []
                    else Failure (HTTPError 404))
      [] (lit "Dune")
  = (Exit (ExitError (HTTPError 404)),
     [Urlopen Probe (probe_url (hd [] prefixes));
      Urlopen Search (hd [] prefixes ++ lit "dune");
      Print (lit "Results for 'Dune (novel)':");
      Urlopen Metadata (lit "http://dbpedia.org/data/Dune_(novel).json");
      PrintError (HTTPError 404)]).
Proof.
  unfold run.
  rewrite (@metadata_error_is_printed_once fold_nothing no_digits
             (parse_as one_book) (load_as two_authors) show_nothing _
             (lit "Dune") (lit "dune") (hd [] prefixes)
             (lit "http://dbpedia.org/data/Dune_(novel).json") 200 []
             (HTTPError 404)
             (World [] 0 [])
             (World [] 1 [Urlopen Probe (probe_url (hd [] prefixes))])
             (World [] 2 [Urlopen Probe (probe_url (hd [] prefixes));
                          Urlopen Search (hd [] prefixes ++ lit "dune");
                          Print (lit "Results for 'Dune (novel)':")])).
  - reflexivity.
  - vm_compute. reflexivity.
  - vm_compute. reflexivity.
  - vm_compute. reflexivity.
  - vm_compute. reflexivity.
  - reflexivity.
  - reflexivity.
Defined.



(** A lone surrogate in the identifier of the author: the first line
    cannot be written and the run ends there. *)
Example surrogate_ends_display :
  run fold_nothing no_digits (parse_as one_book) (load_as surrogate_author)
      show_nothing healthy [] (lit "Dune")
  = (Raise UnicodeEncodeError,
     [Urlopen Probe (probe_url (hd [] prefixes));
      Urlopen Search (hd [] prefixes ++ lit "dune");
      Print (lit "Results for 'Dune (novel)':");
      Urlopen Metadata (lit "http://dbpedia.org/data/Dune_(novel).json")]).
Proof. vm_compute. reflexivity. Qed.

Lemma except_url_errors_requests {A : Type} (m : M A) (w w' : world)
    (r : result A) :
  except_url_errors m w = (r, w') ->
  exists r0 w0,
    m w = (r0, w0)
    /\ requests (trace w') = requests (trace w0)
    /\ (forall a, r = Ret a -> r0 = Ret a).
Proof.
  unfold except_url_errors. destruct (m w) as [r0 w0]. intro H.
  exists r0, w0. split; [reflexivity|].
  destruct r0 as [a|st|e].
  - injection H as <- <-. auto.
  - injection H as <- <-. split; [reflexivity|discriminate].
  - destruct (is_url_error e).
    + unfold bind, emit, sys_exit in H. cbn in H. injection H as <- <-.
      cbn. rewrite requests_app. cbn. rewrite app_nil_r.
      split; [reflexivity|discriminate].
    + injection H as <- <-. split; [reflexivity|discriminate].
Qed.

(** What the part of the run inside the [try] asks of the network. *)
Lemma search_and_fetch_requests
    (to_decimal : codepoint -> option N)
    (fromstring : bytes -> option document) (loads : bytes -> exn + json)
    (show_container : json -> str) (net : nat -> str -> reply)
    (url : str) (w w' : world) (r : result unit) :
  (query <- urlopen net Search url ;;
   book_results <- extract_books to_decimal fromstring (snd query) ;;
   md <- extract_metadata net loads book_results ;;
   display_results show_container md) w = (r, w') ->
  (requests (trace w') = requests (trace w) ++ [(Search, url)]
   /\ forall a, r <> Ret a)
  \/ exists resource,
       requests (trace w')
       = requests (trace w)
         ++ [(Search, url);
             (Metadata,
              replace (lit "resource") (lit "data") resource ++ lit ".json")].
Proof.
  unfold bind at 1, urlopen.
  destruct (net (sent w) url) as [status body|e]; cbn [snd].
  - unfold bind at 1.
    set (w1 := World (stdin w) (S (sent w)) (trace w ++ [Urlopen Search url])).
    assert (Hw1 : requests (trace w1) = requests (trace w) ++ [(Search, url)]).
    { subst w1. cbn [trace]. now rewrite requests_app. }
    destruct (extract_books to_decimal fromstring body w1) as [rb wb] eqn:Hb.
    destruct (extract_books_offline _ _ _ _ Hb)
      as ((_ & (events & Htr & Hev) & _) & Haddr).
    assert (Hwb : requests (trace wb) = requests (trace w) ++ [(Search, url)]).
    { now rewrite Htr, requests_app, Hev, app_nil_r. }
    destruct rb as [address|st|e].
    + destruct (Haddr address eq_refl) as (resource & ->).
      unfold bind at 1.
      match goal with
      | |- context [extract_metadata net loads ?u wb] =>
          destruct (extract_metadata net loads u wb) as [rm wm] eqn:Hm
      end.
      destruct (extract_metadata_world _ _ _ _ Hm) as (_ & _ & Htm).
      assert (Hwm : requests (trace wm)
                    = requests (trace w)
                      ++ [(Search, url);
                          (Metadata,
                           replace (lit "resource") (lit "data") resource
                           ++ lit ".json")]).
      { destruct Htm as [->|(e & _ & _ & ->)];
          rewrite requests_app, Hwb, <- app_assoc; reflexivity. }
      intro H. right. exists resource.
      destruct rm as [md|st|e].
      * rewrite display_results_run in H. injection H as _ <-.
        cbn [trace]. now rewrite requests_app, requests_prints, app_nil_r.
      * injection H as _ <-. exact Hwm.
      * injection H as _ <-. exact Hwm.
    + intro H. injection H as <- <-. left. split; [exact Hwb|discriminate].
    + intro H. injection H as <- <-. left. split; [exact Hwb|discriminate].
  - intro H. injection H as <- <-. left. cbn [trace].
    rewrite requests_app. split; [reflexivity|discriminate].
Qed.

(** X14: whatever the inputs and the network, the requests of a run
    are: probes of a leading part of the list of prefixes, in order;
    then, only if the candidates before the last one probed answered
    with a status other than 200 and the last one with 200, one search
    at that prefix followed by the sanitized text; then at most one
    request of a metadata document, at an address ending in [.json].
    A run that returns has sent all three kinds. *)
Theorem run_requests_in_order
    (fold_table : codepoint -> str) (to_decimal : codepoint -> option N)
    (fromstring : bytes -> option document) (loads : bytes -> exn + json)
    (show_container : json -> str) (net : nat -> str -> reply)
    (keyboard : list str) (search : str) (r : result unit) (tr : list event) :
  run fold_table to_decimal fromstring loads show_container net keyboard search
  = (r, tr) ->
  exists tried rest tail,
    prefixes = tried ++ rest
    /\ requests tr = List.map probe_request tried ++ tail
    /\ (tail = [] /\ r <> Ret tt
        \/ exists bookname earlier prefix body,
             clean fold_table search = Ret bookname
             /\ tried = earlier ++ [prefix]
             /\ answered_other net 0 earlier
             /\ net (List.length earlier) (probe_url prefix)
                = Response 200 body
             /\ (tail = [(Search, prefix ++ bookname)] /\ r <> Ret tt
                 \/ exists resource,
                      tail = [(Search, prefix ++ bookname);
                              (Metadata,
                               replace (lit "resource") (lit "data") resource
                               ++ lit ".json")])).
Proof.
  unfold run.
  destruct (query_DBpedia fold_table to_decimal fromstring loads
              show_container net search (World keyboard 0 [])) as [r' w']
    eqn:E.
  intro H. injection H as -> <-.
  unfold query_DBpedia, bind at 1, lift in E.
  destruct (clean fold_table search) as [bookname|st|e] eqn:Hclean.
  - unfold bind at 1 in E.
    destruct (getAPIprefix net (World keyboard 0 [])) as [r1 w1] eqn:Hprobe.
    apply probe_all_outcome in Hprobe.
    destruct Hprobe as (tried & rest & Hc & Hw1 & Hr1).
    cbn [stdin sent trace app] in Hw1.
    assert (Hreq1 : requests (trace w1) = List.map probe_request tried).
    { rewrite Hw1. cbn [trace]. apply requests_probes. }
    exists tried, rest.
    destruct r1 as [prefix|st|e].
    + destruct Hr1 as (earlier & Ht & Ho & body & Hb).
      cbn [sent Nat.add] in Ho, Hb.
      apply except_url_errors_requests in E.
      destruct E as (r0 & w0 & Hin & Hsame & Hret).
      apply search_and_fetch_requests in Hin.
      destruct Hin as [[Hreq Hno]|(resource & Hreq)].
      * exists [(Search, prefix ++ bookname)].
        split; [exact Hc|]. split; [now rewrite Hsame, Hreq, Hreq1|].
        right. exists bookname, earlier, prefix, body.
        split; [reflexivity|]. split; [exact Ht|].
        split; [exact Ho|]. split; [exact Hb|]. left.
        split; [reflexivity|]. intro Hr. exact (Hno tt (Hret tt Hr)).
      * eexists. split; [exact Hc|].
        split; [rewrite Hsame, Hreq, Hreq1; reflexivity|].
        right. exists bookname, earlier, prefix, body.
        split; [reflexivity|]. split; [exact Ht|].
        split; [exact Ho|]. split; [exact Hb|]. right.
        now exists resource.
    + injection E as <- <-. exists []. split; [exact Hc|].
      split; [now rewrite Hreq1, app_nil_r|]. left. split; [reflexivity|].
      discriminate.
    + injection E as <- <-. exists []. split; [exact Hc|].
      split; [now rewrite Hreq1, app_nil_r|]. left. split; [reflexivity|].
      discriminate.
  - injection E as <- <-. exists [], prefixes, [].
    split; [reflexivity|]. split; [reflexivity|]. left.
    split; [reflexivity|discriminate].
  - injection E as <- <-. exists [], prefixes, [].
    split; [reflexivity|]. split; [reflexivity|]. left.
    split; [reflexivity|discriminate].
Qed.

Lemma run_requests_in_order_witness :
  exists tried rest tail,
    prefixes = tried ++ rest
    /\ requests (snd (run fold_nothing no_digits (parse_as one_book)
                          (load_as two_authors) show_nothing healthy []
                          (lit "Dune")))
       = List.map probe_request tried ++ tail.
Proof.
  destruct (@run_requests_in_order fold_nothing no_digits (parse_as one_book)
              (load_as two_authors) show_nothing healthy [] (lit "Dune")
              (fst (run fold_nothing no_digits (parse_as one_book)
                        (load_as two_authors) show_nothing healthy []
                        (lit "Dune")))
              (snd (run fold_nothing no_digits (parse_as one_book)
                        (load_as two_authors) show_nothing healthy []
                        (lit "Dune"))))
    as (tried & rest & tail & Hp & Hr & _).
  - vm_compute. reflexivity.
  - now exists tried, rest, tail.
Defined.

(** ** The extraction of the fields *)

Lemma english_members (dic : json) (l : list (str * json)) :
  forall a a',
    for_each l
      (fun kv a =>
         x <~ getitem dic (fst kv) ;;
         if equals_str x (lit "en")
         then v <~ getitem dic (lit "value") ;; Ret (set_abstract v a)
         else Ret a) a = Ret a' ->
    if existsb (fun kv =>
                  match getitem dic (fst kv) with
                  | Ret x => equals_str x (lit "en")
                  | _ => false
                  end) l
    then exists v, getitem dic (lit "value") = Ret v /\ ABSTRACT_ANSWER a' = v
    else a' = a.
Proof.
  induction l as [|kv rest IH]; intros a a' H.
  - cbn in H. now injection H as <-.
  - cbn [for_each] in H. cbn [existsb].
    destruct (getitem dic (fst kv)) as [x| |]; cbn [rbind] in H;
      try discriminate.
    destruct (equals_str x (lit "en")).
    + destruct (getitem dic (lit "value")) as [v| |] eqn:Hv; cbn [rbind] in H;
        try discriminate.
      cbn [orb]. specialize (IH _ _ H).
      destruct (existsb _ rest).
      * exact IH.
      * subst a'. exists v. split; [reflexivity|]. now destruct a.
    + cbn [orb]. exact (IH _ _ H).
Qed.

Lemma existsb_same {A : Type} (f g : A -> bool) (l : list A) :
  (forall x, f x = g x) -> existsb f l = existsb g l.
Proof.
  intro H. induction l as [|x r IH]; [reflexivity|].
  cbn. now rewrite H, IH.
Qed.

Lemma english_step (dic : json) (a a' : answers) :
  english dic a = Ret a' ->
  if has_member dic (lit "en")
  then exists v, getitem dic (lit "value") = Ret v /\ ABSTRACT_ANSWER a' = v
  else a' = a.
Proof.
  unfold english. destruct dic as [| | | | |l|members]; cbn [items rbind];
    try discriminate.
  intro H. apply english_members in H. cbn [has_member getitem] in *.
  replace (existsb _ members) with
    (existsb (fun kv : str * json =>
                match
                  match dict_get str_eqb members (fst kv) with
                  | Some x => Ret x
                  | None => Raise KeyError
                  end
                with
                | Ret x => equals_str x (lit "en")
                | _ => false
                end) members).
  - exact H.
  - apply existsb_same. intro kv.
    now destruct (dict_get str_eqb members (fst kv)).
Qed.

Lemma after_abstracts_same (seen : list json) (a0 a a' : answers) :
  ABSTRACT_ANSWER a' = ABSTRACT_ANSWER a ->
  after_abstracts seen a0 a -> after_abstracts seen a0 a'.
Proof.
  unfold after_abstracts. intros E H.
  destruct (rev (filter _ seen)); [congruence|].
  destruct H as (v & Hv & Ha). exists v. split; [exact Hv|congruence].
Qed.

Lemma after_abstracts_snoc (seen : list json) (dic : json) (a0 a a' : answers) :
  english dic a = Ret a' ->
  after_abstracts seen a0 a -> after_abstracts (seen ++ [dic]) a0 a'.
Proof.
  intros H Ha. apply english_step in H. unfold after_abstracts in *.
  rewrite filter_app, rev_app_distr. cbn [filter].
  destruct (has_member dic (lit "en")).
  - cbn. exact H.
  - subst a'. cbn. exact Ha.
Qed.

Lemma for_each_english (objects : list json) :
  forall a a' seen a0,
    for_each objects english a = Ret a' ->
    after_abstracts seen a0 a ->
    after_abstracts (seen ++ objects) a0 a'.
Proof.
  induction objects as [|dic rest IH]; intros a a' seen a0 H Ha.
  - cbn in H. injection H as <-. now rewrite app_nil_r.
  - cbn [for_each] in H. destruct (english dic a) as [a1| |] eqn:E;
      cbn [rbind] in H; try discriminate.
    replace (seen ++ dic :: rest) with ((seen ++ [dic]) ++ rest)
      by (now rewrite <- app_assoc).
    apply (IH a1 a' _ a0 H). now apply (@after_abstracts_snoc seen dic a0 a a1).
Qed.

Lemma after_abstracts_again (seen objects : list json) (a0 a : answers) :
  after_abstracts ((seen ++ objects) ++ objects) a0 a ->
  after_abstracts (seen ++ objects) a0 a.
Proof.
  unfold after_abstracts. rewrite !filter_app, !rev_app_distr.
  destruct (rev (filter (fun dic => has_member dic (lit "en")) objects));
    cbn [app]; auto.
Qed.

Lemma abstract_members (value : json) (seen : list json) (a0 : answers)
    (l : list (str * json)) :
  let objects := subject_objects value ABSTRACT_ID in
  forall a a',
    for_each l (fun kv => on_resource value (fst kv)) a = Ret a' ->
    (after_abstracts seen a0 a ->
     if existsb (fun kv => str_eqb (fst kv) ABSTRACT_ID) l
     then after_abstracts (seen ++ objects) a0 a'
     else after_abstracts seen a0 a')
    /\ (after_abstracts (seen ++ objects) a0 a ->
        after_abstracts (seen ++ objects) a0 a').
Proof.
  intro objects. induction l as [|kv rest IH]; intros a a' H.
  - cbn in H. injection H as <-. cbn. tauto.
  - cbn [for_each] in H.
    destruct (on_resource value (fst kv) a) as [a1| |] eqn:E; cbn [rbind] in H;
      try discriminate.
    destruct (IH a1 a' H) as [IH1 IH2]. cbn [existsb].
    destruct (str_eqb (fst kv) ABSTRACT_ID) eqn:Ek.
    + apply str_eqb_eq in Ek. rewrite Ek in E. cbn [orb].
      assert (Hown : forall seen',
                 after_abstracts seen' a0 a ->
                 after_abstracts (seen' ++ objects) a0 a1).
      { intros seen' Hs. change ABSTRACT_ID with (field_id Abstract) in E.
        rewrite on_resource_own in E. unfold for_values in E.
        subst objects. unfold subject_objects.
        change (field_id Abstract) with ABSTRACT_ID in E.
        destruct (getitem value ABSTRACT_ID) as [listed| |]; cbn [rbind] in E;
          try discriminate.
        destruct (elements_of listed) as [objs| |]; cbn [rbind] in E;
          try discriminate.
        now apply (@for_each_english objs a a1 seen' a0). }
      split; intro Ha; apply IH2.
      * now apply Hown.
      * apply after_abstracts_again. now apply Hown.
    + apply str_eqb_neq in Ek. cbn [orb].
      assert (Hsame : ABSTRACT_ANSWER a1 = ABSTRACT_ANSWER a).
      { pose proof (@on_resource_view Abstract value (fst kv) a a1 Ek E) as Hv.
        unfold view in Hv. cbn in Hv. congruence. }
      split; intro Ha.
      * apply IH1. now apply (@after_abstracts_same seen a0 a a1).
      * apply IH2. now apply (@after_abstracts_same _ a0 a a1).
Qed.

Lemma abstract_subject (value : json) (seen : list json) (a0 a a' : answers) :
  on_subject value a = Ret a' ->
  after_abstracts seen a0 a ->
  after_abstracts (seen ++ subject_objects value ABSTRACT_ID) a0 a'.
Proof.
  intros H Ha. unfold on_subject in H.
  destruct value as [| | | | |l|members]; cbn [items rbind] in H;
    try discriminate.
  destruct (@abstract_members (JDict members) seen a0 members a a' H)
    as [H1 _].
  specialize (H1 Ha).
  destruct (existsb (fun kv => str_eqb (fst kv) ABSTRACT_ID) members) eqn:E;
    [exact H1|].
  unfold subject_objects, getitem.
  rewrite (@dict_get_absent members ABSTRACT_ID E). now rewrite app_nil_r.
Qed.

Lemma abstract_subjects (subjects : list (str * json)) :
  forall seen a0 a a',
    for_each subjects (fun kv => on_subject (snd kv)) a = Ret a' ->
    after_abstracts seen a0 a ->
    after_abstracts
      (seen ++ flat_map (fun kv => subject_objects (snd kv) ABSTRACT_ID) subjects)
      a0 a'.
Proof.
  induction subjects as [|kv rest IH]; intros seen a0 a a' H Ha.
  - cbn in H. injection H as <-. cbn. now rewrite app_nil_r.
  - cbn [for_each] in H.
    destruct (on_subject (snd kv) a) as [a1| |] eqn:E; cbn [rbind] in H;
      try discriminate.
    cbn [flat_map]. rewrite app_assoc. apply (IH _ a0 a1 a' H).
    now apply (@abstract_subject (snd kv) seen a0 a a1).
Qed.

(** X15: when the extraction succeeds, the abstract is the [value] of
    the last object, under the abstract predicate, that has some member
    equal to the string [en]; without such an object it is
    [not found]. *)
Theorem abstract_is_last_object_with_en
    (json_dict : json) (md : metadata) :
  extract_fields json_dict = Ret md ->
  match rev (filter (fun dic => has_member dic (lit "en"))
                    (objects_for json_dict ABSTRACT_ID)) with
  | [] => dict_get str_eqb md (lit "ABSTRACT") = Some not_found
  | dic :: _ =>
      exists v, getitem dic (lit "value") = Ret v
                /\ dict_get str_eqb md (lit "ABSTRACT") = Some v
  end.
Proof.
  intro Hext. unfold extract_fields in Hext.
  destruct (scan_document json_dict) as [a| |] eqn:Hscan; cbn [rbind] in Hext;
    try discriminate.
  injection Hext as <-.
  assert (Hafter : after_abstracts (objects_for json_dict ABSTRACT_ID)
                                   initial_answers a).
  { unfold scan_document in Hscan.
    destruct json_dict as [| | | | |l|subjects]; cbn [items rbind] in Hscan;
      try discriminate.
    apply (@abstract_subjects subjects [] initial_answers initial_answers a
             Hscan).
    reflexivity. }
  unfold after_abstracts in Hafter.
  destruct (rev (filter _ (objects_for json_dict ABSTRACT_ID))) as [|dic r].
  - destruct a. cbn in Hafter. subst. reflexivity.
  - destruct Hafter as (v & Hv & Ha). exists v. split; [exact Hv|].
    destruct a. cbn in Ha. subst. reflexivity.
Qed.

Lemma abstract_is_last_object_with_en_witness :
  exists md,
    extract_fields english_and_french = Ret md
    /\ dict_get str_eqb md (lit "ABSTRACT") = Some (JStr (lit "Dune is a novel.")).
Proof.
  eexists. split; [vm_compute; reflexivity|].
  match goal with
  | |- dict_get _ ?md _ = _ =>
      pose proof (@abstract_is_last_object_with_en english_and_french md) as H
  end.
  vm_compute in H. destruct (H eq_refl) as (v & Hv & Hget).
  injection Hv as <-. vm_compute. exact Hget.
Defined.

Lemma field_body_usable (f : field) (lst : json) (a a' : answers) :
  f <> Abstract -> field_body f lst a = Ret a' -> usable f lst.
Proof.
  intros Hf H. unfold usable.
  destruct f; try congruence; unfold field_body, labelled, raw in H;
    destruct (getitem lst (lit "value")) as [v| |]; cbn [rbind] in H;
    try discriminate; exists v; (split; [reflexivity|]); try exact I;
    destruct v; cbn in H; try discriminate; eauto.
Qed.

Lemma for_each_usable (f : field) (objects : list json) :
  f <> Abstract ->
  forall a a',
    for_each objects (field_body f) a = Ret a' ->
    Forall (usable f) objects.
Proof.
  intro Hf. induction objects as [|lst rest IH]; intros a a' H;
    [constructor|].
  cbn [for_each] in H. destruct (field_body f lst a) as [a1| |] eqn:E;
    cbn [rbind] in H; try discriminate.
  constructor.
  - now apply (@field_body_usable f lst a a1).
  - now apply (IH a1 a').
Qed.

Lemma members_usable (f : field) (value : json) (l : list (str * json)) :
  f <> Abstract ->
  forall a a',
    for_each l (fun kv => on_resource value (fst kv)) a = Ret a' ->
    existsb (fun kv => str_eqb (fst kv) (field_id f)) l = true ->
    Forall (usable f) (subject_objects value (field_id f)).
Proof.
  intro Hf. induction l as [|kv rest IH]; intros a a' H Hin;
    [discriminate|].
  cbn [for_each] in H.
  destruct (on_resource value (fst kv) a) as [a1| |] eqn:E; cbn [rbind] in H;
    try discriminate.
  cbn [existsb] in Hin. destruct (str_eqb (fst kv) (field_id f)) eqn:Ek.
  - apply str_eqb_eq in Ek. rewrite Ek, on_resource_own in E.
    unfold for_values in E. unfold subject_objects.
    destruct (getitem value (field_id f)) as [listed| |]; cbn [rbind] in E;
      try discriminate.
    destruct (elements_of listed) as [objs| |]; cbn [rbind] in E;
      try discriminate.
    now apply (@for_each_usable f objs Hf a a1).
  - now apply (IH a1 a').
Qed.

Lemma subject_usable (f : field) (value : json) (a a' : answers) :
  f <> Abstract ->
  on_subject value a = Ret a' ->
  Forall (usable f) (subject_objects value (field_id f)).
Proof.
  intros Hf H. unfold on_subject in H.
  destruct value as [| | | | |l|members]; cbn [items rbind] in H;
    try discriminate.
  destruct (existsb (fun kv => str_eqb (fst kv) (field_id f)) members) eqn:E.
  - now apply (@members_usable f (JDict members) members Hf a a').
  - unfold subject_objects, getitem.
    rewrite (@dict_get_absent members (field_id f) E). constructor.
Qed.

(** X16: the extraction succeeds only if every object listed under
    the predicate of a field other than the abstract has a [value],
    and, for author, publisher and genre, a [value] that is a string:
    one object without it fails the whole extraction, also when a
    later object would have given the answer. *)
Theorem extraction_needs_every_value
    (json_dict : json) (md : metadata) (f : field) (lst : json) :
  f <> Abstract ->
  extract_fields json_dict = Ret md ->
  In lst (objects_for json_dict (field_id f)) ->
  exists v,
    getitem lst (lit "value") = Ret v
    /\ match f with
       | Author | Publisher | Genre => exists s, v = JStr s
       | _ => True
       end.
Proof.
  intros Hf Hext Hin. unfold extract_fields in Hext.
  destruct (scan_document json_dict) as [a| |] eqn:Hscan; cbn [rbind] in Hext;
    try discriminate.
  unfold scan_document in Hscan.
  destruct json_dict as [| | | | |l|subjects]; cbn [items rbind] in Hscan;
    try contradiction.
  cbn [objects_for] in Hin.
  assert (Hall : forall (subs : list (str * json)) a0 a1,
             for_each subs (fun kv => on_subject (snd kv)) a0 = Ret a1 ->
             Forall (usable f)
                    (flat_map (fun kv => subject_objects (snd kv) (field_id f))
                              subs)).
  { induction subs as [|kv rest IH]; intros a0 a1 H; [constructor|].
    cbn [for_each] in H.
    destruct (on_subject (snd kv) a0) as [a2| |] eqn:E; cbn [rbind] in H;
      try discriminate.
    cbn [flat_map]. apply Forall_app. split.
    - now apply (@subject_usable f (snd kv) a0 a2).
    - now apply (IH a2 a1). }
  specialize (Hall subjects _ _ Hscan). rewrite Forall_forall in Hall.
  exact (Hall lst Hin).
Qed.

Lemma extraction_needs_every_value_witness :
  exists v,
    getitem (uri_object "http://dbpedia.org/resource/Frank_Herbert")
            (lit "value") = Ret v
    /\ exists s, v = JStr s.
Proof.
  eapply (@extraction_needs_every_value two_authors _ Author
            (uri_object "http://dbpedia.org/resource/Frank_Herbert")).
  - discriminate.
  - vm_compute. reflexivity.
  - vm_compute. left. reflexivity.
Defined.



(** ** Documents of an unexpected shape *)

Lemma rbind_lookup {A B : Type} (r : result A) (k : A -> result B) :
  fails_by_lookup r -> (forall a, fails_by_lookup (k a)) ->
  fails_by_lookup (rbind r k).
Proof.
  intros Hr Hk. destruct r as [a|st|e]; cbn [rbind]; [apply Hk| |]; exact Hr.
Qed.

Lemma for_each_lookup {A S : Type} (body : A -> S -> result S) (l : list A) :
  (forall x s, fails_by_lookup (body x s)) ->
  forall s, fails_by_lookup (for_each l body s).
Proof.
  intro Hbody. induction l as [|x rest IH]; intro s; [exact I|].
  cbn [for_each]. apply rbind_lookup; [apply Hbody|exact IH].
Qed.

Lemma getitem_lookup (v : json) (key : str) : fails_by_lookup (getitem v key).
Proof.
  destruct v; cbn; try reflexivity.
  now destruct (dict_get str_eqb members key).
Qed.

Lemma items_lookup (v : json) : fails_by_lookup (items v).
Proof. destruct v; cbn; trivial. Qed.

Lemma elements_of_lookup (v : json) : fails_by_lookup (elements_of v).
Proof. destruct v; cbn; trivial. Qed.

Lemma short_label_lookup (v : json) : fails_by_lookup (short_label v).
Proof. destruct v; cbn; trivial. Qed.

Lemma labelled_lookup (set : json -> json -> answers -> answers)
    (lst : json) (a : answers) :
  fails_by_lookup (labelled set lst a).
Proof.
  unfold labelled. apply rbind_lookup; [apply getitem_lookup|]. intro uri.
  apply rbind_lookup; [apply short_label_lookup|]. intro label. exact I.
Qed.

Lemma raw_lookup (set : json -> answers -> answers) (lst : json) (a : answers) :
  fails_by_lookup (raw set lst a).
Proof.
  unfold raw. apply rbind_lookup; [apply getitem_lookup|]. intro v. exact I.
Qed.

Lemma english_lookup (dic : json) (a : answers) :
  fails_by_lookup (english dic a).
Proof.
  unfold english. apply rbind_lookup; [apply items_lookup|]. intro members.
  apply for_each_lookup. intros kv s.
  apply rbind_lookup; [apply getitem_lookup|]. intro x.
  destruct (equals_str x (lit "en")); [|exact I].
  apply rbind_lookup; [apply getitem_lookup|]. intro v. exact I.
Qed.

Lemma for_values_lookup (value : json) (resource : str)
    (body : json -> answers -> result answers) (a : answers) :
  (forall lst s, fails_by_lookup (body lst s)) ->
  fails_by_lookup (for_values value resource body a).
Proof.
  intro Hbody. unfold for_values.
  apply rbind_lookup; [apply getitem_lookup|]. intro listed.
  apply rbind_lookup; [apply elements_of_lookup|]. intro objects.
  now apply for_each_lookup.
Qed.

Lemma on_resource_lookup (value : json) (resource : str) (a : answers) :
  fails_by_lookup (on_resource value resource a).
Proof.
  unfold on_resource.
  repeat match goal with
         | |- fails_by_lookup (if ?b then _ else _) => destruct b
         end;
    try exact I; apply for_values_lookup; intros lst s;
    first [apply labelled_lookup | apply raw_lookup | apply english_lookup].
Qed.

Lemma on_subject_lookup (value : json) (a : answers) :
  fails_by_lookup (on_subject value a).
Proof.
  unfold on_subject. apply rbind_lookup; [apply items_lookup|]. intro members.
  apply for_each_lookup. intros kv s. apply on_resource_lookup.
Qed.

Lemma extract_fields_lookup (json_dict : json) :
  fails_by_lookup (extract_fields json_dict).
Proof.
  unfold extract_fields, scan_document.
  apply rbind_lookup; [|intro a; exact I].
  apply rbind_lookup; [apply items_lookup|]. intro members.
  apply for_each_lookup. intros kv s. apply on_subject_lookup.
Qed.

(** X18: extracting the fields of a parsed document never exits the
    process, and when it fails it does so with a KeyError, a TypeError
    or an AttributeError, none of which the handlers of the script
    catch. *)
Theorem extraction_fails_only_by_lookup (json_dict : json) :
  (forall status, extract_fields json_dict <> Exit status)
  /\ forall e, extract_fields json_dict = Raise e ->
       (e = KeyError \/ e = TypeError \/ e = AttributeError)
       /\ is_url_error e = false.
Proof.
  pose proof (extract_fields_lookup json_dict) as H.
  destruct (extract_fields json_dict) as [md|st|e0]; cbn in H.
  - split; [discriminate|]. discriminate.
  - contradiction.
  - split; [discriminate|]. intros e He. injection He as <-.
    destruct e0; try discriminate; auto.
Qed.

(** X19: a metadata answer that [json.loads] rejects, with whatever
    exception of its own, or whose document has not the expected shape,
    ends the run with that exception: nothing is printed after the
    request and no result is shown. *)
Theorem malformed_metadata_ends_run_unprinted
    (fold_table : codepoint -> str) (to_decimal : codepoint -> option N)
    (fromstring : bytes -> option document) (loads : bytes -> exn + json)
    (show_container : json -> str) (net : nat -> str -> reply)
    (search bookname prefix address : str) (status status' : Z)
    (body body' : bytes) (e : exn) (w w1 w2 : world) :
  clean fold_table search = Ret bookname ->
  getAPIprefix net w = (Ret prefix, w1) ->
  net (sent w1) (prefix ++ bookname) = Response status body ->
  extract_books to_decimal fromstring body
    (World (stdin w1) (S (sent w1))
           (trace w1 ++ [Urlopen Search (prefix ++ bookname)]))
  = (Ret address, w2) ->
  net (sent w2) address = Response status' body' ->
  match loads body' with
  | inl raised => e = raised /\ is_url_error raised = false
  | inr json_dict => extract_fields json_dict = Raise e
  end ->
  query_DBpedia fold_table to_decimal fromstring loads show_container net
                search w
  = (Raise e,
     World (stdin w2) (S (sent w2)) (trace w2 ++ [Urlopen Metadata address])).
Proof.
  intros Hclean Hprobe Hnet Hbooks Hmeta Hbad.
  assert (He : is_url_error e = false).
  { destruct (loads body') as [raised|j].
    - destruct Hbad as [-> Hraised]. exact Hraised.
    - pose proof (extract_fields_lookup j) as Hl. rewrite Hbad in Hl.
      cbn in Hl. now destruct e. }
  unfold query_DBpedia, bind at 1, lift. rewrite Hclean.
  unfold bind at 1. rewrite Hprobe.
  unfold except_url_errors at 1, bind at 1, urlopen at 1. rewrite Hnet.
  unfold bind at 1. cbv beta iota. cbn [snd]. rewrite Hbooks.
  unfold bind at 1.
  unfold extract_metadata, except_url_errors, bind at 1, urlopen.
  rewrite Hmeta. cbn [snd].
  destruct (loads body') as [raised|j].
  - destruct Hbad as [<- _]. unfold raise. rewrite He. cbn. now rewrite He.
  - unfold lift. rewrite Hbad, He. cbn. now rewrite He.
Qed.

Lemma malformed_metadata_ends_run_unprinted_witness :
  run fold_nothing no_digits (parse_as one_book) not_text
      show_nothing healthy [] (lit "Dune")
  = (Raise UnicodeDecodeError,
     [Urlopen Probe (probe_url (hd [] prefixes));
      Urlopen Search (hd [] prefixes ++ lit "dune");
      Print (lit "Results for 'Dune (novel)':");
      Urlopen Metadata (lit "http://dbpedia.org/data/Dune_(novel).json")]).
Proof.
  unfold run.
  rewrite (@malformed_metadata_ends_run_unprinted fold_nothing no_digits
             (parse_as one_book) not_text show_nothing healthy
             (lit "Dune") (lit "dune") (hd [] prefixes)
             (lit "http://dbpedia.org/data/Dune_(novel).json")
             200 200 search_body metadata_body UnicodeDecodeError
             (World [] 0 [])
             (World [] 1 [Urlopen Probe (probe_url (hd [] prefixes))])
             (World [] 2 [Urlopen Probe (probe_url (hd [] prefixes));
                          Urlopen Search (hd [] prefixes ++ lit "dune");
                          Print (lit "Results for 'Dune (novel)':")])).
  - reflexivity.
  - vm_compute. reflexivity.
  - vm_compute. reflexivity.
  - vm_compute. reflexivity.
  - vm_compute. reflexivity.
  - vm_compute. reflexivity.
  - vm_compute. split; reflexivity.
Defined.

(** The same end for a document that lists an author without a value. *)
Example valueless_author_ends_run :
  run fold_nothing no_digits (parse_as one_book)
      (load_as (subject_of [(AUTHOR_ID, JList [JDict []])]))
      show_nothing healthy [] (lit "Dune")
  = (Raise KeyError,
     [Urlopen Probe (probe_url (hd [] prefixes));
      Urlopen Search (hd [] prefixes ++ lit "dune");
      Print (lit "Results for 'Dune (novel)':");
      Urlopen Metadata (lit "http://dbpedia.org/data/Dune_(novel).json")]).
Proof. vm_compute. reflexivity. Qed.

(** ** Absence is not an error *)























(** ** The candidates that are listed *)

Lemma candidate_lines_length (names : list text) :
  forall idx, List.length (candidate_lines idx names) = List.length names.
Proof.
  induction names as [|b rest IH]; intro idx; [reflexivity|].
  cbn [candidate_lines List.length]. now rewrite IH.
Qed.

(** With two titles or more, the notice, one line per title and the
    prompt are written whatever follows; after them comes at most the
    heading of the title chosen. *)
Lemma select_book_lists (to_decimal : codepoint -> option N) (d : books)
    (w w' : world) (r : result str) :
  (2 <= List.length d)%nat ->
  select_book to_decimal d w = (r, w') ->
  exists later,
    trace w'
    = trace w
      ++ Print multiple_titles_line
         :: List.map Print (candidate_lines 0 (dict_keys d))
         ++ Prompt choice_prompt :: later
    /\ (later = [] \/ exists title, later = [Print (results_line title)]).
Proof.
  intros Hlen H.
  destruct d as [|[t1 r1] [|[t2 r2] d']]; cbn in Hlen; try lia.
  unfold select_book in H.
  set (d := (t1, r1) :: (t2, r2) :: d') in *.
  unfold bind at 1 in H. unfold print_xml at 1, emit in H. cbv beta iota in H.
  unfold bind at 1 in H. rewrite print_candidates_lines in H.
  cbv beta iota in H. unfold bind at 1, input in H.
  cbn [stdin sent trace] in H.
  assert (Hshape : forall later,
             ((trace w ++ [Print multiple_titles_line])
              ++ List.map Print (candidate_lines 0 (dict_keys d)))
             ++ Prompt choice_prompt :: later
             = trace w
               ++ Print multiple_titles_line
                  :: List.map Print (candidate_lines 0 (dict_keys d))
                  ++ Prompt choice_prompt :: later).
  { intro later. now rewrite <- !app_assoc. }
  destruct (stdin w) as [|line rest].
  - injection H as <- <-. exists []. split; [apply Hshape|now left].
  - destruct (py_int to_decimal line) as [k|].
    + destruct (list_index (dict_keys d) k) as [title|].
      * destruct (dict_get text_eqb d title) as [resource|].
        -- unfold bind, lift in H.
           destruct (json_address resource) as [uri| |].
           ++ cbn in H. injection H as <- <-.
              exists [Print (results_line title)]. split.
              ** cbn [trace]. rewrite <- app_assoc. apply Hshape.
              ** right. now exists title.
           ++ injection H as <- <-. exists []. split; [apply Hshape|now left].
           ++ injection H as <- <-. exists []. split; [apply Hshape|now left].
        -- injection H as <- <-. exists []. split; [apply Hshape|now left].
      * injection H as <- <-. exists []. split; [apply Hshape|now left].
    + injection H as <- <-. exists []. split; [apply Hshape|now left].
Qed.

(** C10, as the code has it: the candidates are a dict keyed by label,
    which holds each label once, with the identifier of the hit scanned
    last under it.  When two distinct labels or more remain, the filter
    writes its notice, one numbered line per distinct label and the
    prompt, so the candidates presented are as many as the distinct
    labels, at most as many as the hits. *)
Theorem one_candidate_per_label
    (to_decimal : codepoint -> option N)
    (fromstring : bytes -> option document) (body : bytes) (doc : document)
    (hits : list (text * text)) (w : world) :
  fromstring body = Some doc ->
  book_hits doc = Ret hits ->
  (2 <= List.length (distinct_labels hits))%nat ->
  exists d r w' later,
    dict_of_books doc = Ret d
    /\ NoDup (dict_keys d)
    /\ (forall label, In label (dict_keys d) <-> In label (List.map fst hits))
    /\ (forall label, dict_get text_eqb d label = last_scanned hits label)
    /\ extract_books to_decimal fromstring body w = (r, w')
    /\ trace w'
       = trace w
         ++ Print multiple_titles_line
            :: List.map Print (candidate_lines 0 (dict_keys d))
            ++ Prompt choice_prompt :: later
    /\ (later = [] \/ exists title, later = [Print (results_line title)])
    /\ List.length (candidate_lines 0 (dict_keys d))
       = List.length (distinct_labels hits)
    /\ (List.length (distinct_labels hits) <= List.length hits)%nat.
Proof.
  intros Hparse Hhits Hmany.
  set (d := fill hits []).
  assert (Hd : dict_of_books doc = Ret d)
    by (now apply collect_fill).
  assert (Hnodup : NoDup (dict_keys d))
    by (apply fill_keys_nodup; constructor).
  assert (Hin : forall label,
             In label (dict_keys d) <-> In label (List.map fst hits)).
  { intro label. unfold d. rewrite fill_keys_in. cbn. tauto. }
  assert (Hlen : List.length (dict_keys d)
                 = List.length (distinct_labels hits)).
  { unfold distinct_labels. apply Nat.le_antisymm; apply NoDup_incl_length.
    - exact Hnodup.
    - intros x Hx. apply nodup_In. now apply Hin.
    - apply NoDup_nodup.
    - intros x Hx. apply Hin. now apply nodup_In in Hx. }
  destruct (extract_books to_decimal fromstring body w) as [r w'] eqn:Hrun.
  assert (Hsel : select_book to_decimal d w = (r, w')).
  { unfold extract_books in Hrun. rewrite Hparse in Hrun.
    unfold bind, lift in Hrun. now rewrite Hd in Hrun. }
  assert (Hsize : (2 <= List.length d)%nat).
  { unfold dict_keys in Hlen. rewrite length_map in Hlen. lia. }
  destruct (@select_book_lists to_decimal d w w' r Hsize Hsel)
    as (later & Htrace & Hlater).
  exists d, r, w', later.
  split; [exact Hd|]. split; [exact Hnodup|]. split; [exact Hin|]. split.
  { intro label. unfold d. rewrite fill_get. cbn.
    now destruct (last_scanned hits label). }
  split; [reflexivity|]. split; [exact Htrace|]. split; [exact Hlater|].
  split; [now rewrite candidate_lines_length|].
  rewrite <- Hlen, <- (length_map fst hits).
  apply NoDup_incl_length; [exact Hnodup|]. intros x Hx. now apply Hin.
Qed.

Lemma one_candidate_per_label_witness :
  exists hits r w',
    book_hits same_label = Ret hits
    /\ List.length hits = 3%nat
    /\ extract_books no_digits (parse_as same_label) search_body
                     (World [lit "0"] 0 []) = (r, w')
    /\ exists later,
         trace w'
         = Print multiple_titles_line
           :: List.map Print [lit "- 0 : Emma"; lit "- 1 : Dune (novel)"]
           ++ Prompt choice_prompt :: later.
Proof.
  eexists.
  destruct (@one_candidate_per_label no_digits (parse_as same_label)
              search_body same_label _ (World [lit "0"] 0 []) eq_refl eq_refl)
    as (d & r & w' & later & Hd & _ & _ & _ & Hrun & Htrace & _).
  - vm_compute. lia.
  - exists r, w'. split; [reflexivity|]. split; [reflexivity|].
    split; [exact Hrun|]. exists later.
    vm_compute in Hd. injection Hd as <-. exact Htrace.
Defined.

(** C10 as stated fails when the book entities all carry one label: two
    of them and one distinct label, yet no candidate is presented and
    nothing is asked; the one entry that is left is taken. *)
Lemma shared_label_is_not_listed :
  exists hits,
    book_hits emma_twice = Ret hits
    /\ List.length hits = 2%nat
    /\ List.length (distinct_labels hits) = 1%nat
    /\ extract_books no_digits (parse_as emma_twice) search_body
                     (World [lit "0"] 0 [])
       = (Ret (lit "http://dbpedia.org/data/Emma_(1815_novel).json"),
          World [lit "0"] 0 [Print (lit "Results for 'Emma':")]).
Proof.
  eexists. split; [vm_compute; reflexivity|].
  split; [reflexivity|]. split; [vm_compute; reflexivity|].
  vm_compute. reflexivity.
Qed.

(** ** An entity that is the Book class *)

(** C7 fails for an answer whose entity is the Book class itself: no
    entity is typed as a book, no [Classes/Class/URI] holds the class,
    but the entity's own [URI] does.  The filter takes it for a type,
    walks up from it to the root, finds nothing before the root and
    ends in an AttributeError where the "no books" exit is due.  No
    metadata is asked for. *)
Theorem book_class_entity_ends_in_error :
  book_types book_as_entity = []
  /\ run fold_nothing no_digits (parse_as book_as_entity)
         (load_as two_authors) show_nothing healthy [] (lit "Book")
     = (Raise AttributeError,
        [Urlopen Probe (probe_url (hd [] prefixes));
         Urlopen Search (hd [] prefixes ++ lit "book")]).
Proof.
  split; vm_compute; reflexivity.
Qed.
